(** * Consistency checker for the plugin ecosystem: a shallow embedding

    The development follows [scripts/check_consistency.py].  Python values
    obtained from [json.loads] are an inductive type, the operations the
    script applies to them ([in], subscription, [.get], iteration,
    truthiness, [==]) are total functions into an exception type, and the
    rule evaluators, which append to one shared list of findings and may
    raise, live in a state-and-exception monad.

    A Python [str] is the Rocq string of its characters, every [ascii]
    standing for one code point below 256.  On that alphabet the classes
    [\d] and [\s] of [re] and [str.isprintable] are the finite tables
    written out below. *)

From Stdlib Require Import List String Ascii Bool Arith ZArith QArith Lia Permutation.
From Stdlib Require Import DecimalString Sorted.
From Stdlib Require OrderedTypeEx.
Import ListNotations.
Local Close Scope Q_scope.
Local Open Scope string_scope.
Local Open Scope list_scope.

Set Implicit Arguments.
Set Warnings "-register-all".

(** ** Values produced by [json.loads] *)

(** A Python float: an infinity or a finite value, kept as the rational
    it denotes ([nan], which no JSON text of RFC 8259 denotes, is left
    out). *)
Inductive pyfloat :=
| FInf (negative : bool)
| FFin (q : Q).

(** [None], [bool], [int], [float], [str], [list] and [dict].  A [dict]
    carries its items in insertion order; the keys of a parsed JSON object
    are strings and pairwise distinct, and lookups scan from the front. *)
Inductive json :=
| JNull
| JBool (b : bool)
| JInt (z : Z)
| JFloat (f : pyfloat)
| JStr (s : string)
| JArr (elems : list json)
| JObj (items : list (string * json)).

(** ** Exceptions *)

Inductive exn :=
| KeyError (key : json)
| TypeError
| AttributeError
| IndexError
| JSONDecodeError
| OSError
| UnicodeDecodeError
| ValueError
| RuntimeError.

Inductive result (A : Type) :=
| Ok (a : A)
| Raise (e : exn).
Arguments Ok {A} a.
Arguments Raise {A} e.

Definition rbind {A B} (r : result A) (k : A -> result B) : result B :=
  match r with
  | Ok a => k a
  | Raise e => Raise e
  end.

Declare Scope result_scope.
Delimit Scope result_scope with result.
Notation "x <-- r ;; k" := (rbind r (fun x => k))
  (at level 61, r at next level, right associativity) : result_scope.

(** ** Operations on values *)

Module Py.

Fixpoint dict_lookup {V} (k : string) (d : list (string * V)) : option V :=
  match d with
  | [] => None
  | (k', v) :: rest => if String.eqb k k' then Some v else dict_lookup k rest
  end.

Definition dict_has {V} (k : string) (d : list (string * V)) : bool :=
  match dict_lookup k d with Some _ => true | None => false end.

(** [d[k] = v] on a dict: an existing key keeps its position. *)
Fixpoint dict_set {V} (k : string) (v : V) (d : list (string * V)) : list (string * V) :=
  match d with
  | [] => [(k, v)]
  | (k', v') :: rest =>
      if String.eqb k k' then (k', v) :: rest else (k', v') :: dict_set k v rest
  end.

(** The number a [bool], [int] or [float] compares as. *)
Definition as_number (v : json) : option pyfloat :=
  match v with
  | JBool b => Some (FFin (inject_Z (if b then 1 else 0)))
  | JInt z => Some (FFin (inject_Z z))
  | JFloat f => Some f
  | _ => None
  end.

Definition float_eqb (a b : pyfloat) : bool :=
  match a, b with
  | FInf s, FInf t => Bool.eqb s t
  | FFin p, FFin q => Qeq_bool p q
  | _, _ => false
  end.

(** [a == b]. Numbers compare by value across [bool], [int] and [float];
    lists compare element by element; dicts compare as maps. *)
Fixpoint eqb (a b : json) {struct a} : bool :=
  match a with
  | JNull => match b with JNull => true | _ => false end
  | JStr s => match b with JStr t => String.eqb s t | _ => false end
  | JArr l =>
      match b with
      | JArr m =>
          (fix all2 (l m : list json) {struct l} : bool :=
             match l, m with
             | [], [] => true
             | x :: l', y :: m' => eqb x y && all2 l' m'
             | _, _ => false
             end) l m
      | _ => false
      end
  | JObj d =>
      match b with
      | JObj e =>
          Nat.eqb (List.length d) (List.length e) &&
          (fix sub (d : list (string * json)) {struct d} : bool :=
             match d with
             | [] => true
             | (k, v) :: d' =>
                 match dict_lookup k e with
                 | Some w => eqb v w && sub d'
                 | None => false
                 end
             end) d
      | _ => false
      end
  | JBool _ | JInt _ | JFloat _ =>
      match as_number a, as_number b with
      | Some x, Some y => float_eqb x y
      | _, _ => false
      end
  end.

(** [bool(v)]. *)
Definition truthy (v : json) : bool :=
  match v with
  | JNull => false
  | JBool b => b
  | JInt z => negb (Z.eqb z 0)
  | JFloat (FInf _) => true
  | JFloat (FFin q) => negb (Qeq_bool q (inject_Z 0))
  | JStr s => negb (String.eqb s "")
  | JArr l => match l with [] => false | _ => true end
  | JObj d => match d with [] => false | _ => true end
  end.

Definition hashable (v : json) : bool :=
  match v with
  | JArr _ | JObj _ => false
  | _ => true
  end.

Definition is_str (v : json) : bool :=
  match v with JStr _ => true | _ => false end.

(** [type(v).__name__]. *)
Definition type_name (v : json) : string :=
  match v with
  | JNull => "NoneType"
  | JBool _ => "bool"
  | JInt _ => "int"
  | JFloat _ => "float"
  | JStr _ => "str"
  | JArr _ => "list"
  | JObj _ => "dict"
  end.

(** [obj.get(k, default)]: only a dict has the method. *)
Definition get (obj : json) (k : string) (default : json) : result json :=
  match obj with
  | JObj d => Ok (match dict_lookup k d with Some v => v | None => default end)
  | _ => Raise AttributeError
  end.

Fixpoint str_contains (needle hay : string) : bool :=
  String.prefix needle hay ||
  match hay with
  | EmptyString => false
  | String _ rest => str_contains needle rest
  end.

Definition chars (s : string) : list json :=
  map (fun c => JStr (String c EmptyString)) (list_ascii_of_string s).

(** [x in container]. *)
Definition contains (x container : json) : result bool :=
  match container with
  | JObj d =>
      match x with
      | JStr k => Ok (dict_has k d)
      | JArr _ | JObj _ => Raise TypeError
      | _ => Ok false
      end
  | JArr l => Ok (existsb (fun y => eqb y x) l)
  | JStr s =>
      match x with
      | JStr t => Ok (str_contains t s)
      | _ => Raise TypeError
      end
  | _ => Raise TypeError
  end.

(** An [int] or [bool] used as a sequence index, negative ones counted
    from the end. *)
Definition seq_index (len : nat) (key : json) : option (option nat) :=
  let at_ (z : Z) :=
    let z' := if (z <? 0)%Z then (z + Z.of_nat len)%Z else z in
    if ((0 <=? z') && (z' <? Z.of_nat len))%Z then Some (Z.to_nat z') else None in
  match key with
  | JInt z => Some (at_ z)
  | JBool b => Some (at_ (if b then 1 else 0)%Z)
  | _ => None
  end.

(** [obj[key]]. *)
Definition getitem (obj key : json) : result json :=
  match obj with
  | JObj d =>
      match key with
      | JStr k =>
          match dict_lookup k d with
          | Some v => Ok v
          | None => Raise (KeyError key)
          end
      | JArr _ | JObj _ => Raise TypeError
      | _ => Raise (KeyError key)
      end
  | JArr l =>
      match seq_index (List.length l) key with
      | Some (Some i) => Ok (nth i l JNull)
      | Some None => Raise IndexError
      | None => Raise TypeError
      end
  | JStr s =>
      match seq_index (String.length s) key with
      | Some (Some i) => Ok (nth i (chars s) JNull)
      | Some None => Raise IndexError
      | None => Raise TypeError
      end
  | _ => Raise TypeError
  end.

(** The items a [for] loop or a comprehension draws from a value. *)
Definition iter (v : json) : result (list json) :=
  match v with
  | JArr l => Ok l
  | JObj d => Ok (map (fun kv => JStr (fst kv)) d)
  | JStr s => Ok (chars s)
  | _ => Raise TypeError
  end.

(** [v[:80] + "..."]: defined on a [str] only (a list slice cannot be
    added to a [str]; the other types cannot be sliced). *)
Definition preview (v : json) : result json :=
  match v with
  | JStr s => Ok (JStr (String.substring 0 80 s ++ "..."))
  | _ => Raise TypeError
  end.

(** *** [repr] of a [str] *)

Definition hex_digit (n : nat) : ascii :=
  nth n (list_ascii_of_string "0123456789abcdef") "0"%char.

Definition printable (c : ascii) : bool :=
  let n := nat_of_ascii c in
  ((32 <=? n) && negb ((127 <=? n) && (n <=? 160)) && negb (n =? 173))%nat.

Definition repr_char (quote c : ascii) : string :=
  if Ascii.eqb c quote || Ascii.eqb c "\"%char then String "\"%char (String c "")
  else if Ascii.eqb c "009"%char then "\t"
  else if Ascii.eqb c "010"%char then "\n"
  else if Ascii.eqb c "013"%char then "\r"
  else if printable c then String c ""
  else
    let n := nat_of_ascii c in
    String "\"%char (String "x"%char
      (String (hex_digit (n / 16)) (String (hex_digit (n mod 16)) ""))).

Fixpoint has_char (c : ascii) (s : string) : bool :=
  match s with
  | EmptyString => false
  | String c' rest => Ascii.eqb c c' || has_char c rest
  end.

Definition repr_str (s : string) : string :=
  let dq := "034"%char in
  let sq := "'"%char in
  let quote := if has_char sq s && negb (has_char dq s) then dq else sq in
  String quote
    (String.concat "" (map (repr_char quote) (list_ascii_of_string s))
     ++ String quote "").

End Py.

(** ** Paths

    [pathlib] on POSIX keeps a path as its root and its components: empty
    and [.] components are dropped while parsing, exactly two leading
    slashes are kept as a root of their own. *)

Record Path := { root : string; parts : list string }.

Module PurePath.

Fixpoint split_on (sep : ascii) (s : string) : list string :=
  match s with
  | EmptyString => [""]
  | String c rest =>
      if Ascii.eqb c sep then "" :: split_on sep rest
      else match split_on sep rest with
           | h :: t => String c h :: t
           | [] => [String c ""]
           end
  end.

Definition parse (s : string) : Path :=
  {| root := if String.prefix "///" s then "/"
             else if String.prefix "//" s then "//"
             else if String.prefix "/" s then "/"
             else "";
     parts := filter (fun c => negb (String.eqb c "") && negb (String.eqb c "."))
                     (split_on "/" s) |}.

Definition is_absolute (p : Path) : bool := negb (String.eqb (root p) "").

(** [p / s]: an absolute right operand replaces the left one. *)
Definition join (p : Path) (s : string) : Path :=
  let q := parse s in
  if is_absolute q then q
  else {| root := root p; parts := parts p ++ parts q |}.

(** [p.name]. *)
Definition name (p : Path) : string := last (parts p) "".

Fixpoint strings_eqb (l m : list string) : bool :=
  match l, m with
  | [], [] => true
  | x :: l', y :: m' => String.eqb x y && strings_eqb l' m'
  | _, _ => false
  end.

Definition eqb (p q : Path) : bool :=
  String.eqb (root p) (root q) && strings_eqb (parts p) (parts q).

Fixpoint strings_ltb (l m : list string) : bool :=
  match l, m with
  | _, [] => false
  | [], _ :: _ => true
  | x :: l', y :: m' =>
      match String.compare x y with
      | Lt => true
      | Eq => strings_ltb l' m'
      | Gt => false
      end
  end.

(** [p < q]: the component lists, root first, compared as lists of [str]. *)
Definition ltb (p q : Path) : bool :=
  strings_ltb (root p :: parts p) (root q :: parts q).

End PurePath.

Declare Scope path_scope.
Delimit Scope path_scope with path.
Infix "/" := PurePath.join : path_scope.

(** [sorted]: a stable sort that only asks [<]. *)
Fixpoint insert_sorted (x : Path) (l : list Path) : list Path :=
  match l with
  | [] => [x]
  | y :: l' => if PurePath.ltb y x then y :: insert_sorted x l' else x :: l
  end.

Definition sorted (l : list Path) : list Path := fold_right insert_sorted [] l.

(** ** Regular expressions

    A backtracking matcher in the manner of [re]: every alternative is
    tried in priority order, [*] is greedy, [^] holds at the start of the
    subject and [$] at its end or before a newline that ends it. *)

Module Re.

Inductive regex :=
| Chr (c : ascii)
| Digit                          (* \d *)
| Space                          (* \s *)
| Range (lo hi : ascii)          (* [lo-hi] *)
| Bol                            (* ^ *)
| Eol                            (* $ *)
| Seq (r1 r2 : regex)
| Alt (r1 r2 : regex)
| Star (r : regex)
| Group (n : nat) (r : regex).   (* the n-th pair of parentheses *)

Definition Plus (r : regex) : regex := Seq r (Star r).

Record mstate := { pos : nat; rest : list ascii; caps : list (nat * string) }.

Definition in_range (lo hi c : ascii) : bool :=
  ((nat_of_ascii lo <=? nat_of_ascii c) && (nat_of_ascii c <=? nat_of_ascii hi))%nat.

Definition is_digit (c : ascii) : bool := in_range "0" "9" c.

Definition is_space (c : ascii) : bool :=
  let n := nat_of_ascii c in
  (((9 <=? n) && (n <=? 13)) || ((28 <=? n) && (n <=? 32)) || (n =? 133) || (n =? 160))%nat.

Definition step (ok : ascii -> bool) (st : mstate) : list mstate :=
  match rest st with
  | c :: t => if ok c then [{| pos := S (pos st); rest := t; caps := caps st |}] else []
  | [] => []
  end.

Definition at_end (st : mstate) : bool :=
  match rest st with
  | [] => true
  | [c] => Ascii.eqb c "010"
  | _ => false
  end.

Definition capture (n : nat) (st st' : mstate) : mstate :=
  {| pos := pos st';
     rest := rest st';
     caps := (n, string_of_list_ascii (firstn (pos st' - pos st) (rest st))) :: caps st' |}.

(** A greedy star over [body]: one more round of [body] first, as long
    as the round consumed something, then no more rounds.  [fuel] bounds the
    number of rounds; what is left of the subject is enough. *)
Fixpoint star_loop (body : mstate -> list mstate) (fuel : nat) (st : mstate)
  : list mstate :=
  match fuel with
  | O => [st]
  | S fuel' =>
      flat_map (fun st' =>
                  if (List.length (rest st') <? List.length (rest st))%nat
                  then star_loop body fuel' st' else [])
               (body st)
      ++ [st]
  end.

Fixpoint run (r : regex) (st : mstate) {struct r} : list mstate :=
  match r with
  | Chr c => step (Ascii.eqb c) st
  | Digit => step is_digit st
  | Space => step is_space st
  | Range lo hi => step (in_range lo hi) st
  | Bol => if (pos st =? 0)%nat then [st] else []
  | Eol => if at_end st then [st] else []
  | Seq r1 r2 => flat_map (run r2) (run r1 st)
  | Alt r1 r2 => run r1 st ++ run r2 st
  | Star r' => star_loop (run r') (List.length (rest st)) st
  | Group n r' => map (capture n st) (run r' st)
  end.

Definition start (p : nat) (s : list ascii) : mstate :=
  {| pos := p; rest := s; caps := [] |}.

(** [r.match(s)]. *)
Definition match_ (r : regex) (s : string) : option mstate :=
  hd_error (run r (start 0 (list_ascii_of_string s))).

Fixpoint search_from (r : regex) (p : nat) (s : list ascii) : option mstate :=
  match run r (start p s) with
  | st :: _ => Some st
  | [] => match s with
          | [] => None
          | _ :: t => search_from r (S p) t
          end
  end.

(** [r.search(s)]. *)
Definition search (r : regex) (s : string) : option mstate :=
  search_from r 0 (list_ascii_of_string s).

(** [m.group(n)]. *)
Definition group (n : nat) (m : mstate) : option string :=
  match find (fun c => (fst c =? n)%nat) (caps m) with
  | Some c => Some (snd c)
  | None => None
  end.

End Re.

Import Re.

(** [SEMVER_RE]: start of subject, three numbers separated by dots, [$].
    A number is a lone [0], or a digit from [1] to [9] followed by any
    count of [\d]; each number is a group. *)
Definition SEMVER_RE : regex :=
  let number n := Group n (Alt (Chr "0") (Seq (Range "1" "9") (Star Digit))) in
  Seq Bol (Seq (number 1) (Seq (Chr ".") (Seq (number 2) (Seq (Chr ".") (Seq (number 3) Eol))))).

(** [CHANGELOG_VERSION_RE]: two hashes, any count of [\s], an opening
    bracket, group 1 made of three non-empty runs of [\d] separated by
    dots, a closing bracket. *)
Definition CHANGELOG_VERSION_RE : regex :=
  Seq (Chr "#") (Seq (Chr "#") (Seq (Star Space) (Seq (Chr "[")
    (Seq (Group 1 (Seq (Plus Digit) (Seq (Chr ".") (Seq (Plus Digit) (Seq (Chr ".") (Plus Digit))))))
         (Chr "]"))))).

Definition is_some {A} (o : option A) : bool :=
  match o with Some _ => true | None => false end.

Definition semver_matches (v : string) : bool := is_some (match_ SEMVER_RE v).

(** ** Findings *)

Record Finding := {
  severity : string;                 (* CRITICAL, HIGH, MEDIUM, LOW *)
  plugin : json;
  message : string;
  sources : list (string * json)
}.

(** [Finding(severity, plugin, message, sources=None)]; an omitted or
    empty [sources] becomes the empty dict. *)
Definition new_Finding (severity : string) (plugin : json) (message : string)
    (sources : option (list (string * json))) : Finding :=
  {| severity := severity;
     plugin := plugin;
     message := message;
     sources := match sources with Some d => d | None => [] end |}.

Definition to_dict (f : Finding) : json :=
  JObj [("severity", JStr (severity f));
        ("plugin", plugin f);
        ("message", JStr (message f));
        ("sources", JObj (sources f))].

(** ** The monad of the rule evaluators

    A rule receives the list of findings, appends to it and returns
    nothing, or raises.  What it appended before raising stays in the
    list. *)

Definition M (A : Type) : Type := list Finding -> list Finding * result A.

Definition ret {A} (a : A) : M A := fun fs => (fs, Ok a).

Definition bind {A B} (m : M A) (k : A -> M B) : M B :=
  fun fs =>
    match m fs with
    | (fs', Ok a) => k a fs'
    | (fs', Raise e) => (fs', Raise e)
    end.

Definition lift {A} (r : result A) : M A := fun fs => (fs, r).

(** [findings.append(f)]. *)
Definition append (f : Finding) : M unit := fun fs => (fs ++ [f], Ok tt).

Declare Scope rule_scope.
Delimit Scope rule_scope with rule.
Notation "x <- m ;; k" := (bind m (fun x => k))
  (at level 61, m at next level, right associativity) : rule_scope.
Notation "m ;; k" := (bind m (fun _ => k))
  (at level 61, right associativity) : rule_scope.

Fixpoint for_each {A} (l : list A) (body : A -> M unit) : M unit :=
  match l with
  | [] => ret tt
  | x :: l' => bind (body x) (fun _ => for_each l' body)
  end.

Definition when (b : bool) (m : M unit) : M unit := if b then m else ret tt.

Definition is_none (v : json) : bool :=
  match v with JNull => true | _ => false end.

(** ** The environment of a run

    The file system as the script queries it, the parser of [json], the
    order in which a set hands out its members, and the workspace root.

    The files and directories of a unit have fixed names under a directory
    that was listed, and the tests on them are taken to answer.  A path
    that a manifest declares is any text: [exists()] raises an [OSError]
    for a name that is too long, [resolve()] a [ValueError] for a NUL
    character or a [RuntimeError] for a loop of links.
    [fs_exists_error] and [fs_resolve_error] give the exception that the
    call raises on a path, if any. *)

Record Env := {
  fs_exists : Path -> bool;
  fs_is_dir : Path -> bool;
  fs_resolve : Path -> Path;
  fs_exists_error : Path -> option exn;
  fs_resolve_error : Path -> option exn;
  fs_read_text : Path -> result string;
  json_loads : string -> result json;
  set_order : list json -> list json;
  FABRICA_ROOT : Path
}.

Section Checker.

Variable E : Env.

Local Open Scope path_scope.

Definition SITE_META : Path :=
  FABRICA_ROOT E / "skill7.dev" / "src" / "data" / "plugin-meta.json".
Definition SITE_MARKETPLACE : Path :=
  FABRICA_ROOT E / "skill7.dev" / "src" / "data" / "marketplace.json".
Definition EMPORIUM_MARKETPLACE : Path :=
  FABRICA_ROOT E / "emporium" / ".claude-plugin" / "marketplace.json".

(** *** Loaders *)

Definition load_json (path : Path) : result json :=
  if negb (fs_exists E path) then Ok JNull
  else (text <-- fs_read_text E path ;; json_loads E text)%result.

Definition get_plugin_json (plugin_dir : Path) : result json :=
  load_json (plugin_dir / ".claude-plugin" / "plugin.json").

Definition get_marketplace_json (plugin_dir : Path) : result json :=
  load_json (plugin_dir / ".claude-plugin" / "marketplace.json").

Definition get_changelog_version (plugin_dir : Path) : result (option string) :=
  let p := plugin_dir / "CHANGELOG.md" in
  if negb (fs_exists E p) then Ok None
  else
    (text <-- fs_read_text E p ;;
     match search CHANGELOG_VERSION_RE text with
     | Some m => Ok (group 1 m)
     | None => Ok None
     end)%result.

Local Open Scope rule_scope.

(** *** Per-plugin rules *)

Definition required : list string :=
  ["name"; "version"; "description"; "author"; "license"].

Definition check_plugin_json_schema (plugin_dir : Path) : M unit :=
  let name := JStr (PurePath.name plugin_dir) in
  pj <- lift (get_plugin_json plugin_dir) ;;
  if is_none pj then
    mkt <- lift (get_marketplace_json plugin_dir) ;;
    if negb (is_none mkt) then ret tt
    else append (new_Finding "MEDIUM" name "No plugin.json or marketplace.json found" None)
  else
    for_each required (fun field =>
      present <- lift (Py.contains (JStr field) pj) ;;
      missing <- (if negb present then ret true
                  else v <- lift (Py.getitem pj (JStr field)) ;; ret (is_none v)) ;;
      when missing
        (append (new_Finding "HIGH" name
                   ("plugin.json missing required field: " ++ field) None))) ;;
    version <- lift (Py.get pj "version" JNull) ;;
    match version with
    | JStr v =>
        when (negb (semver_matches v))
          (append (new_Finding "HIGH" name
                     ("plugin.json version is not valid semver: " ++ v) None))
    | _ =>
        when (negb (is_none version))
          (append (new_Finding "HIGH" name
                     ("plugin.json version is not a string: " ++ Py.type_name version)
                     None))
    end ;;
    pj_name <- lift (Py.get pj "name" JNull) ;;
    match pj_name with
    | JStr _ =>
        when (negb (Py.eqb pj_name name))
          (append (new_Finding "HIGH" name "plugin.json name doesn't match directory name"
                     (Some [("plugin.json", pj_name); ("directory", name)])))
    | _ => ret tt
    end.

Definition component_types : list string := ["skills"; "commands"; "agents"; "hooks"].

Definition conventional_dirs : list (string * string) :=
  [("hooks", "hooks"); ("skills", "skills"); ("commands", "commands"); ("agents", "agents")].

(** [p.exists()] and [p.resolve()] for a path that comes from a
    manifest. *)
Definition path_exists (p : Path) : result bool :=
  match fs_exists_error E p with
  | Some e => Raise e
  | None => Ok (fs_exists E p)
  end.

Definition path_resolve (p : Path) : result Path :=
  match fs_resolve_error E p with
  | Some e => Raise e
  | None => Ok (fs_resolve E p)
  end.

(** [any((plugin_dir / p).resolve() == dir_path.resolve() for p in declared)],
    which stops at the first path that matches; joining a path with
    anything but a [str] is a [TypeError], and the declared path is
    resolved before the directory. *)
Fixpoint any_resolves_to (plugin_dir dir_path : Path) (declared : list json) : result bool :=
  match declared with
  | [] => Ok false
  | p :: more =>
      match p with
      | JStr s =>
          (resolved <-- path_resolve (plugin_dir / s) ;;
           if PurePath.eqb resolved (fs_resolve E dir_path) then Ok true
           else any_resolves_to plugin_dir dir_path more)%result
      | _ => Raise TypeError
      end
  end.

Definition check_marketplace_components (plugin_dir : Path) : M unit :=
  let name := JStr (PurePath.name plugin_dir) in
  mkt <- lift (get_marketplace_json plugin_dir) ;;
  if is_none mkt then ret tt
  else
    plugins <- lift (Py.get mkt "plugins" (JArr [])) ;;
    entries <- lift (Py.iter plugins) ;;
    for_each entries (fun plugin_entry =>
      for_each component_types (fun component_type =>
        declared <- lift (Py.get plugin_entry component_type (JArr [])) ;;
        paths <- lift (Py.iter declared) ;;
        for_each paths (fun path_str =>
          match path_str with
          | JStr s =>
              let component_path := plugin_dir / s in
              found <- lift (path_exists component_path) ;;
              when (negb found)
                (append (new_Finding "HIGH" name
                           ("marketplace.json declares " ++ component_type ++ ": "
                            ++ Py.repr_str s ++ " but path does not exist") None))
          | _ => lift (Raise TypeError)
          end)) ;;
      for_each component_types (fun component_type =>
        declared <- lift (Py.get plugin_entry component_type (JArr [])) ;;
        paths <- lift (Py.iter declared) ;;
        for_each paths (fun path_str =>
          match path_str with
          | JStr s =>
              when (PurePath.is_absolute (PurePath.parse s))
                (append (new_Finding "HIGH" name
                           ("marketplace.json " ++ component_type ++ " has absolute path: "
                            ++ Py.repr_str s) None))
          | _ => lift (Raise TypeError)
          end)) ;;
      for_each conventional_dirs (fun '(component_type, dir_name) =>
        let dir_path := plugin_dir / dir_name in
        when (fs_exists E dir_path && fs_is_dir E dir_path)
          (declared <- lift (Py.get plugin_entry component_type (JArr [])) ;;
           paths <- lift (Py.iter declared) ;;
           matching <- lift (any_resolves_to plugin_dir dir_path paths) ;;
           when (negb matching)
             (append (new_Finding "MEDIUM" name
                        (dir_name ++ "/ directory exists but not declared in marketplace.json "
                         ++ component_type) None))))).

(** The local dict [sources] of the function is written and never read;
    it is left out. *)
Definition check_version_consistency (plugin_dir : Path) (site_meta_cache : json) : M unit :=
  let name := PurePath.name plugin_dir in
  pj <- lift (get_plugin_json plugin_dir) ;;
  if is_none pj then ret tt
  else
    canonical_version <- lift (Py.get pj "version" JNull) ;;
    if negb (Py.is_str canonical_version) || negb (Py.truthy canonical_version) then ret tt
    else
      changelog_version <- lift (get_changelog_version plugin_dir) ;;
      match changelog_version with
      | Some v =>
          when (Py.truthy (JStr v) && negb (Py.eqb (JStr v) canonical_version))
            (append (new_Finding "HIGH" (JStr name)
                       "Version mismatch: plugin.json vs CHANGELOG.md"
                       (Some [("plugin.json", canonical_version);
                              ("CHANGELOG.md", JStr v)])))
      | None => ret tt
      end ;;
      site_meta <- (if negb (is_none site_meta_cache) then ret site_meta_cache
                    else lift (load_json SITE_META)) ;;
      when (Py.truthy site_meta)
        (plugins <- lift (Py.get site_meta "plugins" (JObj [])) ;;
         plugin_meta <- lift (Py.get plugins name JNull) ;;
         when (Py.truthy plugin_meta)
           (site_version <- lift (Py.get plugin_meta "version" (JStr "")) ;;
            when (Py.truthy site_version && negb (Py.eqb site_version canonical_version))
              (append (new_Finding "CRITICAL" (JStr name)
                         "Version mismatch: plugin.json vs skill7.dev plugin-meta.json"
                         (Some [("plugin.json", canonical_version);
                                ("plugin-meta.json", site_version)]))))).

(** *** Dicts and sets keyed by values

    [site_descs], [emporium_descs] and the two sets of names are keyed by
    whatever the listings carry under ["name"]: a key has to be hashable,
    and two keys are the same when they are [==]. *)

Fixpoint vdict_lookup (k : json) (d : list (json * json)) : option json :=
  match d with
  | [] => None
  | (k', v) :: more => if Py.eqb k' k then Some v else vdict_lookup k more
  end.

Fixpoint vdict_set (k v : json) (d : list (json * json)) : list (json * json) :=
  match d with
  | [] => [(k, v)]
  | (k', v') :: more =>
      if Py.eqb k' k then (k', v) :: more else (k', v') :: vdict_set k v more
  end.

Definition vdict_setitem (k v : json) (d : list (json * json)) : result (list (json * json)) :=
  if Py.hashable k then Ok (vdict_set k v d) else Raise TypeError.

Definition vdict_getitem (d : list (json * json)) (k : json) : result json :=
  match vdict_lookup k d with
  | Some v => Ok v
  | None => Raise (KeyError k)
  end.

Definition set_mem (x : json) (s : list json) : bool := existsb (fun y => Py.eqb y x) s.

Definition set_add (x : json) (s : list json) : result (list json) :=
  if Py.hashable x then Ok (if set_mem x s then s else s ++ [x]) else Raise TypeError.

Definition set_difference (a b : list json) : list json :=
  filter (fun x => negb (set_mem x b)) a.

(** *** Cross-source rules *)

(** [for p in entries: descs[p["name"]] = p["description"]]; the right-hand
    side of the assignment is evaluated first. *)
Fixpoint collect_descs (entries : list json) (descs : list (json * json))
  : result (list (json * json)) :=
  match entries with
  | [] => Ok descs
  | p :: more =>
      (description <-- Py.getitem p (JStr "description") ;;
       name <-- Py.getitem p (JStr "name") ;;
       descs' <-- vdict_setitem name description descs ;;
       collect_descs more descs')%result
  end.

Definition check_description_consistency : M unit :=
  site_marketplace <- lift (load_json SITE_MARKETPLACE) ;;
  emporium_mkt <- lift (load_json EMPORIUM_MARKETPLACE) ;;
  if negb (Py.truthy site_marketplace) || negb (Py.truthy emporium_mkt) then ret tt
  else
    site_plugins <- lift (Py.get site_marketplace "plugins" (JArr [])) ;;
    site_entries <- lift (Py.iter site_plugins) ;;
    site_descs <- lift (collect_descs site_entries []) ;;
    emporium_plugins <- lift (Py.get emporium_mkt "plugins" (JArr [])) ;;
    emporium_entries <- lift (Py.iter emporium_plugins) ;;
    emporium_descs <- lift (collect_descs emporium_entries []) ;;
    for_each (map fst site_descs) (fun name =>
      if is_some (vdict_lookup name emporium_descs) then
        site_desc <- lift (vdict_getitem site_descs name) ;;
        emporium_desc <- lift (vdict_getitem emporium_descs name) ;;
        when (negb (Py.eqb site_desc emporium_desc))
          (site_desc' <- lift (vdict_getitem site_descs name) ;;
           site_preview <- lift (Py.preview site_desc') ;;
           emporium_desc' <- lift (vdict_getitem emporium_descs name) ;;
           emporium_preview <- lift (Py.preview emporium_desc') ;;
           append (new_Finding "MEDIUM" name
                     "Description mismatch: skill7.dev marketplace.json vs emporium marketplace.json"
                     (Some [("site", site_preview); ("emporium", emporium_preview)])))
      else ret tt).

(** [{p["name"] for p in entries}]. *)
Fixpoint collect_names (entries : list json) (names : list json) : result (list json) :=
  match entries with
  | [] => Ok names
  | p :: more =>
      (name <-- Py.getitem p (JStr "name") ;;
       names' <-- set_add name names ;;
       collect_names more names')%result
  end.

Definition check_emporium_vs_site : M unit :=
  site_marketplace <- lift (load_json SITE_MARKETPLACE) ;;
  emporium_mkt <- lift (load_json EMPORIUM_MARKETPLACE) ;;
  if negb (Py.truthy site_marketplace) || negb (Py.truthy emporium_mkt) then ret tt
  else
    site_plugins <- lift (Py.get site_marketplace "plugins" (JArr [])) ;;
    site_entries <- lift (Py.iter site_plugins) ;;
    site_names <- lift (collect_names site_entries []) ;;
    emporium_plugins <- lift (Py.get emporium_mkt "plugins" (JArr [])) ;;
    emporium_entries <- lift (Py.iter emporium_plugins) ;;
    emporium_names <- lift (collect_names emporium_entries []) ;;
    for_each (set_order E (set_difference emporium_names site_names)) (fun name =>
      append (new_Finding "HIGH" name "Plugin in emporium but missing from skill7.dev" None)) ;;
    for_each (set_order E (set_difference site_names emporium_names)) (fun name =>
      append (new_Finding "HIGH" name "Plugin on skill7.dev but missing from emporium" None)).

Definition check_site_meta_completeness : M unit :=
  site_marketplace <- lift (load_json SITE_MARKETPLACE) ;;
  site_meta <- lift (load_json SITE_META) ;;
  if negb (Py.truthy site_marketplace) || negb (Py.truthy site_meta) then ret tt
  else
    meta_plugins <- lift (Py.get site_meta "plugins" (JObj [])) ;;
    site_plugins <- lift (Py.get site_marketplace "plugins" (JArr [])) ;;
    site_entries <- lift (Py.iter site_plugins) ;;
    for_each site_entries (fun p =>
      name <- lift (Py.getitem p (JStr "name")) ;;
      listed <- lift (Py.contains name meta_plugins) ;;
      if negb listed then
        append (new_Finding "HIGH" name
                  "Plugin in marketplace.json but missing from plugin-meta.json" None)
      else
        entry <- lift (Py.getitem meta_plugins name) ;;
        version <- lift (Py.get entry "version" JNull) ;;
        when (negb (Py.truthy version))
          (append (new_Finding "MEDIUM" name "No version in plugin-meta.json" None)) ;;
        tags <- lift (Py.get entry "tags" JNull) ;;
        when (negb (Py.truthy tags))
          (append (new_Finding "LOW" name "No tags in plugin-meta.json" None))).

(** *** The entry point *)

(** What [main] prints, one item per [print] (the three prints of a
    banner taken together).  The items are what the script hands to
    [print]; the write to the standard output is not part of the model: a
    stream that is closed, or that cannot encode a character of a finding
    (the plain report writes the text as it is, the [--json] report is
    ASCII), makes [print] raise. *)
Inductive line :=
| PrintJson (records : list json)
| PrintAllPassed
| PrintBanner (sev : string) (count : nat)
| PrintFinding (f : Finding)
| PrintSummary (total crit high medium low : nat).

Definition severities : list string := ["CRITICAL"; "HIGH"; "MEDIUM"; "LOW"].

(** [by_severity[sev]]. *)
Definition bucket (by_severity : list (string * list Finding)) (sev : string)
  : result (list Finding) :=
  match Py.dict_lookup sev by_severity with
  | Some fs => Ok fs
  | None => Raise (KeyError (JStr sev))
  end.

(** [for f in findings: by_severity[f.severity].append(f)]. *)
Fixpoint group_by_severity (findings : list Finding)
    (by_severity : list (string * list Finding))
  : result (list (string * list Finding)) :=
  match findings with
  | [] => Ok by_severity
  | f :: more =>
      (fs <-- bucket by_severity (severity f) ;;
       group_by_severity more (Py.dict_set (severity f) (fs ++ [f]) by_severity))%result
  end.

Fixpoint print_groups (sevs : list string) (by_severity : list (string * list Finding))
  : result (list line) :=
  match sevs with
  | [] => Ok []
  | sev :: more =>
      (fs <-- bucket by_severity sev ;;
       rest <-- print_groups more by_severity ;;
       Ok (match fs with
           | [] => rest
           | _ => PrintBanner sev (List.length fs) :: map PrintFinding fs ++ rest
           end))%result
  end.

Definition is_blocking (f : Finding) : bool :=
  String.eqb (severity f) "CRITICAL" || String.eqb (severity f) "HIGH".

(** The per-plugin checks of [main], after the site index is preloaded. *)
Definition per_plugin_checks (PLUGIN_DIRS : list Path) : M unit :=
  site_meta_cache <- lift (load_json SITE_META) ;;
  for_each (sorted PLUGIN_DIRS) (fun plugin_dir =>
    check_plugin_json_schema plugin_dir ;;
    check_marketplace_components plugin_dir ;;
    check_version_consistency plugin_dir site_meta_cache).

(** All the checks of [main], in its order: they fill [findings]. *)
Definition run_checks (PLUGIN_DIRS : list Path) : M unit :=
  per_plugin_checks PLUGIN_DIRS ;;
  check_description_consistency ;;
  check_emporium_vs_site ;;
  check_site_meta_completeness.

(** The rest of [main]: what is printed and the exit status. *)
Definition report (json_mode : bool) (findings : list Finding) : result (list line * Z) :=
  let status := if existsb is_blocking findings then 1%Z else 0%Z in
  if json_mode then Ok ([PrintJson (map to_dict findings)], status)
  else
    match findings with
    | [] => Ok ([PrintAllPassed], 0%Z)
    | _ =>
        (by_severity <-- group_by_severity findings
                           [("CRITICAL", []); ("HIGH", []); ("MEDIUM", []); ("LOW", [])] ;;
         groups <-- print_groups severities by_severity ;;
         crit <-- bucket by_severity "CRITICAL" ;;
         high <-- bucket by_severity "HIGH" ;;
         medium <-- bucket by_severity "MEDIUM" ;;
         low <-- bucket by_severity "LOW" ;;
         Ok (groups ++ [PrintSummary (List.length findings) (List.length crit)
                          (List.length high) (List.length medium) (List.length low)],
             status))%result
    end.

Definition main (json_mode : bool) (PLUGIN_DIRS : list Path) : result (list line * Z) :=
  match run_checks PLUGIN_DIRS [] with
  | (findings, Ok _) => report json_mode findings
  | (_, Raise e) => Raise e
  end.

End Checker.

(** ** The rest of the script *)

(** *** Text forms of values

    [repr] and [str] of a value; the digits of a float are those of the
    interpreter and are taken as given. *)

Section TextForms.

Variable float_repr : pyfloat -> string.

Fixpoint py_repr (v : json) : string :=
  match v with
  | JNull => "None"
  | JBool b => if b then "True" else "False"
  | JInt z => NilZero.string_of_int (Z.to_int z)
  | JFloat f => float_repr f
  | JStr s => Py.repr_str s
  | JArr l => ("[" ++ String.concat ", " (map py_repr l) ++ "]")%string
  | JObj d =>
      ("{" ++ String.concat ", "
                (map (fun kv => let '(k, w) := kv in Py.repr_str k ++ ": " ++ py_repr w) d)
           ++ "}")%string
  end.

(** [str(v)], which is what an f-string writes for [{v}]. *)
Definition py_str (v : json) : string :=
  match v with
  | JStr s => s
  | _ => py_repr v
  end.

(** [Finding.__str__]. *)
Definition __str__ (f : Finding) : string :=
  let src :=
    match sources f with
    | [] => ""
    | _ =>
        let pairs := map (fun kv => (fst kv ++ "=" ++ py_str (snd kv))%string) (sources f) in
        (" (" ++ String.concat ", " pairs ++ ")")%string
    end in
  ("[" ++ severity f ++ "] " ++ py_str (plugin f) ++ ": " ++ message f ++ src)%string.

End TextForms.

(** *** Discovery

    [iterdir] gives the children of a directory, in the order of the
    operating system, or fails. *)

Definition reserved_names : list string :=
  ["skill7.dev"; ".git"; ".claude"; "scripts"; "docs"].

Definition _discover_plugins (E : Env) (iterdir : Path -> result (list Path))
  : result (list Path) :=
  if negb (fs_exists E (FABRICA_ROOT E)) then Ok []
  else
    (children <-- iterdir (FABRICA_ROOT E) ;;
     Ok (filter (fun d =>
                   fs_is_dir E d
                   && fs_is_dir E (PurePath.join d ".claude-plugin")
                   && negb (existsb (String.eqb (PurePath.name d)) reserved_names))
                children))%result.

(** The module as it is run: [PLUGIN_DIRS] is computed when the module
    is loaded, then [main] gives the exit status. *)
Definition script (E : Env) (iterdir : Path -> result (list Path)) (json_mode : bool)
  : result (list line * Z) :=
  (PLUGIN_DIRS <-- _discover_plugins E iterdir ;; main E json_mode PLUGIN_DIRS)%result.

(** ** A small file system to run the checker on

    Files with their text, directories, and the values the texts parse
    to; paths resolve to themselves and a set hands out its members in
    insertion order. *)

Module Example.

Record disk := {
  json_files : list (Path * json);
  text_files : list (Path * string);
  directories : list Path
}.

Fixpoint path_lookup {V} (p : Path) (l : list (Path * V)) : option V :=
  match l with
  | [] => None
  | (q, v) :: more => if PurePath.eqb p q then Some v else path_lookup p more
  end.

Definition quoted (s : string) : string := String "034" (s ++ String "034" "").

(** The JSON text of a value (the examples hold no number but [0]). *)
Fixpoint dumps (v : json) : string :=
  match v with
  | JNull => "null"
  | JBool b => if b then "true" else "false"
  | JInt _ | JFloat _ => "0"
  | JStr s => quoted s
  | JArr l => ("[" ++ String.concat ", " (map dumps l) ++ "]")%string
  | JObj d =>
      ("{" ++ String.concat ", "
                (map (fun kv => let '(k, w) := kv in quoted k ++ ": " ++ dumps w) d)
           ++ "}")%string
  end.

Definition root : Path := PurePath.parse "/fabrica".

Definition env_of (d : disk) : Env :=
  {| fs_exists := fun p => is_some (path_lookup p (json_files d))
                           || is_some (path_lookup p (text_files d))
                           || existsb (PurePath.eqb p) (directories d);
     fs_is_dir := fun p => existsb (PurePath.eqb p) (directories d);
     fs_resolve := fun p => p;
     fs_exists_error := fun _ => None;
     fs_resolve_error := fun _ => None;
     fs_read_text := fun p =>
       match path_lookup p (json_files d), path_lookup p (text_files d) with
       | Some v, _ => Ok (dumps v)
       | None, Some text => Ok text
       | None, None => Raise OSError
       end;
     json_loads := fun text =>
       match find (fun pv => String.eqb (dumps (snd pv)) text) (json_files d) with
       | Some pv => Ok (snd pv)
       | None => Raise JSONDecodeError
       end;
     set_order := fun names => names;
     FABRICA_ROOT := root |}.

Definition plugin_dir (name : string) : Path := PurePath.join root name.

Definition file (dir : Path) (rel : string) : Path := PurePath.join dir rel.

(** The three shared files sit at the same place whatever the disk holds. *)
Definition no_disk : disk := {| json_files := []; text_files := []; directories := [] |}.

(** A plugin whose manifest says 2.0.0, whose changelog starts at 1.9.0
    and which the site index lists at 2.0.0. *)
Definition herald : Path := plugin_dir "herald".

Definition herald_manifest : list (string * json) :=
  [("name", JStr "herald"); ("version", JStr "2.0.0");
   ("description", JStr "Daily digest"); ("author", JStr "heurema");
   ("license", JStr "MIT")].

Definition herald_site_index : json :=
  JObj [("plugins", JObj [("herald", JObj [("version", JStr "2.0.0");
                                            ("tags", JArr [JStr "news"])])])].

Definition herald_disk : disk :=
  {| json_files := [(file herald ".claude-plugin/plugin.json", JObj herald_manifest);
                    (SITE_META (env_of no_disk), herald_site_index)];
     text_files := [(file herald "CHANGELOG.md",
                     ("# Changelog" ++ String "010" ("## [1.9.0] - 2026-02-25"
                        ++ String "010" "- stuff"))%string)];
     directories := [herald; file herald ".claude-plugin"] |}.

(** Three units for the manifest schema rule: a manifest without author,
    with a null license and another name; a unit with a listing only; a
    unit with neither file. *)
Definition sigil : Path := plugin_dir "sigil".

Definition sigil_manifest : list (string * json) :=
  [("name", JStr "sigil-plugin"); ("version", JStr "1.0.0");
   ("description", JStr "Signing"); ("license", JNull)].

Definition listing_only : Path := plugin_dir "emporium".

Definition bare : Path := plugin_dir "bare".

Definition schema_disk : disk :=
  {| json_files := [(file sigil ".claude-plugin/plugin.json", JObj sigil_manifest);
                    (file listing_only ".claude-plugin/marketplace.json",
                     JObj [("plugins", JArr [])])];
     text_files := [];
     directories := [sigil; listing_only; bare] |}.

(** A unit whose listing declares the skill [skills/foo.md], which is not
    on disk, while the directory [skills] is. *)
Definition forge : Path := plugin_dir "forge".

Definition forge_listing : json :=
  JObj [("plugins", JArr [JObj [("skills", JArr [JStr "skills/foo.md"])]])].

Definition forge_disk : disk :=
  {| json_files := [(file forge ".claude-plugin/marketplace.json", forge_listing)];
     text_files := [];
     directories := [forge; file forge ".claude-plugin"; file forge "skills"] |}.

(** Two listings and a site index: the emporium lists [x] and [shared],
    the site lists [shared] and [y]; the index knows [shared] with a
    version and an empty list of tags, and does not know [y]. *)
Definition listing (names : list string) : json :=
  JObj [("plugins",
         JArr (map (fun n => JObj [("name", JStr n); ("description", JStr "A plugin")])
                   names))].

Definition emporium_listing : json := listing ["x"; "shared"].

Definition site_listing : json := listing ["shared"; "y"].

Definition shared_entry : list (string * json) :=
  [("version", JStr "1.0.0"); ("tags", JArr [])].

Definition site_index : json := JObj [("plugins", JObj [("shared", JObj shared_entry)])].

Definition market_disk : disk :=
  {| json_files := [(EMPORIUM_MARKETPLACE (env_of no_disk), emporium_listing);
                    (SITE_MARKETPLACE (env_of no_disk), site_listing);
                    (SITE_META (env_of no_disk), site_index)];
     text_files := [];
     directories := [] |}.

(** A site listing whose second entry has no description. *)
Definition incomplete_entry : list (string * json) := [("name", JStr "sigil")].

Definition incomplete_listing : json :=
  JObj [("plugins",
         JArr ([JObj [("name", JStr "herald"); ("description", JStr "Daily digest")]]
               ++ JObj incomplete_entry :: []))].

Definition incomplete_disk : disk :=
  {| json_files := [(EMPORIUM_MARKETPLACE (env_of no_disk), emporium_listing);
                    (SITE_MARKETPLACE (env_of no_disk), incomplete_listing)];
     text_files := [];
     directories := [] |}.

(** The unit [herald] beside a site index that holds the text of the
    empty object and a site listing that holds the text [null]; and the same
    disk without these two files. *)
Definition herald_changelog : string :=
  ("# Changelog" ++ String "010" ("## [1.9.0] - 2026-02-25"
     ++ String "010" "- stuff"))%string.

Definition falsy_disk : disk :=
  {| json_files := [(file herald ".claude-plugin/plugin.json", JObj herald_manifest);
                    (SITE_META (env_of no_disk), JObj []);
                    (SITE_MARKETPLACE (env_of no_disk), JNull);
                    (EMPORIUM_MARKETPLACE (env_of no_disk), emporium_listing)];
     text_files := [(file herald "CHANGELOG.md", herald_changelog)];
     directories := [herald; file herald ".claude-plugin"] |}.

Definition absent_disk : disk :=
  {| json_files := [(file herald ".claude-plugin/plugin.json", JObj herald_manifest);
                    (EMPORIUM_MARKETPLACE (env_of no_disk), emporium_listing)];
     text_files := [(file herald "CHANGELOG.md", herald_changelog)];
     directories := [herald; file herald ".claude-plugin"] |}.

(** A manifest whose version is a semantic version followed by a
    newline. *)
Definition quill : Path := plugin_dir "quill".

Definition quill_manifest : list (string * json) :=
  [("name", JStr "quill"); ("version", JStr ("1.0.0" ++ String "010" ""));
   ("description", JStr "Notes"); ("author", JStr "heurema"); ("license", JStr "MIT")].

Definition quill_disk : disk :=
  {| json_files := [(file quill ".claude-plugin/plugin.json", JObj quill_manifest)];
     text_files := [];
     directories := [quill; file quill ".claude-plugin"] |}.

(** The unit [herald] again, its manifest now holding the text of the
    empty object. *)
Definition hollow_disk : disk :=
  {| json_files := [(file herald ".claude-plugin/plugin.json", JObj [])];
     text_files := [(file herald "CHANGELOG.md", herald_changelog)];
     directories := [herald; file herald ".claude-plugin"] |}.

(** The finding of the test of the text form. *)
Definition sample_finding : Finding :=
  new_Finding "CRITICAL" (JStr "herald") "Version mismatch"
    (Some [("a", JStr "1"); ("b", JStr "2")]).

Definition plain_floats (f : pyfloat) : string := "0.0".

(** A manifest that is an array and a listing that is text. *)
Definition array_disk : disk :=
  {| json_files := [(file sigil ".claude-plugin/plugin.json", JArr [JStr "name"]);
                    (file sigil ".claude-plugin/marketplace.json", JStr "plugins")];
     text_files := [];
     directories := [sigil] |}.

(** Two listings whose descriptions differ for [shared]; the site lists
    [shared] twice. *)
Definition described (entries : list (string * string)) : json :=
  JObj [("plugins",
         JArr (map (fun nd => JObj [("name", JStr (fst nd)); ("description", JStr (snd nd))])
                   entries))].

Definition site_described : json :=
  described [("shared", "An old text"); ("y", "Only here"); ("shared", "A new text")].

Definition emporium_described : json := described [("shared", "The text")].

Definition described_disk : disk :=
  {| json_files := [(EMPORIUM_MARKETPLACE (env_of no_disk), emporium_described);
                    (SITE_MARKETPLACE (env_of no_disk), site_described)];
     text_files := [];
     directories := [] |}.

(** A workspace with a plugin, the site, and a directory without the
    marker. *)
Definition workspace_disk : disk :=
  {| json_files := [(file forge ".claude-plugin/marketplace.json", forge_listing)];
     text_files := [];
     directories := [root; forge; file forge ".claude-plugin";
                     plugin_dir "skill7.dev"; file (plugin_dir "skill7.dev") ".claude-plugin";
                     plugin_dir "notes"] |}.

Definition workspace_children : list Path :=
  [plugin_dir "skill7.dev"; plugin_dir "notes"; forge].

Definition workspace_iterdir (p : Path) : result (list Path) :=
  if PurePath.eqb p root then Ok workspace_children else Raise OSError.


(** A unit whose listing declares a skill that is absent, a skill at an
    absolute path that exists, and its hooks; the directories [skills] and
    [hooks] exist. *)
Definition kiln : Path := plugin_dir "kiln".

Definition kiln_listing : json :=
  JObj [("plugins",
         JArr [JObj [("skills", JArr [JStr "skills/foo.md"; JStr "/opt/skills"]);
                     ("hooks", JArr [JStr "./hooks/"])]])].

Definition kiln_disk : disk :=
  {| json_files := [(file kiln ".claude-plugin/marketplace.json", kiln_listing)];
     text_files := [];
     directories := [kiln; file kiln ".claude-plugin"; file kiln "skills";
                     file kiln "hooks"; PurePath.parse "/opt/skills"] |}.

(** A unit whose listing has no entry, with a [skills] directory. *)
Definition slate : Path := plugin_dir "slate".

Definition empty_listing : json := JObj [("plugins", JArr [])].

Definition slate_disk : disk :=
  {| json_files := [(file slate ".claude-plugin/marketplace.json", empty_listing)];
     text_files := [];
     directories := [slate; file slate ".claude-plugin"; file slate "skills"] |}.

(** The environment of a disk on which the tests of some paths fail. *)
Definition with_errors (E : Env) (exists_error resolve_error : Path -> option exn) : Env :=
  {| fs_exists := fs_exists E;
     fs_is_dir := fs_is_dir E;
     fs_resolve := fs_resolve E;
     fs_exists_error := exists_error;
     fs_resolve_error := resolve_error;
     fs_read_text := fs_read_text E;
     json_loads := json_loads E;
     set_order := set_order E;
     FABRICA_ROOT := FABRICA_ROOT E |}.

(** A changelog without a heading, which ends in a hash. *)
Definition plain_changelog_disk : disk :=
  {| json_files := [];
     text_files := [(file herald "CHANGELOG.md", "Changelog #")];
     directories := [herald] |}.

(** A site listing whose description of [shared] is [null]. *)
Definition null_described : json :=
  JObj [("plugins", JArr [JObj [("name", JStr "shared"); ("description", JNull)]])].

Definition untyped_disk : disk :=
  {| json_files := [(EMPORIUM_MARKETPLACE (env_of no_disk), emporium_described);
                    (SITE_MARKETPLACE (env_of no_disk), null_described)];
     text_files := [];
     directories := [] |}.

Definition both_null_disk : disk :=
  {| json_files := [(EMPORIUM_MARKETPLACE (env_of no_disk), null_described);
                    (SITE_MARKETPLACE (env_of no_disk), null_described)];
     text_files := [];
     directories := [] |}.

End Example.

(** ** Vocabulary of the statements *)

(** [m] appends [new] to whatever list it is given and returns [a]. *)
Definition emits {A} (m : M A) (new : list Finding) (a : A) : Prop :=
  forall fs, m fs = (fs ++ new, Ok a).

(** [m] appends [new] and then raises [e]. *)
Definition raises {A} (m : M A) (new : list Finding) (e : exn) : Prop :=
  forall fs, m fs = (fs ++ new, Raise e).

Definition known_severity (f : Finding) : Prop := In (severity f) severities.

(** Whatever happens, [m] only appends, and only findings of a known
    severity. *)
Definition appends_known {A} (m : M A) : Prop :=
  forall fs, exists new, fst (m fs) = fs ++ new /\ Forall known_severity new.

Definition has_severity (sev : string) (f : Finding) : bool :=
  String.eqb (severity f) sev.

Definition buckets (c h m l : list Finding) : list (string * list Finding) :=
  [("CRITICAL", c); ("HIGH", h); ("MEDIUM", m); ("LOW", l)].

(** *** Version consistency *)

Definition changelog_mismatch (name canonical changelog : string) : Finding :=
  new_Finding "HIGH" (JStr name) "Version mismatch: plugin.json vs CHANGELOG.md"
    (Some [("plugin.json", JStr canonical); ("CHANGELOG.md", JStr changelog)]).

Definition site_mismatch (name canonical site : string) : Finding :=
  new_Finding "CRITICAL" (JStr name)
    "Version mismatch: plugin.json vs skill7.dev plugin-meta.json"
    (Some [("plugin.json", JStr canonical); ("plugin-meta.json", JStr site)]).

(** The entry of a unit in the site metadata index, when the index has
    one. *)
Definition site_entry (site_meta : json) (name : string) : option json :=
  match site_meta with
  | JObj d =>
      match Py.dict_lookup "plugins" d with
      | Some (JObj entries) => Py.dict_lookup name entries
      | _ => None
      end
  | _ => None
  end.

(** The version field of that entry, when it is there. *)
Definition site_version (site_meta : json) (name : string) : option json :=
  match site_entry site_meta name with
  | Some (JObj e) => Py.dict_lookup "version" e
  | _ => None
  end.

(** The site metadata index is of no use (falsy), or it is an object
    whose [plugins], if any, is an object in which the entry of the unit,
    if any, is an object whose version, if any, is text. *)
Definition site_index_shaped (site_meta : json) (name : string) : bool :=
  negb (Py.truthy site_meta) ||
  match site_meta with
  | JObj d =>
      match Py.dict_lookup "plugins" d with
      | None => true
      | Some (JObj entries) =>
          match Py.dict_lookup name entries with
          | None => true
          | Some (JObj e) =>
              match Py.dict_lookup "version" e with
              | None | Some (JStr _) => true
              | _ => false
              end
          | _ => false
          end
      | _ => false
      end
  | _ => false
  end.

(** The site index a call of the version rule looks at: the preloaded
    one, or the file when nothing was preloaded. *)
Definition site_meta_seen (E : Env) (site_meta_cache : json) : result json :=
  if is_none site_meta_cache then load_json E (SITE_META E) else Ok site_meta_cache.

(** What the version rule is to find for a unit of canonical version
    [canonical]. *)
Definition version_findings (name canonical : string) (changelog : option string)
    (site_meta : json) : list Finding :=
  match changelog with
  | Some v => if String.eqb v canonical then [] else [changelog_mismatch name canonical v]
  | None => []
  end ++
  match site_version site_meta name with
  | Some (JStr sv) =>
      if String.eqb sv "" || String.eqb sv canonical then []
      else [site_mismatch name canonical sv]
  | _ => []
  end.

(** *** Manifest schema *)

Definition missing_field (name field : string) : Finding :=
  new_Finding "HIGH" (JStr name) ("plugin.json missing required field: " ++ field) None.

Definition absent_or_null (field : string) (items : list (string * json)) : bool :=
  match Py.dict_lookup field items with
  | None | Some JNull => true
  | Some _ => false
  end.

Definition missing_field_findings (name : string) (items : list (string * json))
  : list Finding :=
  flat_map (fun field => if absent_or_null field items then [missing_field name field]
                         else [])
           required.

(** What the rule says about the shape of the version. *)
Definition version_shape_findings (name : string) (items : list (string * json))
  : list Finding :=
  match Py.dict_lookup "version" items with
  | None | Some JNull => []
  | Some (JStr v) =>
      if semver_matches v then []
      else [new_Finding "HIGH" (JStr name)
              ("plugin.json version is not valid semver: " ++ v) None]
  | Some other =>
      [new_Finding "HIGH" (JStr name)
         ("plugin.json version is not a string: " ++ Py.type_name other) None]
  end.

Definition name_mismatch (name manifest_name : string) : Finding :=
  new_Finding "HIGH" (JStr name) "plugin.json name doesn't match directory name"
    (Some [("plugin.json", JStr manifest_name); ("directory", JStr name)]).

Definition name_findings (name : string) (items : list (string * json)) : list Finding :=
  match Py.dict_lookup "name" items with
  | Some (JStr n) => if String.eqb n name then [] else [name_mismatch name n]
  | _ => []
  end.

Definition no_manifest (name : string) : Finding :=
  new_Finding "MEDIUM" (JStr name) "No plugin.json or marketplace.json found" None.

Definition plugin_json_path (plugin_dir : Path) : Path :=
  PurePath.join (PurePath.join plugin_dir ".claude-plugin") "plugin.json".

Definition marketplace_json_path (plugin_dir : Path) : Path :=
  PurePath.join (PurePath.join plugin_dir ".claude-plugin") "marketplace.json".

(** *** Component declarations *)

(** The paths an entry of the listing declares under a category. *)
Definition declared (entry : json) (component_type : string) : list string :=
  match entry with
  | JObj e =>
      match Py.dict_lookup component_type e with
      | Some (JArr ps) => flat_map (fun p => match p with JStr s => [s] | _ => [] end) ps
      | _ => []
      end
  | _ => []
  end.

(** An entry is an object whose categories, where present, are arrays of
    text. *)
Definition entry_shaped (entry : json) : bool :=
  match entry with
  | JObj e =>
      forallb (fun component_type =>
                 match Py.dict_lookup component_type e with
                 | None => true
                 | Some (JArr ps) => forallb Py.is_str ps
                 | Some _ => false
                 end)
              component_types
  | _ => false
  end.

Definition listing_entries (mkt : json) : list json :=
  match mkt with
  | JObj d =>
      match Py.dict_lookup "plugins" d with
      | Some (JArr entries) => entries
      | _ => []
      end
  | _ => []
  end.

(** A component-declaration manifest: an object whose [plugins], if any,
    is an array of such entries. *)
Definition listing_shaped (mkt : json) : bool :=
  match mkt with
  | JObj d =>
      match Py.dict_lookup "plugins" d with
      | None => true
      | Some (JArr entries) => forallb entry_shaped entries
      | Some _ => false
      end
  | _ => false
  end.

Definition path_missing (name component_type path : string) : Finding :=
  new_Finding "HIGH" (JStr name)
    ("marketplace.json declares " ++ component_type ++ ": " ++ Py.repr_str path
     ++ " but path does not exist") None.

Definition path_absolute (name component_type path : string) : Finding :=
  new_Finding "HIGH" (JStr name)
    ("marketplace.json " ++ component_type ++ " has absolute path: " ++ Py.repr_str path)
    None.

Definition dir_undeclared (name component_type dir_name : string) : Finding :=
  new_Finding "MEDIUM" (JStr name)
    (dir_name ++ "/ directory exists but not declared in marketplace.json "
     ++ component_type) None.

(** A declared path and a directory are the same place on disk. *)
Definition resolves_to (E : Env) (plugin_dir dir_path : Path) (path : string) : bool :=
  PurePath.eqb (fs_resolve E (PurePath.join plugin_dir path)) (fs_resolve E dir_path).

(** What the rule is to find for one entry: the declared paths that do
    not exist, the declared paths that are absolute, the conventional
    directories that exist and that no declared path of their category
    resolves to. *)
Definition entry_findings (E : Env) (plugin_dir : Path) (entry : json) : list Finding :=
  let name := PurePath.name plugin_dir in
  flat_map (fun component_type =>
              flat_map (fun path =>
                          if fs_exists E (PurePath.join plugin_dir path) then []
                          else [path_missing name component_type path])
                       (declared entry component_type))
           component_types
  ++ flat_map (fun component_type =>
                 flat_map (fun path =>
                             if PurePath.is_absolute (PurePath.parse path)
                             then [path_absolute name component_type path]
                             else [])
                          (declared entry component_type))
              component_types
  ++ flat_map (fun '(component_type, dir_name) =>
                 let dir_path := PurePath.join plugin_dir dir_name in
                 if fs_exists E dir_path && fs_is_dir E dir_path
                    && negb (existsb (resolves_to E plugin_dir dir_path)
                                     (declared entry component_type))
                 then [dir_undeclared name component_type dir_name]
                 else [])
              conventional_dirs.

(** The tests on the paths that the listing declares, [exists()] and
    [resolve()], answer. *)
Definition paths_testable (E : Env) (plugin_dir : Path) (mkt : json) : bool :=
  forallb (fun entry =>
             forallb (fun component_type =>
                        forallb (fun path =>
                                   let p := PurePath.join plugin_dir path in
                                   negb (is_some (fs_exists_error E p))
                                   && negb (is_some (fs_resolve_error E p)))
                                (declared entry component_type))
                     component_types)
          (listing_entries mkt).

(** The tests on the declared paths of one entry answer. *)
Definition entry_testable (E : Env) (dir : Path) (entry : json) : Prop :=
  forall ct s, In ct component_types -> In s (declared entry ct) ->
    fs_exists_error E (PurePath.join dir s) = None /\
    fs_resolve_error E (PurePath.join dir s) = None.

(** The paths that a unit declares under a category, all entries
    together. *)
Definition unit_declared (mkt : json) (component_type : string) : list string :=
  flat_map (fun entry => declared entry component_type) (listing_entries mkt).

(** *** Marketplace listings *)

Definition entry_name (entry : json) : option string :=
  match entry with
  | JObj d =>
      match Py.dict_lookup "name" d with
      | Some (JStr n) => Some n
      | _ => None
      end
  | _ => None
  end.

(** The unit names of a listing, in the order of its entries. *)
Definition listing_names (listing : json) : list string :=
  flat_map (fun entry => match entry_name entry with Some n => [n] | None => [] end)
           (listing_entries listing).

(** A listing that can be used: a non-empty object whose [plugins], if
    any, is an array of objects with a text name. *)
Definition names_shaped (listing : json) : bool :=
  Py.truthy listing &&
  match listing with
  | JObj d =>
      match Py.dict_lookup "plugins" d with
      | None => true
      | Some (JArr entries) => forallb (fun entry => is_some (entry_name entry)) entries
      | Some _ => false
      end
  | _ => false
  end.

Definition missing_from_site (name : string) : Finding :=
  new_Finding "HIGH" (JStr name) "Plugin in emporium but missing from skill7.dev" None.

Definition missing_from_emporium (name : string) : Finding :=
  new_Finding "HIGH" (JStr name) "Plugin on skill7.dev but missing from emporium" None.

(** The finding is about the unit [name]. *)
Definition about (name : string) (f : Finding) : bool := Py.eqb (plugin f) (JStr name).

(** Names met so far, each kept once, in order of first appearance. *)
Fixpoint add_names (names acc : list string) : list string :=
  match names with
  | [] => acc
  | n :: more =>
      add_names more (if existsb (String.eqb n) acc then acc else acc ++ [n])
  end.

(** The set of unit names of a listing. *)
Definition unique_names (listing : json) : list string :=
  add_names (listing_names listing) [].

(** *** Metadata completeness *)

Definition missing_meta (name : string) : Finding :=
  new_Finding "HIGH" (JStr name)
    "Plugin in marketplace.json but missing from plugin-meta.json" None.

Definition no_version (name : string) : Finding :=
  new_Finding "MEDIUM" (JStr name) "No version in plugin-meta.json" None.

Definition no_tags (name : string) : Finding :=
  new_Finding "LOW" (JStr name) "No tags in plugin-meta.json" None.

(** A field of an entry of the site index, [None] when it is not there. *)
Definition entry_field (entry : json) (field : string) : json :=
  match entry with
  | JObj e => match Py.dict_lookup field e with Some v => v | None => JNull end
  | _ => JNull
  end.

(** The field is there and holds something: not [null], not empty, not
    zero, not [false]. *)
Definition field_filled (entry : json) (field : string) : bool :=
  Py.truthy (entry_field entry field).

(** What the rule is to find for one listed name. *)
Definition completeness_findings (site_meta : json) (name : string) : list Finding :=
  match site_entry site_meta name with
  | None => [missing_meta name]
  | Some entry =>
      (if field_filled entry "version" then [] else [no_version name])
      ++ (if field_filled entry "tags" then [] else [no_tags name])
  end.

(** A site metadata index that can be used: a non-empty object whose
    [plugins], if any, is an object all of whose entries are objects. *)
Definition meta_shaped (site_meta : json) : bool :=
  Py.truthy site_meta &&
  match site_meta with
  | JObj d =>
      match Py.dict_lookup "plugins" d with
      | None => true
      | Some (JObj entries) =>
          forallb (fun kv => match snd kv with JObj _ => true | _ => false end) entries
      | Some _ => false
      end
  | _ => false
  end.

(** *** Listings with an incomplete entry *)

(** An entry with a text name and a description. *)
Definition complete_entry (entry : json) : bool :=
  match entry with
  | JObj d => is_some (entry_name entry) && Py.dict_has "description" d
  | _ => false
  end.

(** The key whose lookup fails first on an entry that lacks a name or a
    description: the description is looked up before the name. *)
Definition missing_key (entry : list (string * json)) : string :=
  if Py.dict_has "description" entry then "name" else "description".

(** *** What a pattern matches *)

(** Rounds of [P], each consuming something, one after the other. *)
Inductive star_of (P : nat -> list ascii -> list ascii -> Prop)
  : nat -> list ascii -> list ascii -> Prop :=
| star_done p after : star_of P p [] after
| star_round p u1 u2 after :
    u1 <> [] -> P p u1 (u2 ++ after) ->
    star_of P (p + List.length u1) u2 after ->
    star_of P p (u1 ++ u2) after.

(** [matches r p used after]: at offset [p] of the subject, [r] can
    consume [used] when [after] is what follows. *)
Fixpoint matches (r : regex) (p : nat) (used after : list ascii) : Prop :=
  match r with
  | Chr c => used = [c]
  | Digit => exists c, used = [c] /\ is_digit c = true
  | Space => exists c, used = [c] /\ is_space c = true
  | Range lo hi => exists c, used = [c] /\ in_range lo hi c = true
  | Bol => used = [] /\ p = 0
  | Eol => used = [] /\ (after = [] \/ after = ["010"%char])
  | Seq r1 r2 =>
      exists u1 u2, used = u1 ++ u2 /\ matches r1 p u1 (u2 ++ after)
                    /\ matches r2 (p + List.length u1) u2 after
  | Alt r1 r2 => matches r1 p used after \/ matches r2 p used after
  | Star r' => star_of (matches r') p used after
  | Group _ r' => matches r' p used after
  end.

(** *** Strict semantic versions *)

Definition all_digits (s : list ascii) : bool := forallb is_digit s.

(** A non-negative decimal number without a leading zero. *)
Definition decimal_group (g : list ascii) : bool :=
  match g with
  | [] => false
  | c :: more =>
      if Ascii.eqb c "0" then match more with [] => true | _ => false end
      else in_range "1" "9" c && all_digits more
  end.

(** Exactly three such groups separated by dots, and nothing else. *)
Definition strict_semver (v : string) : Prop :=
  exists a b c : string,
    decimal_group (list_ascii_of_string a) = true /\
    decimal_group (list_ascii_of_string b) = true /\
    decimal_group (list_ascii_of_string c) = true /\
    v = (a ++ "." ++ b ++ "." ++ c)%string.

Definition number_re (n : nat) : regex :=
  Group n (Alt (Chr "0") (Seq (Range "1" "9") (Star Digit))).

(** *** What a rule may append *)

(** Whatever happens, [m] only appends, and only findings that satisfy
    [P]. *)
Definition appends_only {A} (P : Finding -> Prop) (m : M A) : Prop :=
  forall fs, exists new, fst (m fs) = fs ++ new /\ Forall P new.

(** The finding has one of the severities [sevs] and is about the unit
    in the directory [dir]. *)
Definition unit_finding (sevs : list string) (dir : Path) (f : Finding) : Prop :=
  In (severity f) sevs /\ plugin f = JStr (PurePath.name dir).

Definition severity_among (sevs : list string) (f : Finding) : Prop :=
  In (severity f) sevs.


(** *** The report *)

(** The findings that a report prints, in the order it prints them. *)
Definition printed (out : list line) : list Finding :=
  flat_map (fun l => match l with PrintFinding f => [f] | _ => [] end) out.

(** The block of one severity: nothing for an empty group, else a banner
    with the count and the findings of the group. *)
Definition group_lines (sev : string) (fs : list Finding) : list line :=
  match fs with
  | [] => []
  | _ => PrintBanner sev (List.length fs) :: map PrintFinding fs
  end.

(** The human-readable report of a non-empty list of findings. *)
Definition human_report (findings : list Finding) : list line :=
  let of_ sev := filter (has_severity sev) findings in
  group_lines "CRITICAL" (of_ "CRITICAL") ++ group_lines "HIGH" (of_ "HIGH")
  ++ group_lines "MEDIUM" (of_ "MEDIUM") ++ group_lines "LOW" (of_ "LOW")
  ++ [PrintSummary (List.length findings)
        (List.length (of_ "CRITICAL")) (List.length (of_ "HIGH"))
        (List.length (of_ "MEDIUM")) (List.length (of_ "LOW"))].

(** *** Sources of another type *)

(** A parsed value that is neither [null] nor an object. *)
Definition not_an_object (v : json) : bool :=
  match v with
  | JNull | JObj _ => false
  | _ => true
  end.

(** *** Descriptions *)

(** The name and the description of an entry, when both are text. *)
Definition text_entry (entry : json) : option (string * string) :=
  match entry with
  | JObj d =>
      match Py.dict_lookup "name" d, Py.dict_lookup "description" d with
      | Some (JStr n), Some (JStr t) => Some (n, t)
      | _, _ => None
      end
  | _ => None
  end.

Definition text_entries (listing : json) : list (string * string) :=
  flat_map (fun entry => match text_entry entry with Some nd => [nd] | None => [] end)
           (listing_entries listing).

(** The descriptions of a listing by name: a name listed again replaces
    its description and keeps its place. *)
Definition listing_descs (listing : json) : list (string * string) :=
  fold_left (fun acc nd => Py.dict_set (fst nd) (snd nd) acc) (text_entries listing) [].

(** A listing whose descriptions can be compared: a non-empty object
    whose [plugins], if any, is an array of objects with a text name and a
    text description. *)
Definition descs_shaped (listing : json) : bool :=
  Py.truthy listing &&
  match listing with
  | JObj d =>
      match Py.dict_lookup "plugins" d with
      | None => true
      | Some (JArr entries) => forallb (fun entry => is_some (text_entry entry)) entries
      | Some _ => false
      end
  | _ => false
  end.

(** The first 80 characters and an ellipsis. *)
Definition description_preview (t : string) : string :=
  (String.substring 0 80 t ++ "...")%string.

Definition description_mismatch (name site emporium : string) : Finding :=
  new_Finding "MEDIUM" (JStr name)
    "Description mismatch: skill7.dev marketplace.json vs emporium marketplace.json"
    (Some [("site", JStr (description_preview site));
           ("emporium", JStr (description_preview emporium))]).

(** What the description rule is to find: for each name of the site, in
    order, a finding when the emporium has the name under another
    description. *)
Definition description_findings (site emporium : list (string * string)) : list Finding :=
  flat_map (fun name =>
              match Py.dict_lookup name site, Py.dict_lookup name emporium with
              | Some s, Some e =>
                  if String.eqb s e then [] else [description_mismatch name s e]
              | _, _ => []
              end)
           (map fst site).

Definition as_values (d : list (string * string)) : list (json * json) :=
  map (fun nd => (JStr (fst nd), JStr (snd nd))) d.

(** *** Changelog headings *)

(** A non-empty run of digits. *)
Definition digit_run (s : list ascii) : bool :=
  match s with
  | [] => false
  | _ => forallb is_digit s
  end.

(** Three non-empty runs of digits separated by dots. *)
Definition dotted_triple (v : string) : Prop :=
  exists a b c : string,
    digit_run (list_ascii_of_string a) = true /\
    digit_run (list_ascii_of_string b) = true /\
    digit_run (list_ascii_of_string c) = true /\
    v = (a ++ "." ++ b ++ "." ++ c)%string.

(** No two hashes are adjacent in the text. *)
Fixpoint no_double_hash (s : list ascii) : bool :=
  match s with
  | c :: (d :: _) as more =>
      negb (Ascii.eqb c "#" && Ascii.eqb d "#") && no_double_hash more
  | _ => true
  end.

(** The pattern inside group 1 of the heading. *)
Definition version_body : regex :=
  Seq (Plus Digit) (Seq (Chr ".") (Seq (Plus Digit) (Seq (Chr ".") (Plus Digit)))).

(** A character of a dotted triple. *)
Definition version_char (c : ascii) : bool := is_digit c || Ascii.eqb c ".".

Definition changelog_path (plugin_dir : Path) : Path := PurePath.join plugin_dir "CHANGELOG.md".

(** *** Descriptions of any type *)

(** The name of an entry with its description, of whatever type. *)
Definition entry_pair (entry : json) : option (string * json) :=
  match entry with
  | JObj d =>
      match Py.dict_lookup "name" d, Py.dict_lookup "description" d with
      | Some (JStr n), Some t => Some (n, t)
      | _, _ => None
      end
  | _ => None
  end.

(** The descriptions of a listing by name, of whatever type. *)
Definition listing_values (listing : json) : list (string * json) :=
  fold_left (fun acc nd => Py.dict_set (fst nd) (snd nd) acc)
            (flat_map (fun entry => match entry_pair entry with
                                    | Some nd => [nd] | None => [] end)
                      (listing_entries listing))
            [].

(** A non-empty object whose [plugins], if any, is an array of objects
    with a text name and a description. *)
Definition complete_listing (listing : json) : bool :=
  Py.truthy listing &&
  match listing with
  | JObj d =>
      match Py.dict_lookup "plugins" d with
      | None => true
      | Some (JArr entries) => forallb (fun entry => is_some (entry_pair entry)) entries
      | Some _ => false
      end
  | _ => false
  end.

Definition is_object (v : json) : bool :=
  match v with JObj _ => true | _ => false end.

(** No description is an object. *)
Definition no_objects (d : list (string * json)) : bool :=
  forallb (fun nv => negb (is_object (snd nv))) d.

Definition named_values (d : list (string * json)) : list (json * json) :=
  map (fun nd => (JStr (fst nd), snd nd)) d.

(** The body of the loop of the description rule, for one name. *)
Definition description_body (site_descs emporium_descs : list (json * json))
    (name : json) : M unit :=
  if is_some (vdict_lookup name emporium_descs) then
    bind (lift (vdict_getitem site_descs name)) (fun site_desc =>
    bind (lift (vdict_getitem emporium_descs name)) (fun emporium_desc =>
    when (negb (Py.eqb site_desc emporium_desc))
      (bind (lift (vdict_getitem site_descs name)) (fun site_desc' =>
       bind (lift (Py.preview site_desc')) (fun site_preview =>
       bind (lift (vdict_getitem emporium_descs name)) (fun emporium_desc' =>
       bind (lift (Py.preview emporium_desc')) (fun emporium_preview =>
       append (new_Finding "MEDIUM" name
                 "Description mismatch: skill7.dev marketplace.json vs emporium marketplace.json"
                 (Some [("site", site_preview); ("emporium", emporium_preview)])))))))))
  else ret tt.

(** *** The order of the directories *)

(** [x] does not come after [y]. *)
Definition not_after (x y : Path) : Prop := PurePath.ltb y x = false.

(** * Proofs *)

(** ** Reasoning about rules *)

Lemma emits_ret {A} (a : A) : emits (ret a) [] a.
Proof. intros fs; unfold ret; now rewrite app_nil_r. Qed.

Lemma emits_lift {A} (a : A) : emits (lift (Ok a)) [] a.
Proof. intros fs; unfold lift; now rewrite app_nil_r. Qed.

Lemma emits_append f : emits (append f) [f] tt.
Proof. intros fs; reflexivity. Qed.

Lemma emits_bind {A B} (m : M A) (k : A -> M B) n1 n2 a b :
  emits m n1 a -> emits (k a) n2 b -> emits (bind m k) (n1 ++ n2) b.
Proof.
  intros Hm Hk fs. unfold bind. rewrite Hm, Hk. now rewrite app_assoc.
Qed.

Lemma emits_bind_nil {A B} (m : M A) (k : A -> M B) n a b :
  emits m [] a -> emits (k a) n b -> emits (bind m k) n b.
Proof. intros Hm Hk. now apply emits_bind with (n1 := []) (a := a). Qed.

Lemma emits_lift_bind {A B} (r : result A) (k : A -> M B) n a b :
  r = Ok a -> emits (k a) n b -> emits (bind (lift r) k) n b.
Proof.
  intros -> Hk. apply emits_bind with (n1 := []) (a := a); [apply emits_lift | exact Hk].
Qed.

Lemma emits_when_true (m : M unit) n : emits m n tt -> emits (when true m) n tt.
Proof. exact (fun H => H). Qed.

Lemma emits_when_false (m : M unit) : emits (when false m) [] tt.
Proof. apply emits_ret. Qed.

Lemma emits_when (b : bool) (m : M unit) n :
  (b = true -> emits m n tt) -> emits (when b m) (if b then n else []) tt.
Proof.
  destruct b; intros H; [apply H; reflexivity | apply emits_ret].
Qed.

Lemma emits_for_each {A} (l : list A) (body : A -> M unit) (g : A -> list Finding) :
  (forall x, In x l -> emits (body x) (g x) tt) ->
  emits (for_each l body) (flat_map g l) tt.
Proof.
  induction l as [|x l IH]; intros H; simpl.
  - apply emits_ret.
  - apply emits_bind with (a := tt).
    + apply H; now left.
    + apply IH; intros y Hy; apply H; now right.
Qed.

Lemma raises_lift {A} (e : exn) : raises (@lift A (Raise e)) [] e.
Proof. intros fs; unfold lift; now rewrite app_nil_r. Qed.

Lemma raises_bind_l {A B} (m : M A) (k : A -> M B) n e :
  raises m n e -> raises (bind m k) n e.
Proof. intros Hm fs. unfold bind. now rewrite Hm. Qed.

Lemma raises_bind_r {A B} (m : M A) (k : A -> M B) n1 n2 a e :
  emits m n1 a -> raises (k a) n2 e -> raises (bind m k) (n1 ++ n2) e.
Proof.
  intros Hm Hk fs. unfold bind. rewrite Hm, Hk. now rewrite app_assoc.
Qed.

(** *** Severities *)

Lemma known_ret {A} (a : A) : appends_known (ret a).
Proof. intros fs; exists []; simpl; now rewrite app_nil_r. Qed.

Lemma known_lift {A} (r : result A) : appends_known (lift r).
Proof. intros fs; exists []; simpl; now rewrite app_nil_r. Qed.

Lemma known_append sev p msg src :
  In sev severities -> appends_known (append (new_Finding sev p msg src)).
Proof.
  intros H fs; eexists; split; [reflexivity|]. constructor; [exact H | constructor].
Qed.

Lemma known_bind {A B} (m : M A) (k : A -> M B) :
  appends_known m -> (forall a, appends_known (k a)) -> appends_known (bind m k).
Proof.
  intros Hm Hk fs. unfold bind.
  destruct (Hm fs) as [n1 [E1 F1]].
  destruct (m fs) as [fs' [a|e]]; simpl in E1; subst fs'.
  - destruct (Hk a (fs ++ n1)) as [n2 [E2 F2]].
    exists (n1 ++ n2). rewrite E2, app_assoc. split; [reflexivity|].
    apply Forall_app; now split.
  - exists n1. now split.
Qed.

Lemma known_when (b : bool) (m : M unit) : appends_known m -> appends_known (when b m).
Proof. destruct b; intros H; [exact H | apply known_ret]. Qed.

Lemma known_for_each {A} (l : list A) (body : A -> M unit) :
  (forall x, appends_known (body x)) -> appends_known (for_each l body).
Proof.
  intros H; induction l as [|x l IH]; simpl.
  - apply known_ret.
  - apply known_bind; [apply H | intros _; exact IH].
Qed.

Ltac known_step :=
  match goal with
  | |- appends_known (bind _ _) => apply known_bind; [| intro]
  | |- appends_known (ret _) => apply known_ret
  | |- appends_known (lift _) => apply known_lift
  | |- appends_known (when _ _) => apply known_when
  | |- appends_known (for_each _ _) => apply known_for_each; intro
  | |- appends_known (append (new_Finding _ _ _ _)) =>
      apply known_append; unfold severities; simpl; tauto
  | |- appends_known (if ?b then _ else _) => destruct b
  | |- appends_known (match ?v with _ => _ end) => destruct v
  end.

Ltac known := repeat known_step.

Lemma known_check_plugin_json_schema E d : appends_known (check_plugin_json_schema E d).
Proof. unfold check_plugin_json_schema. known. Qed.

Lemma known_check_marketplace_components E d :
  appends_known (check_marketplace_components E d).
Proof. unfold check_marketplace_components. known. Qed.

Lemma known_check_version_consistency E d c :
  appends_known (check_version_consistency E d c).
Proof. unfold check_version_consistency. known. Qed.

Lemma known_check_description_consistency E :
  appends_known (check_description_consistency E).
Proof. unfold check_description_consistency. known. Qed.

Lemma known_check_emporium_vs_site E : appends_known (check_emporium_vs_site E).
Proof. unfold check_emporium_vs_site. known. Qed.

Lemma known_check_site_meta_completeness E :
  appends_known (check_site_meta_completeness E).
Proof. unfold check_site_meta_completeness. known. Qed.

Lemma known_run_checks E dirs : appends_known (run_checks E dirs).
Proof.
  unfold run_checks, per_plugin_checks.
  repeat first
    [ apply known_check_plugin_json_schema
    | apply known_check_marketplace_components
    | apply known_check_version_consistency
    | apply known_check_description_consistency
    | apply known_check_emporium_vs_site
    | apply known_check_site_meta_completeness
    | known_step ].
Qed.

(** *** Grouping by severity *)

Lemma group_by_severity_buckets fs :
  Forall known_severity fs ->
  forall c h m l,
    group_by_severity fs (buckets c h m l) =
    Ok (buckets (c ++ filter (has_severity "CRITICAL") fs)
                (h ++ filter (has_severity "HIGH") fs)
                (m ++ filter (has_severity "MEDIUM") fs)
                (l ++ filter (has_severity "LOW") fs)).
Proof.
  induction 1 as [|f fs Hf _ IH]; intros c h m l.
  - simpl. now rewrite !app_nil_r.
  - unfold known_severity, severities in Hf. simpl in Hf.
    cbn [group_by_severity filter]. unfold has_severity.
    destruct Hf as [Hs|[Hs|[Hs|[Hs|[]]]]]; rewrite <- Hs;
      cbn; unfold buckets in IH; rewrite IH; unfold buckets;
      rewrite <- ?app_assoc; reflexivity.
Qed.

Lemma severity_partition fs :
  Forall known_severity fs ->
  List.length (filter (has_severity "CRITICAL") fs)
  + List.length (filter (has_severity "HIGH") fs)
  + List.length (filter (has_severity "MEDIUM") fs)
  + List.length (filter (has_severity "LOW") fs) = List.length fs.
Proof.
  induction 1 as [|f fs Hf _ IH]; [reflexivity|].
  unfold known_severity, severities in Hf. simpl in Hf.
  cbn [filter].
  destruct Hf as [Hs|[Hs|[Hs|[Hs|[]]]]];
    match type of Hs with
    | ?lit = _ =>
        assert (Hf : forall s, has_severity s f = String.eqb lit s)
          by (intros s; unfold has_severity; now rewrite <- Hs)
    end;
    rewrite !Hf; cbv [String.eqb Ascii.eqb Bool.eqb]; cbn [List.length]; lia.
Qed.

Lemma print_groups_buckets c h m l :
  exists out, print_groups severities (buckets c h m l) = Ok out.
Proof. unfold severities, buckets. cbn. eexists; reflexivity. Qed.

Lemma report_returns jm fs :
  Forall known_severity fs ->
  exists out, report jm fs = Ok (out, if existsb is_blocking fs then 1%Z else 0%Z).
Proof.
  intros Hk. unfold report. destruct jm; [eexists; reflexivity|].
  destruct fs as [|f fs]; [eexists; reflexivity|].
  change [("CRITICAL", []); ("HIGH", []); ("MEDIUM", []); ("LOW", [])]
    with (buckets [] [] [] []).
  rewrite (group_by_severity_buckets Hk). cbn [rbind].
  destruct (print_groups_buckets
              ([] ++ filter (has_severity "CRITICAL") (f :: fs))
              ([] ++ filter (has_severity "HIGH") (f :: fs))
              ([] ++ filter (has_severity "MEDIUM") (f :: fs))
              ([] ++ filter (has_severity "LOW") (f :: fs))) as [out Hout].
  rewrite Hout. cbn. eexists; reflexivity.
Qed.

Lemma blocking_iff fs :
  existsb is_blocking fs = false <->
  forall f, In f fs -> severity f <> "CRITICAL" /\ severity f <> "HIGH".
Proof.
  split.
  - intros H f Hf.
    assert (Hb : is_blocking f = false).
    { destruct (is_blocking f) eqn:Eb; [|reflexivity].
      assert (existsb is_blocking fs = true) by (apply existsb_exists; eauto).
      congruence. }
    unfold is_blocking in Hb. apply orb_false_iff in Hb as [H1 H2].
    apply String.eqb_neq in H1, H2. now split.
  - intros H. destruct (existsb is_blocking fs) eqn:Eb; [|reflexivity].
    apply existsb_exists in Eb as [f [Hf Hb]]. destruct (H f Hf) as [H1 H2].
    unfold is_blocking in Hb. apply orb_true_iff in Hb as [Hb|Hb];
      apply String.eqb_eq in Hb; contradiction.
Qed.

(** ** C1: the exit status *)

(** C1. Whenever the checks of a run complete with the finding list
    [findings], [main] returns, and its exit status is 0 if and only if no
    finding is CRITICAL or HIGH, and 1 otherwise; an empty list gives 0.
    When a check raises, [main] raises the same exception and returns no
    status. *)
Theorem main_exit_status (E : Env) (json_mode : bool) (PLUGIN_DIRS : list Path) :
  match run_checks E PLUGIN_DIRS [] with
  | (findings, Ok _) =>
      exists out status,
        main E json_mode PLUGIN_DIRS = Ok (out, status) /\
        (status = 0%Z <->
         forall f, In f findings -> severity f <> "CRITICAL" /\ severity f <> "HIGH") /\
        (status <> 0%Z -> status = 1%Z) /\
        (findings = [] -> status = 0%Z)
  | (_, Raise e) => main E json_mode PLUGIN_DIRS = Raise e
  end.
Proof.
  unfold main.
  destruct (known_run_checks E PLUGIN_DIRS []) as [new [Hnew Hknown]].
  destruct (run_checks E PLUGIN_DIRS []) as [findings [[]|e]]; [|reflexivity].
  simpl in Hnew. subst findings.
  destruct (report_returns json_mode Hknown) as [out Hout].
  exists out, (if existsb is_blocking new then 1%Z else 0%Z).
  split; [exact Hout|]. rewrite <- blocking_iff.
  destruct (existsb is_blocking new) eqn:Eb.
  - repeat split; try discriminate; try reflexivity. intros ->. discriminate.
  - repeat split; try reflexivity; intros; congruence.
Qed.

(** ** C8: severities *)

(** C8. Every rule evaluator, on every input and whether or not it
    raises, only appends findings whose severity is CRITICAL, HIGH, MEDIUM
    or LOW; hence on the findings of any run the grouping of [main] never
    misses a bucket, every finding lands in one of the four, and the four
    counts add up to the total. *)
Theorem severities_are_known :
  (forall E d, appends_known (check_plugin_json_schema E d)) /\
  (forall E d, appends_known (check_marketplace_components E d)) /\
  (forall E d cache, appends_known (check_version_consistency E d cache)) /\
  (forall E, appends_known (check_description_consistency E)) /\
  (forall E, appends_known (check_emporium_vs_site E)) /\
  (forall E, appends_known (check_site_meta_completeness E)) /\
  (forall E PLUGIN_DIRS,
     let findings := fst (run_checks E PLUGIN_DIRS []) in
     Forall known_severity findings /\
     exists c h m l,
       group_by_severity findings (buckets [] [] [] []) = Ok (buckets c h m l) /\
       (forall f, In f findings -> In f c \/ In f h \/ In f m \/ In f l) /\
       (List.length c + List.length h + List.length m + List.length l
        = List.length findings)%nat).
Proof.
  split; [exact known_check_plugin_json_schema|].
  split; [exact known_check_marketplace_components|].
  split; [exact known_check_version_consistency|].
  split; [exact known_check_description_consistency|].
  split; [exact known_check_emporium_vs_site|].
  split; [exact known_check_site_meta_completeness|].
  intros E PLUGIN_DIRS findings. subst findings.
  destruct (known_run_checks E PLUGIN_DIRS []) as [new [Hnew Hknown]].
  rewrite Hnew. simpl. split; [exact Hknown|].
  exists (filter (has_severity "CRITICAL") new), (filter (has_severity "HIGH") new),
         (filter (has_severity "MEDIUM") new), (filter (has_severity "LOW") new).
  split; [exact (group_by_severity_buckets Hknown [] [] [] [])|].
  split; [|exact (severity_partition Hknown)].
  intros f Hf. rewrite !filter_In. unfold has_severity.
  pose proof (proj1 (Forall_forall _ _) Hknown f Hf) as Hs.
  unfold known_severity, severities in Hs. simpl in Hs.
  destruct Hs as [Hs|[Hs|[Hs|[Hs|[]]]]]; rewrite <- Hs; simpl; tauto.
Qed.

(** ** The matcher *)

Lemma step_inv ok st st' :
  In st' (step ok st) ->
  exists c, rest st = c :: rest st' /\ ok c = true /\
            pos st' = S (pos st) /\ caps st' = caps st.
Proof.
  unfold step. destruct (rest st) as [|c t] eqn:Er; [intros []|].
  destruct (ok c) eqn:Eo; [|intros []].
  intros [<-|[]]. exists c. simpl. auto.
Qed.

Lemma run_Seq r1 r2 st : run (Seq r1 r2) st = flat_map (run r2) (run r1 st).
Proof. reflexivity. Qed.

Lemma run_Group n r st : run (Group n r) st = map (capture n st) (run r st).
Proof. reflexivity. Qed.

Lemma run_Chr c st : run (Chr c) st = step (Ascii.eqb c) st.
Proof. reflexivity. Qed.

Lemma run_Digit st : run Digit st = step is_digit st.
Proof. reflexivity. Qed.

(** A match only moves forward: it consumes a prefix of what is left. *)
Lemma run_progress r :
  forall st st', In st' (run r st) ->
  exists used, rest st = used ++ rest st' /\ pos st' = pos st + List.length used.
Proof.
  induction r as [c| | |lo hi| | |r1 IH1 r2 IH2|r1 IH1 r2 IH2|r IH|n r IH];
    intros st st' H.
  1-4: apply step_inv in H as [c' [Hr [_ [Hp _]]]];
       exists [c']; simpl; split; [assumption | lia].
  - simpl in H. destruct (pos st =? 0)%nat; [|destruct H].
    destruct H as [<-|[]]. exists []. simpl. split; [reflexivity | lia].
  - simpl in H. destruct (at_end st); [|destruct H].
    destruct H as [<-|[]]. exists []. simpl. split; [reflexivity | lia].
  - rewrite run_Seq in H. apply in_flat_map in H as [mid [H1 H2]].
    destruct (IH1 _ _ H1) as [u1 [E1 P1]]. destruct (IH2 _ _ H2) as [u2 [E2 P2]].
    exists (u1 ++ u2). rewrite E1, E2, <- app_assoc, length_app.
    split; [reflexivity | lia].
  - simpl in H. apply in_app_or in H as [H|H]; eauto.
  - assert (G : forall fuel st0 st',
      In st' (star_loop (run r) fuel st0) ->
      exists used, rest st0 = used ++ rest st' /\ pos st' = pos st0 + List.length used).
    { clear st st' H. induction fuel as [|fuel IHf]; intros st0 st' H.
      - destruct H as [<-|[]]. exists []. simpl. split; [reflexivity | lia].
      - simpl in H. apply in_app_or in H as [H|H].
        + apply in_flat_map in H as [mid [H1 H2]].
          destruct (List.length (rest mid) <? List.length (rest st0))%nat; [|destruct H2].
          destruct (IH _ _ H1) as [u1 [E1 P1]]. destruct (IHf _ _ H2) as [u2 [E2 P2]].
          exists (u1 ++ u2). rewrite E1, E2, <- app_assoc, length_app.
          split; [reflexivity | lia].
        + destruct H as [<-|[]]. exists []. simpl. split; [reflexivity | lia]. }
    simpl in H. exact (G _ st st' H).
  - rewrite run_Group in H. apply in_map_iff in H as [mid [<- H]].
    destruct (IH _ _ H) as [u [E P]]. exists u. simpl. now split.
Qed.

Lemma search_from_in r s : forall p st,
  search_from r p s = Some st -> exists p' s', In st (run r (start p' s')).
Proof.
  induction s as [|c s IH]; intros p st H; simpl in H.
  - destruct (run r (start p [])) as [|st0 l] eqn:Er; [discriminate|].
    injection H as <-. exists p, []. rewrite Er. now left.
  - destruct (run r (start p (c :: s))) as [|st0 l] eqn:Er.
    + eapply IH; eassumption.
    + injection H as <-. exists p, (c :: s). rewrite Er. now left.
Qed.

Lemma string_of_list_ascii_nonempty c l : string_of_list_ascii (c :: l) <> "".
Proof. simpl. discriminate. Qed.

(** Group 1 of a changelog heading always holds at least one digit. *)
Lemma changelog_group_nonempty st0 st :
  In st (run CHANGELOG_VERSION_RE st0) ->
  exists g, group 1 st = Some g /\ g <> "".
Proof.
  unfold CHANGELOG_VERSION_RE, Plus. intros H.
  rewrite run_Seq in H. apply in_flat_map in H as [s1 [_ H]].
  rewrite run_Seq in H. apply in_flat_map in H as [s2 [_ H]].
  rewrite run_Seq in H. apply in_flat_map in H as [s3 [_ H]].
  rewrite run_Seq in H. apply in_flat_map in H as [s4 [_ H]].
  rewrite run_Seq in H. apply in_flat_map in H as [s5 [Hg H]].
  rewrite run_Chr in H. apply step_inv in H as [c [_ [_ [_ Hc]]]].
  rewrite run_Group in Hg. apply in_map_iff in Hg as [s5' [<- Hb]].
  rewrite run_Seq in Hb. apply in_flat_map in Hb as [sa [Ha Hb]].
  rewrite run_Seq in Ha. apply in_flat_map in Ha as [sd [Hd Ha]].
  rewrite run_Digit in Hd. apply step_inv in Hd as [d [Hr [_ [Hp _]]]].
  apply run_progress in Ha as [u1 [_ P1]]. apply run_progress in Hb as [u2 [_ P2]].
  unfold group. rewrite Hc. simpl. eexists; split; [reflexivity|].
  rewrite Hr. replace (pos s5' - pos s4) with (S (List.length u1 + List.length u2)) by lia.
  apply string_of_list_ascii_nonempty.
Qed.

Lemma get_changelog_version_nonempty E d v :
  get_changelog_version E d = Ok (Some v) -> v <> "".
Proof.
  unfold get_changelog_version.
  destruct (negb (fs_exists E _)); [discriminate|].
  destruct (fs_read_text E _) as [text|e]; [|discriminate]. simpl.
  unfold search. destruct (search_from _ _ _) as [m|] eqn:Es; [|discriminate].
  intros H. injection H as H.
  apply search_from_in in Es as [p' [s' Hin]].
  apply changelog_group_nonempty in Hin as [g [Hg Hne]]. congruence.
Qed.

(** ** C2: version consistency *)

Lemma version_rule_skips E dir cache items :
  get_plugin_json E dir = Ok (JObj items) ->
  (forall cv, Py.dict_lookup "version" items = Some (JStr cv) -> cv = "") ->
  emits (check_version_consistency E dir cache) [] tt.
Proof.
  intros Hpj Hv fs. rewrite app_nil_r. unfold check_version_consistency, bind, lift.
  rewrite Hpj. cbn [is_none Py.get].
  destruct (Py.dict_lookup "version" items) as [[]|] eqn:El; try reflexivity.
  rewrite (Hv _ eq_refl). reflexivity.
Qed.

Lemma version_rule_runs E dir cache items cv cl sm :
  get_plugin_json E dir = Ok (JObj items) ->
  Py.dict_lookup "version" items = Some (JStr cv) ->
  cv <> "" ->
  get_changelog_version E dir = Ok cl ->
  site_meta_seen E cache = Ok sm ->
  site_index_shaped sm (PurePath.name dir) = true ->
  emits (check_version_consistency E dir cache)
        (version_findings (PurePath.name dir) cv cl sm) tt.
Proof.
  intros Hpj Hv Hne Hcl Hsm Hshape.
  unfold check_version_consistency.
  apply emits_lift_bind with (a := JObj items); [exact Hpj|]. cbn [is_none].
  apply emits_lift_bind with (a := JStr cv); [cbn; now rewrite Hv|].
  apply String.eqb_neq in Hne. cbn [Py.is_str Py.truthy negb orb]. rewrite Hne.
  cbn [negb].
  apply emits_lift_bind with (a := cl); [exact Hcl|].
  unfold version_findings.
  apply emits_bind with (a := tt).
  - destruct cl as [v|]; [|apply emits_ret].
    pose proof (get_changelog_version_nonempty _ _ Hcl) as Hv0.
    apply String.eqb_neq in Hv0. rewrite Hv0. cbn [negb andb Py.eqb].
    destruct (String.eqb v cv); [apply emits_ret | apply emits_append].
  - apply emits_bind_nil with (a := sm).
    { unfold site_meta_seen in Hsm. destruct (is_none cache); cbn [negb].
      - rewrite Hsm. apply emits_lift.
      - injection Hsm as <-. apply emits_ret. }
    unfold site_index_shaped in Hshape. unfold site_version, site_entry.
    destruct (Py.truthy sm) eqn:Et.
    2:{ destruct sm as [| | | | | |d]; try apply emits_ret.
        destruct d; [apply emits_ret | discriminate]. }
    cbn [negb orb] in Hshape. cbn [when].
    destruct sm as [| | | | | |d]; try discriminate.
    apply emits_lift_bind with
      (a := match Py.dict_lookup "plugins" d with Some v => v | None => JObj [] end);
      [reflexivity|].
    destruct (Py.dict_lookup "plugins" d) as [[| | | | | |entries]|]; try discriminate.
    2:{ apply emits_lift_bind with (a := JNull); [reflexivity|]. apply emits_ret. }
    apply emits_lift_bind with
      (a := match Py.dict_lookup (PurePath.name dir) entries with
            | Some v => v | None => JNull end); [reflexivity|].
    destruct (Py.dict_lookup (PurePath.name dir) entries) as [[| | | | | |e]|];
      try discriminate; [|apply emits_ret].
    destruct e as [|kv e]; [apply emits_ret|].
    cbn [Py.truthy when].
    apply emits_lift_bind with
      (a := match Py.dict_lookup "version" (kv :: e) with
            | Some v => v | None => JStr "" end); [reflexivity|].
    destruct (Py.dict_lookup "version" (kv :: e)) as [[| | | |sv| |]|];
      try discriminate; [|apply emits_ret].
    cbn [Py.truthy Py.eqb].
    destruct (String.eqb sv ""); cbn [negb andb orb]; [apply emits_ret|].
    destruct (String.eqb sv cv); cbn [negb]; [apply emits_ret | apply emits_append].
Qed.

(** C2. For a unit whose canonical manifest is an object: the rule
    appends nothing unless the manifest version is a non-empty text value;
    when it is, and the site index is well shaped, the rule appends
    exactly: one HIGH finding carrying both values when a changelog
    version was extracted and differs from the canonical one, then one
    CRITICAL finding carrying both values when the site index has an entry
    for the unit with a non-empty version that differs from the canonical
    one.  The two comparisons do not depend on each other. *)
Theorem version_consistency_rule (E : Env) (dir : Path) (cache : json)
    (items : list (string * json)) :
  get_plugin_json E dir = Ok (JObj items) ->
  ((forall cv, Py.dict_lookup "version" items = Some (JStr cv) -> cv = "") ->
   emits (check_version_consistency E dir cache) [] tt) /\
  (forall cv cl sm,
     Py.dict_lookup "version" items = Some (JStr cv) ->
     cv <> "" ->
     get_changelog_version E dir = Ok cl ->
     site_meta_seen E cache = Ok sm ->
     site_index_shaped sm (PurePath.name dir) = true ->
     emits (check_version_consistency E dir cache)
           (version_findings (PurePath.name dir) cv cl sm) tt /\
     (forall v, In (changelog_mismatch (PurePath.name dir) cv v)
                   (version_findings (PurePath.name dir) cv cl sm)
                <-> cl = Some v /\ v <> cv) /\
     (forall sv, In (site_mismatch (PurePath.name dir) cv sv)
                    (version_findings (PurePath.name dir) cv cl sm)
                 <-> site_version sm (PurePath.name dir) = Some (JStr sv)
                     /\ sv <> "" /\ sv <> cv)).
Proof.
  intros Hpj. split; [now apply version_rule_skips|].
  intros cv cl sm Hv Hne Hcl Hsm Hshape.
  split; [now apply version_rule_runs with (items := items)|].
  unfold version_findings. split.
  - intros v. rewrite in_app_iff. split.
    + intros [H|H].
      * destruct cl as [w|]; [|destruct H].
        destruct (String.eqb_spec w cv); [destruct H|].
        destruct H as [H|[]]. unfold changelog_mismatch, new_Finding in H.
        injection H as ->. now split.
      * destruct (site_version sm (PurePath.name dir)) as [[| | | |sv| |]|];
          try destruct H.
        destruct (String.eqb sv "" || String.eqb sv cv); [destruct H|].
        destruct H as [H|[]]. discriminate.
    + intros [-> Hd]. left. apply String.eqb_neq in Hd. rewrite Hd. now left.
  - intros sv. rewrite in_app_iff. split.
    + intros [H|H].
      * destruct cl as [w|]; [|destruct H].
        destruct (String.eqb w cv); [destruct H|]. destruct H as [H|[]]. discriminate.
      * destruct (site_version sm (PurePath.name dir)) as [[| | | |sv'| |]|];
          try destruct H.
        destruct (String.eqb_spec sv' ""); [destruct H|].
        destruct (String.eqb_spec sv' cv); [destruct H|].
        destruct H as [H|[]]. unfold site_mismatch, new_Finding in H.
        injection H as ->. now repeat split.
    + intros [-> [H0 H1]]. right.
      apply String.eqb_neq in H0, H1. rewrite H0, H1. now left.
Qed.

(** The unit of the specification: manifest at 2.0.0, changelog at 1.9.0,
    site index at 2.0.0 give one HIGH finding and no CRITICAL one. *)
Lemma version_consistency_rule_witness :
  check_version_consistency (Example.env_of Example.herald_disk) Example.herald JNull []
  = ([changelog_mismatch "herald" "2.0.0" "1.9.0"], Ok tt).
Proof.
  exact (proj1 (proj2 (version_consistency_rule
                         (Example.env_of Example.herald_disk) Example.herald JNull
                         (items := Example.herald_manifest) eq_refl)
                      "2.0.0" (Some "1.9.0") Example.herald_site_index
                      eq_refl ltac:(discriminate) eq_refl eq_refl eq_refl) []).
Defined.

(** ** C4: the manifest schema rule *)

Lemma load_json_absent E p : fs_exists E p = false -> load_json E p = Ok JNull.
Proof. unfold load_json. now intros ->. Qed.

Lemma schema_rule_on_object E dir items :
  get_plugin_json E dir = Ok (JObj items) ->
  emits (check_plugin_json_schema E dir)
        (missing_field_findings (PurePath.name dir) items
         ++ version_shape_findings (PurePath.name dir) items
         ++ name_findings (PurePath.name dir) items) tt.
Proof.
  intros Hpj. unfold check_plugin_json_schema.
  apply emits_lift_bind with (a := JObj items); [exact Hpj|]. cbn [is_none].
  apply emits_bind with (a := tt).
  { unfold missing_field_findings. apply emits_for_each. intros field _.
    apply emits_lift_bind with (a := Py.dict_has field items); [reflexivity|].
    unfold absent_or_null, Py.dict_has. cbn [Py.getitem].
    destruct (Py.dict_lookup field items) as [v|]; cbn [negb].
    - apply emits_bind_nil with (a := is_none v).
      + apply emits_lift_bind with (a := v); [reflexivity | apply emits_ret].
      + destruct v; cbn [is_none when]; first [apply emits_append | apply emits_ret].
    - apply emits_bind_nil with (a := true); [apply emits_ret | apply emits_append]. }
  apply emits_lift_bind with
    (a := match Py.dict_lookup "version" items with Some v => v | None => JNull end);
    [reflexivity|].
  apply emits_bind with (a := tt).
  { unfold version_shape_findings.
    destruct (Py.dict_lookup "version" items) as [[| | | |v| |]|];
      cbn [is_none negb when]; try apply emits_append; try apply emits_ret.
    destruct (semver_matches v); cbn [negb when]; [apply emits_ret | apply emits_append]. }
  apply emits_lift_bind with
    (a := match Py.dict_lookup "name" items with Some v => v | None => JNull end);
    [reflexivity|].
  unfold name_findings.
  destruct (Py.dict_lookup "name" items) as [[| | | |n| |]|]; try apply emits_ret.
  cbn [Py.eqb]. destruct (String.eqb n (PurePath.name dir)); cbn [negb when];
    [apply emits_ret | apply emits_append].
Qed.

(** C4. When the canonical manifest of a unit is an object, the rule
    appends one HIGH finding for each of name, version, description,
    author, license that is absent or null, then what it has to say on the
    shape of the version, then a HIGH finding carrying both values when
    the name in the manifest is text other than the directory name.  When
    there is no canonical manifest but a component-declaration manifest
    loads, it appends nothing; when neither file exists it appends a
    single MEDIUM finding. *)
Theorem manifest_schema_rule (E : Env) (dir : Path) :
  (forall items, get_plugin_json E dir = Ok (JObj items) ->
     emits (check_plugin_json_schema E dir)
           (missing_field_findings (PurePath.name dir) items
            ++ version_shape_findings (PurePath.name dir) items
            ++ name_findings (PurePath.name dir) items) tt) /\
  (forall mkt, fs_exists E (plugin_json_path dir) = false ->
     get_marketplace_json E dir = Ok mkt -> mkt <> JNull ->
     emits (check_plugin_json_schema E dir) [] tt) /\
  (fs_exists E (plugin_json_path dir) = false ->
   fs_exists E (marketplace_json_path dir) = false ->
   emits (check_plugin_json_schema E dir) [no_manifest (PurePath.name dir)] tt).
Proof.
  split; [intros items; apply schema_rule_on_object|]. split.
  - intros mkt Hpj Hm Hne. unfold check_plugin_json_schema.
    apply emits_lift_bind with (a := JNull); [now apply load_json_absent|].
    cbn [is_none]. apply emits_lift_bind with (a := mkt); [exact Hm|].
    destruct mkt; try apply emits_ret. contradiction.
  - intros Hpj Hm. unfold check_plugin_json_schema.
    apply emits_lift_bind with (a := JNull); [now apply load_json_absent|].
    cbn [is_none]. apply emits_lift_bind with (a := JNull); [now apply load_json_absent|].
    apply emits_append.
Qed.

Lemma manifest_schema_rule_witness :
  check_plugin_json_schema (Example.env_of Example.schema_disk) Example.sigil []
  = ([missing_field "sigil" "author"; missing_field "sigil" "license";
      name_mismatch "sigil" "sigil-plugin"], Ok tt) /\
  check_plugin_json_schema (Example.env_of Example.schema_disk) Example.listing_only []
  = ([], Ok tt) /\
  check_plugin_json_schema (Example.env_of Example.schema_disk) Example.bare []
  = ([no_manifest "bare"], Ok tt).
Proof.
  split; [|split].
  - exact (proj1 (manifest_schema_rule (Example.env_of Example.schema_disk) Example.sigil)
                 Example.sigil_manifest eq_refl []).
  - exact (proj1 (proj2 (manifest_schema_rule (Example.env_of Example.schema_disk)
                                              Example.listing_only))
                 (JObj [("plugins", JArr [])]) eq_refl eq_refl ltac:(discriminate) []).
  - exact (proj2 (proj2 (manifest_schema_rule (Example.env_of Example.schema_disk)
                                              Example.bare))
                 eq_refl eq_refl []).
Defined.

(** ** C5: the component declaration rule *)

Lemma emits_for_each_map {A B} (f : A -> B) (l : list A) (body : B -> M unit)
    (g : A -> list Finding) :
  (forall x, In x l -> emits (body (f x)) (g x) tt) ->
  emits (for_each (map f l) body) (flat_map g l) tt.
Proof.
  induction l as [|x l IH]; intros H; simpl.
  - apply emits_ret.
  - apply emits_bind with (a := tt).
    + apply H; now left.
    + apply IH; intros y Hy; apply H; now right.
Qed.

Lemma all_str_map ps :
  forallb Py.is_str ps = true ->
  ps = map JStr (flat_map (fun p => match p with JStr s => [s] | _ => [] end) ps).
Proof.
  induction ps as [|p ps IH]; [reflexivity|]. simpl.
  destruct p; simpl; try discriminate. intros H. now rewrite <- IH.
Qed.

Lemma declared_get entry component_type :
  entry_shaped entry = true -> In component_type component_types ->
  Py.get entry component_type (JArr []) = Ok (JArr (map JStr (declared entry component_type))).
Proof.
  destruct entry as [| | | | | |e]; try discriminate. intros Hs Hin.
  unfold entry_shaped in Hs. rewrite forallb_forall in Hs. specialize (Hs _ Hin).
  unfold declared. cbn [Py.get].
  destruct (Py.dict_lookup component_type e) as [[| | | | |ps|]|]; try discriminate;
    [|reflexivity].
  now rewrite <- all_str_map.
Qed.

Lemma paths_testable_entry E dir mkt entry :
  paths_testable E dir mkt = true -> In entry (listing_entries mkt) ->
  entry_testable E dir entry.
Proof.
  unfold paths_testable. rewrite forallb_forall. intros H Hin ct s Hct Hs.
  specialize (H _ Hin). rewrite forallb_forall in H. specialize (H _ Hct).
  rewrite forallb_forall in H. specialize (H _ Hs). cbn zeta in H.
  apply andb_true_iff in H as [H1 H2].
  destruct (fs_exists_error E (PurePath.join dir s)); [discriminate|].
  destruct (fs_resolve_error E (PurePath.join dir s)); [discriminate|].
  now split.
Qed.

Lemma any_resolves_to_declared E dir dp l :
  (forall s, In s l -> fs_resolve_error E (PurePath.join dir s) = None) ->
  any_resolves_to E dir dp (map JStr l) = Ok (existsb (resolves_to E dir dp) l).
Proof.
  induction l as [|s l IH]; intros H; [reflexivity|].
  cbn [map any_resolves_to existsb]. unfold path_resolve.
  rewrite (H s (or_introl eq_refl)). cbn [rbind]. unfold resolves_to at 1.
  destruct (PurePath.eqb _ _); [reflexivity|].
  apply IH. intros x Hx. apply H. now right.
Qed.

Lemma entry_rule E dir entry :
  entry_shaped entry = true ->
  entry_testable E dir entry ->
  emits
    (bind (for_each component_types (fun component_type =>
             bind (lift (Py.get entry component_type (JArr []))) (fun declared =>
             bind (lift (Py.iter declared)) (fun paths =>
             for_each paths (fun path_str =>
               match path_str with
               | JStr s =>
                   let component_path := PurePath.join dir s in
                   bind (lift (path_exists E component_path)) (fun found =>
                   when (negb found)
                     (append (new_Finding "HIGH" (JStr (PurePath.name dir))
                                ("marketplace.json declares " ++ component_type ++ ": "
                                 ++ Py.repr_str s ++ " but path does not exist") None)))
               | _ => lift (Raise TypeError)
               end))))) (fun _ =>
     bind (for_each component_types (fun component_type =>
             bind (lift (Py.get entry component_type (JArr []))) (fun declared =>
             bind (lift (Py.iter declared)) (fun paths =>
             for_each paths (fun path_str =>
               match path_str with
               | JStr s =>
                   when (PurePath.is_absolute (PurePath.parse s))
                     (append (new_Finding "HIGH" (JStr (PurePath.name dir))
                                ("marketplace.json " ++ component_type
                                 ++ " has absolute path: " ++ Py.repr_str s) None))
               | _ => lift (Raise TypeError)
               end))))) (fun _ =>
     for_each conventional_dirs (fun '(component_type, dir_name) =>
       let dir_path := PurePath.join dir dir_name in
       when (fs_exists E dir_path && fs_is_dir E dir_path)
         (bind (lift (Py.get entry component_type (JArr []))) (fun declared =>
          bind (lift (Py.iter declared)) (fun paths =>
          bind (lift (any_resolves_to E dir dir_path paths)) (fun matching =>
          when (negb matching)
            (append (new_Finding "MEDIUM" (JStr (PurePath.name dir))
                       (dir_name
                        ++ "/ directory exists but not declared in marketplace.json "
                        ++ component_type) None))))))))))
    (entry_findings E dir entry) tt.
Proof.
  intros Hs Ht. unfold entry_findings.
  apply emits_bind with (a := tt); [|apply emits_bind with (a := tt)].
  - apply emits_for_each. intros ct Hct.
    apply emits_lift_bind with (a := JArr (map JStr (declared entry ct)));
      [now apply declared_get|].
    apply emits_lift_bind with (a := map JStr (declared entry ct)); [reflexivity|].
    apply emits_for_each_map. intros s Hin. cbn zeta.
    apply emits_lift_bind with (a := fs_exists E (PurePath.join dir s)).
    { unfold path_exists. now rewrite (proj1 (Ht ct s Hct Hin)). }
    destruct (fs_exists E (PurePath.join dir s)); cbn [negb when];
      [apply emits_ret | apply emits_append].
  - apply emits_for_each. intros ct Hct.
    apply emits_lift_bind with (a := JArr (map JStr (declared entry ct)));
      [now apply declared_get|].
    apply emits_lift_bind with (a := map JStr (declared entry ct)); [reflexivity|].
    apply emits_for_each_map. intros s _.
    destruct (PurePath.is_absolute (PurePath.parse s)); cbn [when];
      [apply emits_append | apply emits_ret].
  - apply emits_for_each. intros [ct dn] Hin. cbn zeta.
    assert (Hct : In ct component_types).
    { unfold conventional_dirs in Hin. simpl in Hin. unfold component_types. simpl.
      destruct Hin as [H|[H|[H|[H|[]]]]]; injection H as <- _; tauto. }
    destruct (fs_exists E (PurePath.join dir dn) && fs_is_dir E (PurePath.join dir dn));
      cbn [andb when]; [|apply emits_ret].
    apply emits_lift_bind with (a := JArr (map JStr (declared entry ct)));
      [now apply declared_get|].
    apply emits_lift_bind with (a := map JStr (declared entry ct)); [reflexivity|].
    apply emits_lift_bind with
      (a := existsb (resolves_to E dir (PurePath.join dir dn)) (declared entry ct)).
    { apply any_resolves_to_declared. intros s Hin'. exact (proj2 (Ht ct s Hct Hin')). }
    destruct (existsb _ _); cbn [negb when]; [apply emits_ret | apply emits_append].
Qed.

Lemma shaped_listing_emits E dir mkt :
  get_marketplace_json E dir = Ok mkt ->
  listing_shaped mkt = true ->
  paths_testable E dir mkt = true ->
  emits (check_marketplace_components E dir)
        (flat_map (entry_findings E dir) (listing_entries mkt)) tt.
Proof.
  intros Hm Hs Ht. unfold check_marketplace_components.
  apply emits_lift_bind with (a := mkt); [exact Hm|].
  assert (Hte := fun entry => @paths_testable_entry E dir mkt entry Ht). clear Ht.
  destruct mkt as [| | | | | |d]; try discriminate. cbn [is_none].
  unfold listing_shaped in Hs. unfold listing_entries in *.
  apply emits_lift_bind with
    (a := match Py.dict_lookup "plugins" d with Some v => v | None => JArr [] end);
    [reflexivity|].
  destruct (Py.dict_lookup "plugins" d) as [[| | | | |entries|]|]; try discriminate.
  - apply emits_lift_bind with (a := entries); [reflexivity|].
    apply emits_for_each. intros entry Hin.
    rewrite forallb_forall in Hs. apply entry_rule; [now apply Hs | now apply Hte].
  - apply emits_lift_bind with (a := []); [reflexivity|]. apply emits_ret.
Qed.

Lemma entry_findings_missing E dir entry ct s :
  In ct component_types -> In s (declared entry ct) ->
  fs_exists E (PurePath.join dir s) = false ->
  In (path_missing (PurePath.name dir) ct s) (entry_findings E dir entry).
Proof.
  intros Hct Hs He. unfold entry_findings. apply in_or_app. left.
  apply in_flat_map. exists ct. split; [exact Hct|].
  apply in_flat_map. exists s. split; [exact Hs|]. rewrite He. now left.
Qed.

Lemma entry_findings_absolute E dir entry ct s :
  In ct component_types -> In s (declared entry ct) ->
  PurePath.is_absolute (PurePath.parse s) = true ->
  In (path_absolute (PurePath.name dir) ct s) (entry_findings E dir entry).
Proof.
  intros Hct Hs Ha. unfold entry_findings. apply in_or_app. right.
  apply in_or_app. left.
  apply in_flat_map. exists ct. split; [exact Hct|].
  apply in_flat_map. exists s. split; [exact Hs|]. rewrite Ha. now left.
Qed.

Lemma entry_findings_undeclared E dir entry ct :
  In ct component_types ->
  fs_exists E (PurePath.join dir ct) = true ->
  fs_is_dir E (PurePath.join dir ct) = true ->
  existsb (resolves_to E dir (PurePath.join dir ct)) (declared entry ct) = false ->
  In (dir_undeclared (PurePath.name dir) ct ct) (entry_findings E dir entry).
Proof.
  intros Hct He Hd Hr. unfold entry_findings. apply in_or_app. right.
  apply in_or_app. right.
  apply in_flat_map. exists (ct, ct). split.
  - unfold component_types in Hct. unfold conventional_dirs. simpl in *.
    destruct Hct as [<-|[<-|[<-|[<-|[]]]]]; tauto.
  - cbn zeta. rewrite He, Hd, Hr. now left.
Qed.

Lemma foo_example E dir :
  fs_exists E (PurePath.join dir "skills/foo.md") = false ->
  filter (has_severity "HIGH")
    (flat_map (entry_findings E dir)
       (listing_entries
          (JObj [("plugins", JArr [JObj [("skills", JArr [JStr "skills/foo.md"])]])])))
  = [path_missing (PurePath.name dir) "skills" "skills/foo.md"].
Proof.
  intros He. cbn [listing_entries Py.dict_lookup String.eqb Ascii.eqb Bool.eqb flat_map].
  rewrite app_nil_r. unfold entry_findings, component_types, conventional_dirs.
  cbn [flat_map declared Py.dict_lookup String.eqb Ascii.eqb Bool.eqb app existsb].
  rewrite He.
  change (PurePath.is_absolute (PurePath.parse "skills/foo.md")) with false.
  cbn [app negb andb]. rewrite !andb_true_r.
  unfold resolves_to.
  repeat match goal with
         | |- context [if ?b then [dir_undeclared _ _ _] else []] => destruct b
         end; reflexivity.
Qed.

(** C5. For a unit whose component-declaration manifest is well shaped
    and whose declared paths the file system can test, the rule appends,
    entry by entry of the listing: one HIGH finding naming category and
    path for every path the entry declares that does not exist, one HIGH
    finding for every path it declares that is absolute whether it exists
    or not, and one MEDIUM finding for every category whose conventional
    directory exists while no path that the entry declares for the category
    resolves to it; a listing without entries gets no finding.  A listing
    that declares the only skill [skills/foo.md], absent from disk, gets
    exactly one HIGH finding, which names [skills] and that path. *)
Theorem components_rule (E : Env) (dir : Path) (mkt : json) :
  get_marketplace_json E dir = Ok mkt ->
  listing_shaped mkt = true ->
  paths_testable E dir mkt = true ->
  emits (check_marketplace_components E dir)
        (flat_map (entry_findings E dir) (listing_entries mkt)) tt /\
  (listing_entries mkt = [] -> emits (check_marketplace_components E dir) [] tt) /\
  (forall entry ct s,
     In ct component_types -> In s (declared entry ct) ->
     fs_exists E (PurePath.join dir s) = false ->
     In (path_missing (PurePath.name dir) ct s) (entry_findings E dir entry)) /\
  (forall entry ct s,
     In ct component_types -> In s (declared entry ct) ->
     PurePath.is_absolute (PurePath.parse s) = true ->
     In (path_absolute (PurePath.name dir) ct s) (entry_findings E dir entry)) /\
  (forall entry ct,
     In ct component_types ->
     fs_exists E (PurePath.join dir ct) = true ->
     fs_is_dir E (PurePath.join dir ct) = true ->
     existsb (resolves_to E dir (PurePath.join dir ct)) (declared entry ct) = false ->
     In (dir_undeclared (PurePath.name dir) ct ct) (entry_findings E dir entry)) /\
  (mkt = JObj [("plugins", JArr [JObj [("skills", JArr [JStr "skills/foo.md"])]])] ->
   fs_exists E (PurePath.join dir "skills/foo.md") = false ->
   filter (has_severity "HIGH") (flat_map (entry_findings E dir) (listing_entries mkt))
   = [path_missing (PurePath.name dir) "skills" "skills/foo.md"]).
Proof.
  intros Hm Hs Ht.
  assert (Hall := @shaped_listing_emits E dir mkt Hm Hs Ht).
  split; [exact Hall|].
  split; [intros Hnil; now rewrite Hnil in Hall|].
  split; [intros; now apply entry_findings_missing|].
  split; [intros; now apply entry_findings_absolute|].
  split; [intros; now apply entry_findings_undeclared|].
  intros -> He. now apply foo_example.
Qed.

(** The listing of [kiln] declares an absent skill, a skill at an
    absolute path that exists, and its hooks. *)
Lemma components_rule_witness :
  check_marketplace_components (Example.env_of Example.kiln_disk) Example.kiln []
  = ([path_missing "kiln" "skills" "skills/foo.md";
      path_absolute "kiln" "skills" "/opt/skills";
      dir_undeclared "kiln" "skills" "skills"], Ok tt) /\
  In (path_absolute "kiln" "skills" "/opt/skills")
     (entry_findings (Example.env_of Example.kiln_disk) Example.kiln
        (JObj [("skills", JArr [JStr "skills/foo.md"; JStr "/opt/skills"]);
               ("hooks", JArr [JStr "./hooks/"])])).
Proof.
  destruct (components_rule (Example.env_of Example.kiln_disk) Example.kiln
              (mkt := Example.kiln_listing) eq_refl eq_refl eq_refl)
    as [Hall [_ [_ [Habs _]]]].
  split; [exact (Hall [])|].
  apply Habs; [left; reflexivity | right; left; reflexivity | reflexivity].
Defined.

(** The unit [slate] has a [skills] directory and a listing without
    entries: none of its declared paths resolves to the directory, and the
    rule makes no MEDIUM finding, as the test sits in the loop over the
    entries. *)
Lemma components_per_unit_counterexample :
  ~ (get_marketplace_json (Example.env_of Example.slate_disk) Example.slate
     = Ok Example.empty_listing ->
     fs_exists (Example.env_of Example.slate_disk) (PurePath.join Example.slate "skills")
     = true ->
     fs_is_dir (Example.env_of Example.slate_disk) (PurePath.join Example.slate "skills")
     = true ->
     existsb (resolves_to (Example.env_of Example.slate_disk) Example.slate
                (PurePath.join Example.slate "skills"))
             (unit_declared Example.empty_listing "skills") = false ->
     exists f,
       In f (fst (check_marketplace_components (Example.env_of Example.slate_disk)
                    Example.slate []))
       /\ severity f = "MEDIUM").
Proof.
  intros H. destruct (H eq_refl eq_refl eq_refl eq_refl) as [f [Hin _]].
  vm_compute in Hin. exact Hin.
Qed.

(** A declared path that the file system cannot test ends the rule: a
    name that is too long, before anything is appended; a path that cannot
    be resolved, after the findings of the first two passes. *)
Lemma untestable_paths_raise :
  check_marketplace_components
    (Example.with_errors (Example.env_of Example.kiln_disk)
       (fun p => if PurePath.eqb p (PurePath.join Example.kiln "skills/foo.md")
                 then Some OSError else None)
       (fun _ => None))
    Example.kiln []
  = ([], Raise OSError) /\
  check_marketplace_components
    (Example.with_errors (Example.env_of Example.kiln_disk)
       (fun _ => None)
       (fun p => if PurePath.eqb p (PurePath.join Example.kiln "skills/foo.md")
                 then Some ValueError else None))
    Example.kiln []
  = ([path_missing "kiln" "skills" "skills/foo.md";
      path_absolute "kiln" "skills" "/opt/skills"], Raise ValueError).
Proof. split; reflexivity. Qed.

(** ** C6: the listing symmetry rule *)

Lemma existsb_eqb_In n l : existsb (String.eqb n) l = true <-> In n l.
Proof.
  rewrite existsb_exists. split.
  - intros [x [Hx He]]. apply String.eqb_eq in He. now subst.
  - intros H. exists n. split; [exact H | apply String.eqb_refl].
Qed.

Lemma add_names_In names : forall acc x,
  In x (add_names names acc) <-> In x names \/ In x acc.
Proof.
  induction names as [|n names IH]; intros acc x; simpl; [tauto|].
  rewrite IH. destruct (existsb (String.eqb n) acc) eqn:Ee.
  - apply existsb_eqb_In in Ee. split; [tauto|].
    intros [[<-|H]|H]; auto.
  - rewrite in_app_iff. simpl. tauto.
Qed.

Lemma add_names_NoDup names : forall acc, NoDup acc -> NoDup (add_names names acc).
Proof.
  induction names as [|n names IH]; intros acc Hacc; simpl; [exact Hacc|].
  apply IH. destruct (existsb (String.eqb n) acc) eqn:Ee; [exact Hacc|].
  apply NoDup_app; [exact Hacc | repeat constructor; intros [] |].
  intros x Hx [<-|[]]. apply existsb_eqb_In in Hx. congruence.
Qed.

Lemma set_mem_str n l : set_mem (JStr n) (map JStr l) = existsb (String.eqb n) l.
Proof.
  unfold set_mem. induction l as [|x l IH]; [reflexivity|]. simpl.
  rewrite IH. now rewrite (String.eqb_sym x n).
Qed.

Lemma collect_names_shaped entries : forall acc,
  forallb (fun entry => is_some (entry_name entry)) entries = true ->
  collect_names entries (map JStr acc)
  = Ok (map JStr (add_names
                    (flat_map (fun entry => match entry_name entry with
                                            | Some n => [n] | None => [] end) entries)
                    acc)).
Proof.
  induction entries as [|e entries IH]; intros acc Hs; [reflexivity|].
  simpl in Hs. apply andb_true_iff in Hs as [He Hs].
  cbn [collect_names flat_map].
  unfold entry_name in *. destruct e as [| | | | | |d]; try discriminate.
  cbn [Py.getitem].
  destruct (Py.dict_lookup "name" d) as [[| | | |n| |]|]; try discriminate.
  cbn [rbind app]. unfold set_add. cbn [Py.hashable]. rewrite set_mem_str.
  cbn [rbind add_names].
  destruct (existsb (String.eqb n) acc).
  - now apply IH.
  - replace (map JStr acc ++ [JStr n]) with (map JStr (acc ++ [n]))
      by (now rewrite map_app).
    now apply IH.
Qed.

Lemma set_difference_str a b :
  set_difference (map JStr a) (map JStr b)
  = map JStr (filter (fun n => negb (existsb (String.eqb n) b)) a).
Proof.
  unfold set_difference. induction a as [|x a IH]; [reflexivity|].
  simpl. rewrite set_mem_str, IH. now destruct (existsb (String.eqb x) b).
Qed.

Lemma emits_for_each_append {A} (l : list A) (f : A -> Finding) :
  emits (for_each l (fun x => append (f x))) (map f l) tt.
Proof.
  replace (map f l) with (flat_map (fun x => [f x]) l)
    by (induction l; simpl; congruence).
  apply emits_for_each. intros x _. apply emits_append.
Qed.

Lemma Permutation_filter_compat {A} (p : A -> bool) (l m : list A) :
  Permutation l m -> Permutation (filter p l) (filter p m).
Proof.
  induction 1 as [|x l m _ IH|x y l|l m n _ IH1 _ IH2]; simpl.
  - constructor.
  - destruct (p x); [now constructor | exact IH].
  - destruct (p x), (p y); try apply Permutation_refl. apply perm_swap.
  - eapply Permutation_trans; eassumption.
Qed.

Lemma filter_eqb_NoDup n (l : list string) :
  NoDup l ->
  filter (fun x => String.eqb x n) l = if existsb (String.eqb n) l then [n] else [].
Proof.
  induction 1 as [|x l Hx _ IH]; [reflexivity|]. simpl.
  rewrite (String.eqb_sym n x). destruct (String.eqb_spec x n) as [->|Hne]; simpl.
  - rewrite IH. destruct (existsb (String.eqb n) l) eqn:Ee; [|reflexivity].
    apply existsb_eqb_In in Ee. contradiction.
  - exact IH.
Qed.

(** Among the findings made for the members of a set of names, whatever
    the order the set hands them out in, exactly one is about a name of the
    set and none is about any other name. *)
Lemma filter_about_set (mk : json -> Finding) (order : list json) (names : list string) n :
  (forall v, plugin (mk v) = v) ->
  Permutation order (map JStr names) -> NoDup names ->
  filter (about n) (map mk order)
  = if existsb (String.eqb n) names then [mk (JStr n)] else [].
Proof.
  intros Hmk Hperm Hnd.
  assert (E1 : filter (about n) (map mk order)
               = map mk (filter (fun v => Py.eqb v (JStr n)) order)).
  { clear Hperm. induction order as [|v order IH]; [reflexivity|]. simpl.
    unfold about at 1. rewrite Hmk. destruct (Py.eqb v (JStr n)); simpl; now rewrite IH. }
  rewrite E1.
  pose proof (Permutation_filter_compat (fun v => Py.eqb v (JStr n)) Hperm) as Hp.
  assert (E2 : filter (fun v => Py.eqb v (JStr n)) (map JStr names)
               = map JStr (filter (fun x => String.eqb x n) names)).
  { clear. induction names as [|x names IH]; [reflexivity|]. simpl.
    destruct (String.eqb x n); simpl; now rewrite IH. }
  rewrite E2, (filter_eqb_NoDup n Hnd) in Hp.
  destruct (existsb (String.eqb n) names); simpl in Hp.
  - apply Permutation_sym, Permutation_length_1_inv in Hp. now rewrite Hp.
  - apply Permutation_sym, Permutation_nil in Hp. now rewrite Hp.
Qed.

Lemma names_shaped_entries listing :
  names_shaped listing = true ->
  Py.truthy listing = true /\
  Py.get listing "plugins" (JArr []) = Ok (JArr (listing_entries listing)) /\
  forallb (fun entry => is_some (entry_name entry)) (listing_entries listing) = true.
Proof.
  unfold names_shaped. intros H. apply andb_true_iff in H as [Ht H].
  split; [exact Ht|]. destruct listing as [| | | | | |d]; try discriminate.
  unfold listing_entries. cbn [Py.get].
  destruct (Py.dict_lookup "plugins" d) as [[| | | | |entries|]|]; try discriminate;
    now split.
Qed.

Lemma unique_names_In listing n : In n (unique_names listing) <-> In n (listing_names listing).
Proof. unfold unique_names. rewrite add_names_In. simpl. tauto. Qed.

Lemma existsb_difference n a b :
  existsb (String.eqb n) (filter (fun x => negb (existsb (String.eqb x) b)) a) = true
  <-> In n a /\ ~ In n b.
Proof.
  rewrite existsb_eqb_In, filter_In, negb_true_iff.
  split; intros [H1 H2]; split; try exact H1.
  - intros H. apply existsb_eqb_In in H. congruence.
  - destruct (existsb (String.eqb n) b) eqn:Ee; [|reflexivity].
    apply existsb_eqb_In in Ee. contradiction.
Qed.

Lemma symmetry_rule_shaped E site emporium :
  load_json E (SITE_MARKETPLACE E) = Ok site ->
  load_json E (EMPORIUM_MARKETPLACE E) = Ok emporium ->
  names_shaped site = true -> names_shaped emporium = true ->
  emits (check_emporium_vs_site E)
    (map (fun name => new_Finding "HIGH" name
                        "Plugin in emporium but missing from skill7.dev" None)
         (set_order E (map JStr (filter (fun x => negb (existsb (String.eqb x)
                                                          (unique_names site)))
                                        (unique_names emporium))))
     ++ map (fun name => new_Finding "HIGH" name
                           "Plugin on skill7.dev but missing from emporium" None)
            (set_order E (map JStr (filter (fun x => negb (existsb (String.eqb x)
                                                             (unique_names emporium)))
                                           (unique_names site))))) tt.
Proof.
  intros Hs He Hss Hse.
  destruct (names_shaped_entries _ Hss) as [Hts [Hgs Hfs]].
  destruct (names_shaped_entries _ Hse) as [Hte [Hge Hfe]].
  unfold check_emporium_vs_site.
  apply emits_lift_bind with (a := site); [exact Hs|].
  apply emits_lift_bind with (a := emporium); [exact He|].
  rewrite Hts, Hte. cbn [negb orb].
  apply emits_lift_bind with (a := JArr (listing_entries site)); [exact Hgs|].
  apply emits_lift_bind with (a := listing_entries site); [reflexivity|].
  apply emits_lift_bind with (a := map JStr (unique_names site));
    [exact (collect_names_shaped _ [] Hfs)|].
  apply emits_lift_bind with (a := JArr (listing_entries emporium)); [exact Hge|].
  apply emits_lift_bind with (a := listing_entries emporium); [reflexivity|].
  apply emits_lift_bind with (a := map JStr (unique_names emporium));
    [exact (collect_names_shaped _ [] Hfe)|].
  rewrite !set_difference_str.
  apply emits_bind with (a := tt); apply emits_for_each_append.
Qed.

(** C6. Given two usable marketplace listings, and whatever the order in
    which the two set differences are walked, the listing symmetry rule
    appends only HIGH findings: exactly one about each name listed by the
    emporium and not by the site, exactly one about each name listed by
    the site and not by the emporium, and none about a name both list. *)
Theorem listing_symmetry_rule (E : Env) (site emporium : json) :
  (forall names, Permutation (set_order E names) names) ->
  load_json E (SITE_MARKETPLACE E) = Ok site ->
  load_json E (EMPORIUM_MARKETPLACE E) = Ok emporium ->
  names_shaped site = true -> names_shaped emporium = true ->
  exists new,
    emits (check_emporium_vs_site E) new tt /\
    Forall (fun f => severity f = "HIGH") new /\
    forall name,
      (In name (listing_names emporium) -> ~ In name (listing_names site) ->
       filter (about name) new = [missing_from_site name]) /\
      (In name (listing_names site) -> ~ In name (listing_names emporium) ->
       filter (about name) new = [missing_from_emporium name]) /\
      (In name (listing_names site) -> In name (listing_names emporium) ->
       filter (about name) new = []).
Proof.
  intros Hord Hs He Hss Hse. eexists.
  split; [apply symmetry_rule_shaped with (site := site) (emporium := emporium); assumption|].
  split.
  { apply Forall_app; split; apply Forall_forall; intros f Hf;
      apply in_map_iff in Hf as [v [<- _]]; reflexivity. }
  intros name.
  set (d1 := filter (fun x => negb (existsb (String.eqb x) (unique_names site)))
                    (unique_names emporium)).
  set (d2 := filter (fun x => negb (existsb (String.eqb x) (unique_names emporium)))
                    (unique_names site)).
  assert (N1 : NoDup d1) by (apply NoDup_filter, add_names_NoDup; constructor).
  assert (N2 : NoDup d2) by (apply NoDup_filter, add_names_NoDup; constructor).
  rewrite filter_app.
  rewrite (filter_about_set
             (fun v => new_Finding "HIGH" v
                         "Plugin in emporium but missing from skill7.dev" None)
             name (fun v => eq_refl) (Hord (map JStr d1)) N1).
  rewrite (filter_about_set
             (fun v => new_Finding "HIGH" v
                         "Plugin on skill7.dev but missing from emporium" None)
             name (fun v => eq_refl) (Hord (map JStr d2)) N2).
  pose proof (existsb_difference name (unique_names emporium) (unique_names site)) as X1.
  pose proof (existsb_difference name (unique_names site) (unique_names emporium)) as X2.
  fold d1 in X1. fold d2 in X2. rewrite !unique_names_In in X1, X2.
  destruct (existsb (String.eqb name) d1) eqn:E1, (existsb (String.eqb name) d2) eqn:E2;
    repeat split; intros Ha Hb; try reflexivity;
    try (exfalso; tauto);
    try (assert (true = true) as Ht by reflexivity;
         first [apply X1 in Ht | apply X2 in Ht]; exfalso; tauto);
    try (assert (false = true) by (first [apply X1 | apply X2]; tauto); discriminate).
Qed.

Lemma listing_symmetry_rule_witness :
  exists new,
    emits (check_emporium_vs_site (Example.env_of Example.market_disk)) new tt /\
    Forall (fun f => severity f = "HIGH") new /\
    forall name,
      (In name (listing_names Example.emporium_listing) ->
       ~ In name (listing_names Example.site_listing) ->
       filter (about name) new = [missing_from_site name]) /\
      (In name (listing_names Example.site_listing) ->
       ~ In name (listing_names Example.emporium_listing) ->
       filter (about name) new = [missing_from_emporium name]) /\
      (In name (listing_names Example.site_listing) ->
       In name (listing_names Example.emporium_listing) ->
       filter (about name) new = []).
Proof.
  apply (listing_symmetry_rule (Example.env_of Example.market_disk)
           (site := Example.site_listing) (emporium := Example.emporium_listing)).
  - intros names. apply Permutation_refl.
  - reflexivity.
  - reflexivity.
  - reflexivity.
  - reflexivity.
Defined.

(** ** C7: the metadata completeness rule *)

Lemma dict_lookup_In {V} k (d : list (string * V)) v :
  Py.dict_lookup k d = Some v -> exists k', In (k', v) d.
Proof.
  induction d as [|[k' v'] d IH]; simpl; [discriminate|].
  destruct (String.eqb k k').
  - intros H. injection H as ->. exists k'. now left.
  - intros H. destruct (IH H) as [k'' Hin]. exists k''. now right.
Qed.

Lemma meta_shaped_plugins meta :
  meta_shaped meta = true ->
  Py.truthy meta = true /\
  exists entries,
    Py.get meta "plugins" (JObj []) = Ok (JObj entries) /\
    (forall name, site_entry meta name = Py.dict_lookup name entries) /\
    (forall name v, Py.dict_lookup name entries = Some v -> exists e, v = JObj e).
Proof.
  unfold meta_shaped. intros H. apply andb_true_iff in H as [Ht H].
  split; [exact Ht|]. destruct meta as [| | | | | |d]; try discriminate.
  unfold site_entry. cbn [Py.get].
  destruct (Py.dict_lookup "plugins" d) as [[| | | | | |entries]|]; try discriminate.
  - exists entries. split; [reflexivity|]. split; [reflexivity|].
    intros name v Hl. apply dict_lookup_In in Hl as [k Hin].
    rewrite forallb_forall in H. specialize (H _ Hin). simpl in H.
    destruct v; try discriminate. eauto.
  - exists []. split; [reflexivity|]. split; [reflexivity|]. discriminate.
Qed.

Lemma completeness_entry entries meta (p : json) n :
  (forall name, site_entry meta name = Py.dict_lookup name entries) ->
  (forall name v, Py.dict_lookup name entries = Some v -> exists e, v = JObj e) ->
  entry_name p = Some n ->
  emits
    (bind (lift (Py.getitem p (JStr "name"))) (fun name =>
     bind (lift (Py.contains name (JObj entries))) (fun listed =>
     if negb listed then
       append (new_Finding "HIGH" name
                 "Plugin in marketplace.json but missing from plugin-meta.json" None)
     else
       bind (lift (Py.getitem (JObj entries) name)) (fun entry =>
       bind (lift (Py.get entry "version" JNull)) (fun version =>
       bind (when (negb (Py.truthy version))
               (append (new_Finding "MEDIUM" name "No version in plugin-meta.json" None)))
            (fun _ =>
       bind (lift (Py.get entry "tags" JNull)) (fun tags =>
       when (negb (Py.truthy tags))
         (append (new_Finding "LOW" name "No tags in plugin-meta.json" None)))))))))
    (completeness_findings meta n) tt.
Proof.
  intros Hentry Hobj Hn. unfold entry_name in Hn.
  destruct p as [| | | | | |d]; try discriminate.
  destruct (Py.dict_lookup "name" d) as [[| | | |n'| |]|] eqn:El; try discriminate.
  injection Hn as ->.
  apply emits_lift_bind with (a := JStr n); [cbn; now rewrite El|].
  apply emits_lift_bind with (a := Py.dict_has n entries); [reflexivity|].
  unfold completeness_findings. rewrite Hentry. unfold Py.dict_has.
  destruct (Py.dict_lookup n entries) as [v|] eqn:Ev; cbn [negb];
    [|apply emits_append].
  destruct (Hobj _ _ Ev) as [e ->].
  apply emits_lift_bind with (a := JObj e); [cbn; now rewrite Ev|].
  apply emits_lift_bind with (a := entry_field (JObj e) "version"); [reflexivity|].
  apply emits_bind with (a := tt).
  - unfold field_filled. destruct (Py.truthy _); cbn [negb when];
      [apply emits_ret | apply emits_append].
  - apply emits_lift_bind with (a := entry_field (JObj e) "tags"); [reflexivity|].
    unfold field_filled. destruct (Py.truthy _); cbn [negb when];
      [apply emits_ret | apply emits_append].
Qed.

Lemma emits_for_each_flat {A B} (l : list A) (body : A -> M unit)
    (names : A -> list B) (g : B -> list Finding) :
  (forall x, In x l -> emits (body x) (flat_map g (names x)) tt) ->
  emits (for_each l body) (flat_map g (flat_map names l)) tt.
Proof.
  induction l as [|x l IH]; intros H; simpl.
  - apply emits_ret.
  - rewrite flat_map_app. apply emits_bind with (a := tt).
    + apply H; now left.
    + apply IH; intros y Hy; apply H; now right.
Qed.

(** C7, as the code has it. For every name listed by a usable site
    listing, against a usable site index: a HIGH finding when the index
    has no entry for the name; otherwise a MEDIUM finding when the version
    of the entry is missing or holds nothing (null, empty), and a LOW
    finding when its tags are missing or hold nothing, each decided on its
    own; no finding for an entry whose version and tags both hold
    something. *)
Theorem metadata_completeness_rule (E : Env) (site site_meta : json) :
  load_json E (SITE_MARKETPLACE E) = Ok site ->
  load_json E (SITE_META E) = Ok site_meta ->
  names_shaped site = true ->
  meta_shaped site_meta = true ->
  emits (check_site_meta_completeness E)
        (flat_map (completeness_findings site_meta) (listing_names site)) tt /\
  (forall name,
     (site_entry site_meta name = None ->
      completeness_findings site_meta name = [missing_meta name]) /\
     (forall entry, site_entry site_meta name = Some entry ->
        completeness_findings site_meta name =
          (if field_filled entry "version" then [] else [no_version name])
          ++ (if field_filled entry "tags" then [] else [no_tags name])) /\
     (forall entry, site_entry site_meta name = Some entry ->
        field_filled entry "version" = true -> field_filled entry "tags" = true ->
        completeness_findings site_meta name = [])).
Proof.
  intros Hs Hm Hss Hms. split.
  - destruct (names_shaped_entries _ Hss) as [Hts [Hgs Hfs]].
    destruct (meta_shaped_plugins _ Hms) as [Htm [entries [Hge [Hent Hobj]]]].
    unfold check_site_meta_completeness.
    apply emits_lift_bind with (a := site); [exact Hs|].
    apply emits_lift_bind with (a := site_meta); [exact Hm|].
    rewrite Hts, Htm. cbn [negb orb].
    apply emits_lift_bind with (a := JObj entries); [exact Hge|].
    apply emits_lift_bind with (a := JArr (listing_entries site)); [exact Hgs|].
    apply emits_lift_bind with (a := listing_entries site); [reflexivity|].
    unfold listing_names. apply emits_for_each_flat. intros p Hp.
    rewrite forallb_forall in Hfs. specialize (Hfs _ Hp).
    destruct (entry_name p) as [n|] eqn:En; [|discriminate].
    simpl. rewrite app_nil_r.
    now apply completeness_entry with (entries := entries).
  - intros name. unfold completeness_findings. repeat split.
    + now intros ->.
    + now intros entry ->.
    + intros entry -> -> ->. reflexivity.
Qed.

Lemma metadata_completeness_rule_witness :
  check_site_meta_completeness (Example.env_of Example.market_disk) []
  = ([no_tags "shared"; missing_meta "y"], Ok tt).
Proof.
  exact (proj1 (metadata_completeness_rule (Example.env_of Example.market_disk)
                  (site := Example.site_listing) (site_meta := Example.site_index)
                  eq_refl eq_refl eq_refl eq_refl) []).
Defined.

(** The entry of [shared] has a version field and a tags field, its tags
    being the empty list, and the rule still makes a finding about it. *)
Lemma completeness_both_fields_counterexample :
  ~ (site_entry Example.site_index "shared" = Some (JObj Example.shared_entry) ->
     Py.dict_has "version" Example.shared_entry = true ->
     Py.dict_has "tags" Example.shared_entry = true ->
     filter (about "shared")
            (fst (check_site_meta_completeness (Example.env_of Example.market_disk) []))
     = []).
Proof.
  intros H. specialize (H eq_refl eq_refl eq_refl). vm_compute in H. discriminate.
Qed.

(** ** C9: a listing entry without a name or a description *)

Lemma raises_lift_bind {A B} (r : result A) (k : A -> M B) n a e :
  r = Ok a -> raises (k a) n e -> raises (bind (lift r) k) n e.
Proof.
  intros -> Hk. apply raises_bind_r with (n1 := []) (a := a); [apply emits_lift | exact Hk].
Qed.

Lemma raises_lift_raise {A B} (r : result A) (k : A -> M B) e :
  r = Raise e -> raises (bind (lift r) k) [] e.
Proof. intros ->. apply raises_bind_l, raises_lift. Qed.

Lemma raises_for_each {A} (good : list A) (bad : A) (more : list A)
    (body : A -> M unit) (g : A -> list Finding) n e :
  (forall x, In x good -> emits (body x) (g x) tt) ->
  raises (body bad) n e ->
  raises (for_each (good ++ bad :: more) body) (flat_map g good ++ n) e.
Proof.
  intros Hg Hb. induction good as [|x good IH]; simpl.
  - apply raises_bind_l. exact Hb.
  - rewrite <- app_assoc. apply raises_bind_r with (a := tt).
    + apply Hg; now left.
    + apply IH. intros y Hy. apply Hg. now right.
Qed.

Lemma dict_has_false {V} k (d : list (string * V)) :
  Py.dict_has k d = false -> Py.dict_lookup k d = None.
Proof. unfold Py.dict_has. now destruct (Py.dict_lookup k d). Qed.

Lemma collect_descs_raises good bad more :
  forallb complete_entry good = true ->
  Py.dict_has "name" bad && Py.dict_has "description" bad = false ->
  forall descs,
    collect_descs (good ++ JObj bad :: more) descs
    = Raise (KeyError (JStr (missing_key bad))).
Proof.
  intros Hg Hb. induction good as [|p good IH]; intros descs.
  - cbn [app collect_descs Py.getitem]. unfold missing_key, Py.dict_has in *.
    destruct (Py.dict_lookup "description" bad); cbn [rbind].
    + destruct (Py.dict_lookup "name" bad); [discriminate | reflexivity].
    + reflexivity.
  - simpl in Hg. apply andb_true_iff in Hg as [Hp Hg].
    cbn [app collect_descs].
    unfold complete_entry in Hp. destruct p as [| | | | | |d]; try discriminate.
    apply andb_true_iff in Hp as [Hn Hd]. unfold entry_name in Hn.
    unfold Py.dict_has in Hd. cbn [Py.getitem].
    destruct (Py.dict_lookup "description" d); [|discriminate].
    destruct (Py.dict_lookup "name" d) as [[| | | |n| |]|]; try discriminate.
    cbn [rbind]. unfold vdict_setitem. cbn [Py.hashable rbind]. now apply IH.
Qed.

Lemma collect_names_raises good bad more :
  forallb complete_entry good = true ->
  Py.dict_has "name" bad = false ->
  forall names,
    collect_names (good ++ JObj bad :: more) names = Raise (KeyError (JStr "name")).
Proof.
  intros Hg Hb. apply dict_has_false in Hb. induction good as [|p good IH]; intros names.
  - cbn [app collect_names Py.getitem]. now rewrite Hb.
  - simpl in Hg. apply andb_true_iff in Hg as [Hp Hg].
    cbn [app collect_names].
    unfold complete_entry in Hp. destruct p as [| | | | | |d]; try discriminate.
    apply andb_true_iff in Hp as [Hn _]. unfold entry_name in Hn. cbn [Py.getitem].
    destruct (Py.dict_lookup "name" d) as [[| | | |n| |]|]; try discriminate.
    cbn [rbind]. unfold set_add. cbn [Py.hashable rbind]. now apply IH.
Qed.

Lemma lookup_truthy d k v : Py.dict_lookup k d = Some v -> Py.truthy (JObj d) = true.
Proof. destruct d; [discriminate | reflexivity]. Qed.

Lemma complete_entry_name p : complete_entry p = true -> exists n, entry_name p = Some n.
Proof.
  unfold complete_entry. destruct p; try discriminate. intros H.
  apply andb_true_iff in H as [H _]. destruct (entry_name _); [eauto | discriminate].
Qed.

(** C9. When the site listing parses to an object whose [plugins] array
    holds, after entries that are complete, an object entry without a
    name or without a description, and the emporium listing is usable:
    the description rule raises a [KeyError] on the missing key before
    appending anything; if the name is what is missing, the symmetry rule
    and the completeness rule raise a [KeyError] on it as well; and a run
    of [main] whose per-plugin checks complete ends in that [KeyError],
    with nothing printed and no exit status. *)
Theorem listing_entry_without_key_raises (E : Env) (d : list (string * json))
    (good : list json) (bad : list (string * json)) (more : list json) (emporium : json) :
  load_json E (SITE_MARKETPLACE E) = Ok (JObj d) ->
  Py.dict_lookup "plugins" d = Some (JArr (good ++ JObj bad :: more)) ->
  forallb complete_entry good = true ->
  Py.dict_has "name" bad && Py.dict_has "description" bad = false ->
  load_json E (EMPORIUM_MARKETPLACE E) = Ok emporium ->
  Py.truthy emporium = true ->
  raises (check_description_consistency E) [] (KeyError (JStr (missing_key bad))) /\
  (Py.dict_has "name" bad = false ->
   raises (check_emporium_vs_site E) [] (KeyError (JStr "name"))) /\
  (Py.dict_has "name" bad = false ->
   forall site_meta,
     load_json E (SITE_META E) = Ok site_meta -> meta_shaped site_meta = true ->
     exists new, raises (check_site_meta_completeness E) new (KeyError (JStr "name"))) /\
  (forall json_mode PLUGIN_DIRS fs,
     per_plugin_checks E PLUGIN_DIRS [] = (fs, Ok tt) ->
     main E json_mode PLUGIN_DIRS = Raise (KeyError (JStr (missing_key bad)))).
Proof.
  intros Hs Hp Hg Hb He Hte.
  pose proof (lookup_truthy _ _ Hp) as Hts.
  assert (Hdesc : raises (check_description_consistency E) []
                         (KeyError (JStr (missing_key bad)))).
  { unfold check_description_consistency.
    apply raises_lift_bind with (a := JObj d); [exact Hs|].
    apply raises_lift_bind with (a := emporium); [exact He|].
    rewrite Hts, Hte. cbn [negb orb].
    apply raises_lift_bind with (a := JArr (good ++ JObj bad :: more));
      [cbn; now rewrite Hp|].
    apply raises_lift_bind with (a := good ++ JObj bad :: more); [reflexivity|].
    apply raises_lift_raise. now apply collect_descs_raises. }
  split; [exact Hdesc|]. split; [|split].
  - intros Hn. unfold check_emporium_vs_site.
    apply raises_lift_bind with (a := JObj d); [exact Hs|].
    apply raises_lift_bind with (a := emporium); [exact He|].
    rewrite Hts, Hte. cbn [negb orb].
    apply raises_lift_bind with (a := JArr (good ++ JObj bad :: more));
      [cbn; now rewrite Hp|].
    apply raises_lift_bind with (a := good ++ JObj bad :: more); [reflexivity|].
    apply raises_lift_raise. now apply collect_names_raises.
  - intros Hn site_meta Hm Hms.
    destruct (meta_shaped_plugins _ Hms) as [Htm [entries [Hge [Hent Hobj]]]].
    eexists. unfold check_site_meta_completeness.
    apply raises_lift_bind with (a := JObj d); [exact Hs|].
    apply raises_lift_bind with (a := site_meta); [exact Hm|].
    rewrite Hts, Htm. cbn [negb orb].
    apply raises_lift_bind with (a := JObj entries); [exact Hge|].
    apply raises_lift_bind with (a := JArr (good ++ JObj bad :: more));
      [cbn; now rewrite Hp|].
    apply raises_lift_bind with (a := good ++ JObj bad :: more); [reflexivity|].
    apply raises_for_each with
      (g := fun p => match entry_name p with
                     | Some n => completeness_findings site_meta n
                     | None => []
                     end).
    + intros p Hin. rewrite forallb_forall in Hg.
      destruct (complete_entry_name _ (Hg _ Hin)) as [n Hn'].
      rewrite Hn'. now apply completeness_entry with (entries := entries).
    + apply raises_lift_raise. cbn. now rewrite (dict_has_false _ _ Hn).
  - intros json_mode PLUGIN_DIRS fs Hpp. unfold main, run_checks.
    unfold bind at 1. rewrite Hpp. unfold bind at 1.
    specialize (Hdesc fs). rewrite Hdesc. reflexivity.
Qed.

Lemma listing_entry_without_key_raises_witness :
  main (Example.env_of Example.incomplete_disk) false []
  = Raise (KeyError (JStr "description")).
Proof.
  exact (proj2 (proj2 (proj2
           (listing_entry_without_key_raises (Example.env_of Example.incomplete_disk)
              (d := [("plugins",
                      JArr ([JObj [("name", JStr "herald");
                                   ("description", JStr "Daily digest")]]
                            ++ JObj Example.incomplete_entry :: []))])
              [JObj [("name", JStr "herald"); ("description", JStr "Daily digest")]]
              Example.incomplete_entry []
              (emporium := Example.emporium_listing)
              eq_refl eq_refl eq_refl eq_refl eq_refl eq_refl)))
           false [] [] eq_refl).
Defined.

(** ** C10: a source that parses to nothing *)

Lemma site_tail_skips E cache sm (k : json -> M unit) :
  site_meta_seen E cache = Ok sm -> Py.truthy sm = false ->
  emits (bind (if negb (is_none cache) then ret cache
               else lift (load_json E (SITE_META E)))
              (fun site_meta => when (Py.truthy site_meta) (k site_meta)))
        [] tt.
Proof.
  intros Hsm Ht. apply emits_bind_nil with (a := sm).
  - unfold site_meta_seen in Hsm. destruct (is_none cache); cbn [negb].
    + rewrite Hsm. apply emits_lift.
    + injection Hsm as <-. apply emits_ret.
  - rewrite Ht. apply emits_ret.
Qed.

Lemma bind_ext {A B} (m : M A) (k k' : A -> M B) :
  (forall a fs, k a fs = k' a fs) -> forall fs, bind m k fs = bind m k' fs.
Proof.
  intros H fs. unfold bind. destruct (m fs) as [fs' [a|e]]; [apply H | reflexivity].
Qed.

Lemma version_rule_falsy_index E1 E2 dir cache sm :
  get_plugin_json E1 dir = get_plugin_json E2 dir ->
  get_changelog_version E1 dir = get_changelog_version E2 dir ->
  site_meta_seen E1 cache = Ok sm -> Py.truthy sm = false ->
  fs_exists E2 (SITE_META E2) = false ->
  forall fs, check_version_consistency E1 dir cache fs
             = check_version_consistency E2 dir JNull fs.
Proof.
  intros Hpj Hcl Hsm Ht Habs.
  assert (Hsm2 : site_meta_seen E2 JNull = Ok JNull).
  { unfold site_meta_seen, load_json. cbn [is_none]. now rewrite Habs. }
  unfold check_version_consistency. rewrite Hpj, Hcl.
  apply bind_ext. intros pj fs1. destruct (is_none pj); [reflexivity|].
  revert fs1. apply bind_ext. intros cv fs2.
  destruct (negb (Py.is_str cv) || negb (Py.truthy cv)); [reflexivity|].
  revert fs2. apply bind_ext. intros cl fs3.
  revert fs3. apply bind_ext. intros _ fs4.
  rewrite (site_tail_skips E1 cache _ Hsm Ht fs4).
  rewrite (site_tail_skips E2 JNull _ Hsm2 eq_refl fs4).
  reflexivity.
Qed.

Lemma version_rule_hollow_manifest E dir cache pj :
  get_plugin_json E dir = Ok pj -> pj = JNull \/ pj = JObj [] ->
  emits (check_version_consistency E dir cache) [] tt.
Proof.
  intros Hpj [-> | ->].
  - unfold check_version_consistency.
    apply emits_lift_bind with (a := JNull); [exact Hpj | apply emits_ret].
  - apply version_rule_skips with (items := []); [exact Hpj | discriminate].
Qed.

Lemma description_rule_skips E a b :
  load_json E (SITE_MARKETPLACE E) = Ok a ->
  load_json E (EMPORIUM_MARKETPLACE E) = Ok b ->
  Py.truthy a = false \/ Py.truthy b = false ->
  emits (check_description_consistency E) [] tt.
Proof.
  intros Ha Hb Hf. unfold check_description_consistency.
  apply emits_lift_bind with (a := a); [exact Ha|].
  apply emits_lift_bind with (a := b); [exact Hb|].
  destruct Hf as [-> | ->]; [|rewrite orb_true_r]; apply emits_ret.
Qed.

Lemma symmetry_rule_skips E a b :
  load_json E (SITE_MARKETPLACE E) = Ok a ->
  load_json E (EMPORIUM_MARKETPLACE E) = Ok b ->
  Py.truthy a = false \/ Py.truthy b = false ->
  emits (check_emporium_vs_site E) [] tt.
Proof.
  intros Ha Hb Hf. unfold check_emporium_vs_site.
  apply emits_lift_bind with (a := a); [exact Ha|].
  apply emits_lift_bind with (a := b); [exact Hb|].
  destruct Hf as [-> | ->]; [|rewrite orb_true_r]; apply emits_ret.
Qed.

Lemma completeness_rule_skips E a b :
  load_json E (SITE_MARKETPLACE E) = Ok a ->
  load_json E (SITE_META E) = Ok b ->
  Py.truthy a = false \/ Py.truthy b = false ->
  emits (check_site_meta_completeness E) [] tt.
Proof.
  intros Ha Hb Hf. unfold check_site_meta_completeness.
  apply emits_lift_bind with (a := a); [exact Ha|].
  apply emits_lift_bind with (a := b); [exact Hb|].
  destruct Hf as [-> | ->]; [|rewrite orb_true_r]; apply emits_ret.
Qed.

(** C10. A site index that is there and parses to something falsy (the
    empty object, [null]) is to the version consistency rule what a missing
    file is: the rule run beside it does exactly what it does in a world
    that agrees on the unit itself and has no site index.  A cross-source
    rule appends nothing and returns as soon as either of its two sources
    is missing or falsy; a missing file is one that loads as the falsy
    [None].  A canonical manifest that parses to [null] or to the empty
    object makes the version rule do nothing, as a missing one does. *)
Theorem falsy_source_is_absent :
  (forall E p, fs_exists E p = false ->
     load_json E p = Ok JNull /\ Py.truthy JNull = false) /\
  (forall E1 E2 dir cache sm,
     get_plugin_json E1 dir = get_plugin_json E2 dir ->
     get_changelog_version E1 dir = get_changelog_version E2 dir ->
     site_meta_seen E1 cache = Ok sm -> Py.truthy sm = false ->
     fs_exists E2 (SITE_META E2) = false ->
     forall fs, check_version_consistency E1 dir cache fs
                = check_version_consistency E2 dir JNull fs) /\
  (forall E dir cache pj,
     get_plugin_json E dir = Ok pj -> pj = JNull \/ pj = JObj [] ->
     emits (check_version_consistency E dir cache) [] tt) /\
  (forall E a b,
     load_json E (SITE_MARKETPLACE E) = Ok a ->
     load_json E (EMPORIUM_MARKETPLACE E) = Ok b ->
     Py.truthy a = false \/ Py.truthy b = false ->
     emits (check_description_consistency E) [] tt) /\
  (forall E a b,
     load_json E (SITE_MARKETPLACE E) = Ok a ->
     load_json E (EMPORIUM_MARKETPLACE E) = Ok b ->
     Py.truthy a = false \/ Py.truthy b = false ->
     emits (check_emporium_vs_site E) [] tt) /\
  (forall E a b,
     load_json E (SITE_MARKETPLACE E) = Ok a ->
     load_json E (SITE_META E) = Ok b ->
     Py.truthy a = false \/ Py.truthy b = false ->
     emits (check_site_meta_completeness E) [] tt).
Proof.
  split; [intros E p H; split; [now apply load_json_absent | reflexivity]|].
  split; [exact version_rule_falsy_index|].
  split; [exact version_rule_hollow_manifest|].
  split; [exact description_rule_skips|].
  split; [exact symmetry_rule_skips | exact completeness_rule_skips].
Qed.

Lemma falsy_source_is_absent_witness :
  check_version_consistency (Example.env_of Example.falsy_disk) Example.herald (JObj []) []
  = check_version_consistency (Example.env_of Example.absent_disk) Example.herald JNull []
  /\ check_version_consistency (Example.env_of Example.hollow_disk) Example.herald JNull []
     = ([], Ok tt)
  /\ check_description_consistency (Example.env_of Example.falsy_disk) [] = ([], Ok tt)
  /\ check_emporium_vs_site (Example.env_of Example.falsy_disk) [] = ([], Ok tt)
  /\ check_site_meta_completeness (Example.env_of Example.falsy_disk) [] = ([], Ok tt).
Proof.
  destruct falsy_source_is_absent as [_ [Hv [Hh [Hd [Hs Hc]]]]].
  split; [|split; [|split; [|split]]].
  - exact (Hv (Example.env_of Example.falsy_disk) (Example.env_of Example.absent_disk)
              Example.herald (JObj []) (JObj []) eq_refl eq_refl eq_refl eq_refl eq_refl []).
  - exact (Hh (Example.env_of Example.hollow_disk) Example.herald JNull (JObj [])
              eq_refl (or_intror eq_refl) []).
  - exact (Hd (Example.env_of Example.falsy_disk) JNull Example.emporium_listing
              eq_refl eq_refl (or_introl eq_refl) []).
  - exact (Hs (Example.env_of Example.falsy_disk) JNull Example.emporium_listing
              eq_refl eq_refl (or_introl eq_refl) []).
  - exact (Hc (Example.env_of Example.falsy_disk) JNull (JObj [])
              eq_refl eq_refl (or_introl eq_refl) []).
Defined.

(** ** C3: the semver pattern *)

Lemma step_complete ok st c after :
  rest st = c :: after -> ok c = true ->
  exists st', In st' (step ok st) /\ rest st' = after /\ pos st' = pos st + 1.
Proof.
  intros Hr Ho. unfold step. rewrite Hr, Ho. eexists. split; [now left|].
  simpl. split; [reflexivity | lia].
Qed.

Lemma run_sound r :
  forall st st', In st' (run r st) ->
  exists used, rest st = used ++ rest st' /\ pos st' = pos st + List.length used /\
               matches r (pos st) used (rest st').
Proof.
  induction r as [c| | |lo hi| | |r1 IH1 r2 IH2|r1 IH1 r2 IH2|r IH|n r IH];
    intros st st' H.
  - apply step_inv in H as [c' [Hr [Ho [Hp _]]]]. apply Ascii.eqb_eq in Ho. subst c'.
    exists [c]. simpl. repeat split; [assumption | lia].
  - apply step_inv in H as [c' [Hr [Ho [Hp _]]]].
    exists [c']. simpl. repeat split; [assumption | lia | eauto].
  - apply step_inv in H as [c' [Hr [Ho [Hp _]]]].
    exists [c']. simpl. repeat split; [assumption | lia | eauto].
  - apply step_inv in H as [c' [Hr [Ho [Hp _]]]].
    exists [c']. simpl. repeat split; [assumption | lia | eauto].
  - simpl in H. destruct (pos st =? 0)%nat eqn:Ep; [|destruct H].
    destruct H as [<-|[]]. apply Nat.eqb_eq in Ep.
    exists []. simpl. repeat split; [lia | assumption].
  - simpl in H. destruct (at_end st) eqn:Ee; [|destruct H].
    destruct H as [<-|[]]. exists []. simpl. repeat split; [lia|].
    unfold at_end in Ee. destruct (rest st) as [|c [|c' t]]; [now left | | discriminate].
    apply Ascii.eqb_eq in Ee. subst c. now right.
  - rewrite run_Seq in H. apply in_flat_map in H as [mid [H1 H2]].
    destruct (IH1 _ _ H1) as [u1 [E1 [P1 M1]]].
    destruct (IH2 _ _ H2) as [u2 [E2 [P2 M2]]].
    exists (u1 ++ u2). rewrite E1, E2, <- app_assoc, length_app.
    repeat split; [lia|]. simpl. exists u1, u2.
    rewrite <- E2. rewrite <- P1. auto.
  - simpl in H. apply in_app_or in H as [H|H].
    + destruct (IH1 _ _ H) as [u [E [P M]]]. exists u. simpl. auto.
    + destruct (IH2 _ _ H) as [u [E [P M]]]. exists u. simpl. auto.
  - assert (G : forall fuel st0 st',
      In st' (star_loop (run r) fuel st0) ->
      exists used, rest st0 = used ++ rest st' /\ pos st' = pos st0 + List.length used /\
                   star_of (matches r) (pos st0) used (rest st')).
    { clear st st' H. induction fuel as [|fuel IHf]; intros st0 st' H.
      - destruct H as [<-|[]]. exists []. simpl. repeat split; [lia | constructor].
      - simpl in H. apply in_app_or in H as [H|H].
        + apply in_flat_map in H as [mid [H1 H2]].
          destruct (List.length (rest mid) <? List.length (rest st0))%nat eqn:El;
            [|destruct H2].
          apply Nat.ltb_lt in El.
          destruct (IH _ _ H1) as [u1 [E1 [P1 M1]]].
          destruct (IHf _ _ H2) as [u2 [E2 [P2 M2]]].
          exists (u1 ++ u2). rewrite E1, E2, <- app_assoc, length_app.
          repeat split; [lia|].
          apply star_round.
          * intros ->. rewrite E1 in El. simpl in El. lia.
          * now rewrite <- E2.
          * now rewrite <- P1.
        + destruct H as [<-|[]]. exists []. simpl. repeat split; [lia | constructor]. }
    simpl in H. exact (G _ st st' H).
  - rewrite run_Group in H. apply in_map_iff in H as [mid [<- H]].
    destruct (IH _ _ H) as [u [E [P M]]]. exists u. simpl. auto.
Qed.

Lemma run_complete r :
  forall st used after,
    rest st = used ++ after -> matches r (pos st) used after ->
    exists st', In st' (run r st) /\ rest st' = after /\
                pos st' = pos st + List.length used.
Proof.
  induction r as [c| | |lo hi| | |r1 IH1 r2 IH2|r1 IH1 r2 IH2|r IH|n r IH];
    intros st used after Hr Hm; simpl in Hm.
  - subst used. apply step_complete with (c := c); [exact Hr | apply Ascii.eqb_refl].
  - destruct Hm as [c [-> Hc]]. now apply step_complete with (c := c).
  - destruct Hm as [c [-> Hc]]. now apply step_complete with (c := c).
  - destruct Hm as [c [-> Hc]]. now apply step_complete with (c := c).
  - destruct Hm as [-> Hp]. exists st. simpl in *. rewrite Hp. simpl.
    split; [now left|]. split; [assumption | lia].
  - destruct Hm as [-> Ha]. exists st. simpl in *. unfold at_end. rewrite Hr.
    split; [|split; [reflexivity | lia]].
    destruct Ha as [-> | ->]; simpl; now left.
  - destruct Hm as [u1 [u2 [-> [M1 M2]]]].
    rewrite <- app_assoc in Hr.
    destruct (IH1 st u1 (u2 ++ after) Hr M1) as [mid [I1 [R1 P1]]].
    rewrite <- P1 in M2.
    destruct (IH2 mid u2 after R1 M2) as [st' [I2 [R2 P2]]].
    exists st'. rewrite run_Seq. split; [apply in_flat_map; eauto|].
    split; [assumption|]. rewrite length_app. lia.
  - destruct Hm as [Hm|Hm].
    + destruct (IH1 st used after Hr Hm) as [st' [I [R P]]].
      exists st'. simpl. split; [apply in_or_app; now left | auto].
    + destruct (IH2 st used after Hr Hm) as [st' [I [R P]]].
      exists st'. simpl. split; [apply in_or_app; now right | auto].
  - assert (G : forall p used after, star_of (matches r) p used after ->
              forall fuel st, pos st = p -> rest st = used ++ after ->
              List.length (rest st) <= fuel ->
              exists st', In st' (star_loop (run r) fuel st) /\ rest st' = after /\
                          pos st' = pos st + List.length used).
    { clear st used after Hr Hm.
      induction 1 as [p after|p u1 u2 after Hne M1 _ IHs]; intros fuel st Hp Hr Hf.
      - exists st. simpl in *. split; [|split; [assumption | lia]].
        destruct fuel; simpl; [now left | apply in_or_app; right; now left].
      - rewrite <- app_assoc in Hr. rewrite <- Hp in M1.
        destruct (IH st u1 (u2 ++ after) Hr M1) as [mid [I1 [R1 P1]]].
        assert (Hlt : List.length (rest mid) < List.length (rest st)).
        { rewrite Hr, R1, !length_app. destruct u1; [contradiction | simpl; lia]. }
        destruct fuel as [|fuel]; [lia|].
        destruct (IHs fuel mid) as [st' [I2 [R2 P2]]]; [lia | assumption | lia |].
        exists st'. split.
        + simpl. apply in_or_app. left. apply in_flat_map. exists mid.
          split; [assumption|]. apply Nat.ltb_lt in Hlt. now rewrite Hlt.
        + split; [assumption|]. rewrite length_app. lia. }
    simpl. apply (G _ _ _ Hm); [reflexivity | assumption | lia].
  - destruct (IH st used after Hr Hm) as [mid [I [R P]]].
    exists (capture n st mid). rewrite run_Group.
    split; [apply in_map; assumption | simpl; auto].
Qed.

Lemma SEMVER_RE_shape :
  SEMVER_RE = Seq Bol (Seq (number_re 1) (Seq (Chr ".") (Seq (number_re 2)
                 (Seq (Chr ".") (Seq (number_re 3) Eol))))).
Proof. reflexivity. Qed.

Lemma star_digit_iff p u after :
  star_of (matches Digit) p u after <-> all_digits u = true.
Proof.
  unfold all_digits. split.
  - induction 1 as [|p u1 u2 after _ [c [-> Hc]] _ IH]; [reflexivity|].
    simpl. now rewrite Hc, IH.
  - revert p. induction u as [|c u IH]; intros p H; [constructor|].
    simpl in H. apply andb_true_iff in H as [Hc Hu].
    change (c :: u) with ([c] ++ u). apply star_round.
    + discriminate.
    + simpl. eauto.
    + now apply IH.
Qed.

Lemma number_matches n p g after :
  matches (number_re n) p g after <-> decimal_group g = true.
Proof.
  unfold number_re. cbn [matches]. split.
  - intros [-> | [u1 [u2 [-> [[c [-> Hc]] Hs]]]]]; [reflexivity|].
    apply star_digit_iff in Hs. simpl.
    destruct (Ascii.eqb_spec c "0") as [->|_]; [discriminate|].
    now rewrite Hc, Hs.
  - destruct g as [|c more]; [discriminate|]. simpl.
    destruct (Ascii.eqb_spec c "0") as [->|_].
    + destruct more; [now left | discriminate].
    + intros H. apply andb_true_iff in H as [Hc Hs]. right.
      exists [c], more. split; [reflexivity|]. split; [eauto|].
      now apply star_digit_iff.
Qed.

Lemma semver_matches_lists used after :
  matches SEMVER_RE 0 used after <->
  exists a b c,
    decimal_group a = true /\ decimal_group b = true /\ decimal_group c = true /\
    used = a ++ "."%char :: b ++ "."%char :: c /\
    (after = [] \/ after = ["010"%char]).
Proof.
  rewrite SEMVER_RE_shape. split.
  - intros [u0 [r0 [-> [[-> _] H]]]].
    destruct H as [a [r1 [-> [Ha H]]]]. apply number_matches in Ha.
    destruct H as [d1 [r2 [-> [Hd1 H]]]]. simpl in Hd1. subst d1.
    destruct H as [b [r3 [-> [Hb H]]]]. apply number_matches in Hb.
    destruct H as [d2 [r4 [-> [Hd2 H]]]]. simpl in Hd2. subst d2.
    destruct H as [c [r5 [-> [Hc H]]]]. apply number_matches in Hc.
    destruct H as [-> Hafter].
    exists a, b, c. rewrite app_nil_r. simpl. auto.
  - intros [a [b [c [Ha [Hb [Hc [-> Hafter]]]]]]].
    exists [], (a ++ "."%char :: b ++ "."%char :: c). split; [reflexivity|].
    split; [now split|].
    exists a, ("."%char :: b ++ "."%char :: c). split; [reflexivity|].
    split; [now apply number_matches|].
    exists ["."%char], (b ++ "."%char :: c). split; [reflexivity|].
    split; [reflexivity|].
    exists b, ("."%char :: c). split; [reflexivity|].
    split; [now apply number_matches|].
    exists ["."%char], c. split; [reflexivity|].
    split; [reflexivity|].
    exists c, []. split; [now rewrite app_nil_r|].
    split; [now apply number_matches|]. now split.
Qed.

Lemma list_ascii_of_string_app a b :
  list_ascii_of_string (a ++ b)%string = list_ascii_of_string a ++ list_ascii_of_string b.
Proof. induction a as [|c a IH]; simpl; [reflexivity | now rewrite IH]. Qed.

Lemma string_of_list_ascii_app l m :
  string_of_list_ascii (l ++ m)
  = (string_of_list_ascii l ++ string_of_list_ascii m)%string.
Proof. induction l as [|c l IH]; simpl; [reflexivity | now rewrite IH]. Qed.

Lemma match_some_iff r s :
  is_some (match_ r s) = true <->
  exists used after, list_ascii_of_string s = used ++ after /\ matches r 0 used after.
Proof.
  unfold match_. split.
  - destruct (run r (start 0 (list_ascii_of_string s))) as [|st l] eqn:Er;
      [discriminate|]. intros _.
    assert (Hin : In st (run r (start 0 (list_ascii_of_string s))))
      by (rewrite Er; now left).
    apply run_sound in Hin as [used [Hr [_ Hm]]]. simpl in Hr, Hm. eauto.
  - intros [used [after [Hr Hm]]].
    destruct (run_complete r (start 0 (list_ascii_of_string s)) used after Hr Hm)
      as [st [Hin _]].
    destruct (run r (start 0 (list_ascii_of_string s))); [destruct Hin | reflexivity].
Qed.

Lemma semver_pattern_accepts (v : string) :
  semver_matches v = true <->
  strict_semver v \/ exists w, strict_semver w /\ v = (w ++ String "010" "")%string.
Proof.
  unfold semver_matches. rewrite match_some_iff. split.
  - intros [used [after [Hv Hm]]].
    apply semver_matches_lists in Hm as [a [b [c [Ha [Hb [Hc [-> Hafter]]]]]]].
    assert (Hw : strict_semver
                   (string_of_list_ascii (a ++ "."%char :: b ++ "."%char :: c))).
    { exists (string_of_list_ascii a), (string_of_list_ascii b), (string_of_list_ascii c).
      rewrite !list_ascii_of_string_of_list_ascii.
      repeat split; try assumption.
      rewrite string_of_list_ascii_app. simpl.
      rewrite string_of_list_ascii_app. reflexivity. }
    rewrite <- (string_of_list_ascii_of_string v), Hv.
    destruct Hafter as [-> | ->].
    + left. now rewrite app_nil_r.
    + right. eexists. split; [exact Hw|]. now rewrite string_of_list_ascii_app.
  - assert (Hl : forall a b c : string,
               list_ascii_of_string (a ++ "." ++ b ++ "." ++ c)%string
               = list_ascii_of_string a ++ "."%char :: list_ascii_of_string b
                 ++ "."%char :: list_ascii_of_string c).
    { intros a b c. rewrite list_ascii_of_string_app. simpl.
      now rewrite list_ascii_of_string_app. }
    intros [[a [b [c [Ha [Hb [Hc ->]]]]]] | [w [[a [b [c [Ha [Hb [Hc ->]]]]]] ->]]].
    + exists (list_ascii_of_string a ++ "."%char :: list_ascii_of_string b
              ++ "."%char :: list_ascii_of_string c), [].
      split; [now rewrite app_nil_r, Hl|].
      apply semver_matches_lists.
      exists (list_ascii_of_string a), (list_ascii_of_string b), (list_ascii_of_string c).
      repeat split; auto.
    + exists (list_ascii_of_string a ++ "."%char :: list_ascii_of_string b
              ++ "."%char :: list_ascii_of_string c), ["010"%char].
      split; [now rewrite list_ascii_of_string_app, Hl|].
      apply semver_matches_lists.
      exists (list_ascii_of_string a), (list_ascii_of_string b), (list_ascii_of_string c).
      repeat split; auto.
Qed.

Lemma decimal_group_digits g : decimal_group g = true -> all_digits g = true.
Proof.
  destruct g as [|c more]; [discriminate|]. simpl.
  destruct (Ascii.eqb_spec c "0") as [->|_].
  - destruct more; [reflexivity | discriminate].
  - intros H. apply andb_true_iff in H as [Hc Hm]. rewrite Hm, andb_true_r.
    unfold is_digit, in_range in *. apply andb_true_iff in Hc as [H1 H2].
    apply andb_true_iff. split; [|exact H2].
    change (nat_of_ascii "1") with 49 in H1. change (nat_of_ascii "0") with 48.
    apply Nat.leb_le in H1. apply Nat.leb_le. lia.
Qed.

(** A strict semantic version is made of digits and dots only. *)
Lemma strict_semver_alphabet v :
  strict_semver v ->
  forallb (fun ch => is_digit ch || Ascii.eqb ch ".") (list_ascii_of_string v) = true.
Proof.
  intros [a [b [c [Ha [Hb [Hc ->]]]]]].
  assert (Hd : forall g, decimal_group g = true ->
                 forallb (fun ch => is_digit ch || Ascii.eqb ch ".") g = true).
  { intros g Hg. apply decimal_group_digits in Hg. unfold all_digits in Hg.
    rewrite forallb_forall in *. intros ch Hin. now rewrite (Hg ch Hin). }
  rewrite list_ascii_of_string_app. simpl. rewrite list_ascii_of_string_app. simpl.
  rewrite forallb_app. simpl. rewrite forallb_app. simpl.
  now rewrite (Hd _ Ha), (Hd _ Hb), (Hd _ Hc).
Qed.

(** C3. The pattern accepts exactly the strict semantic versions and the
    strict semantic versions followed by one newline.  So the examples of
    the specification come out as stated, and yet the text made of 1.0.0
    and a newline, which is no strict semantic version, matches; a manifest
    that carries it as its version passes the manifest schema rule without
    a finding. *)
Theorem semver_pattern_trailing_newline :
  (forall v, semver_matches v = true <->
             strict_semver v \/
             exists w, strict_semver w /\ v = (w ++ String "010" "")%string) /\
  map semver_matches ["1.0.0"; "0.0.0"; "10.20.30"] = [true; true; true] /\
  map semver_matches ["1"; "1.0"; "v1.0.0"; "1.0.0-beta"; "01.0.0"]
  = [false; false; false; false; false] /\
  semver_matches ("1.0.0" ++ String "010" "") = true /\
  ~ strict_semver ("1.0.0" ++ String "010" "") /\
  check_plugin_json_schema (Example.env_of Example.quill_disk) Example.quill []
  = ([], Ok tt).
Proof.
  split; [exact semver_pattern_accepts|].
  split; [reflexivity|]. split; [reflexivity|]. split; [reflexivity|].
  split; [|reflexivity].
  intros H. apply strict_semver_alphabet in H. discriminate.
Qed.

(** * More of the script *)
(** ** What each rule may append *)

Lemma only_ret {A} P (a : A) : appends_only P (ret a).
Proof. intros fs; exists []; simpl; now rewrite app_nil_r. Qed.

Lemma only_lift {A} P (r : result A) : appends_only P (lift r).
Proof. intros fs; exists []; simpl; now rewrite app_nil_r. Qed.

Lemma only_append (P : Finding -> Prop) f : P f -> appends_only P (append f).
Proof. intros H fs; eexists; split; [reflexivity|]. now repeat constructor. Qed.

Lemma only_bind {A B} P (m : M A) (k : A -> M B) :
  appends_only P m -> (forall a, appends_only P (k a)) -> appends_only P (bind m k).
Proof.
  intros Hm Hk fs. unfold bind.
  destruct (Hm fs) as [n1 [E1 F1]].
  destruct (m fs) as [fs' [a|e]]; simpl in E1; subst fs'.
  - destruct (Hk a (fs ++ n1)) as [n2 [E2 F2]].
    exists (n1 ++ n2). rewrite E2, app_assoc. split; [reflexivity|].
    apply Forall_app; now split.
  - exists n1. now split.
Qed.

Lemma only_when P (b : bool) (m : M unit) : appends_only P m -> appends_only P (when b m).
Proof. destruct b; intros H; [exact H | apply only_ret]. Qed.

Lemma only_for_each {A} P (l : list A) (body : A -> M unit) :
  (forall x, appends_only P (body x)) -> appends_only P (for_each l body).
Proof.
  intros H; induction l as [|x l IH]; simpl.
  - apply only_ret.
  - apply only_bind; [apply H | intros _; exact IH].
Qed.

Lemma only_weaken {A} (P Q : Finding -> Prop) (m : M A) :
  (forall f, P f -> Q f) -> appends_only P m -> appends_only Q m.
Proof.
  intros H Hm fs. destruct (Hm fs) as [new [E F]]. exists new. split; [exact E|].
  eapply Forall_impl; eassumption.
Qed.

Ltac only_step :=
  match goal with
  | |- appends_only _ (bind _ _) => apply only_bind; [| intro]
  | |- appends_only _ (ret _) => apply only_ret
  | |- appends_only _ (lift _) => apply only_lift
  | |- appends_only _ (when _ _) => apply only_when
  | |- appends_only _ (for_each _ _) => apply only_for_each; intro
  | |- appends_only _ (append (new_Finding _ _ _ _)) =>
      apply only_append;
      unfold unit_finding, severity_among, new_Finding; simpl; tauto
  | |- appends_only _ (if ?b then _ else _) => destruct b
  | |- appends_only _ (match ?v with _ => _ end) => destruct v
  end.

Ltac only_steps := repeat only_step.

Lemma schema_rule_appends E d :
  appends_only (unit_finding ["HIGH"; "MEDIUM"] d) (check_plugin_json_schema E d).
Proof. unfold check_plugin_json_schema. only_steps. Qed.

Lemma components_rule_appends E d :
  appends_only (unit_finding ["HIGH"; "MEDIUM"] d) (check_marketplace_components E d).
Proof. unfold check_marketplace_components. only_steps. Qed.

Lemma version_rule_appends E d cache :
  appends_only (unit_finding ["CRITICAL"; "HIGH"] d) (check_version_consistency E d cache).
Proof. unfold check_version_consistency. only_steps. Qed.

Lemma description_rule_appends E :
  appends_only (severity_among ["MEDIUM"]) (check_description_consistency E).
Proof. unfold check_description_consistency. only_steps. Qed.

Lemma symmetry_rule_appends E :
  appends_only (severity_among ["HIGH"]) (check_emporium_vs_site E).
Proof. unfold check_emporium_vs_site. only_steps. Qed.

Lemma completeness_rule_appends E :
  appends_only (severity_among ["HIGH"; "MEDIUM"; "LOW"]) (check_site_meta_completeness E).
Proof. unfold check_site_meta_completeness. only_steps. Qed.

Lemma insert_sorted_perm x l : Permutation (insert_sorted x l) (x :: l).
Proof.
  induction l as [|y l IH]; simpl; [apply Permutation_refl|].
  destruct (PurePath.ltb y x); [|apply Permutation_refl].
  eapply Permutation_trans; [apply perm_skip, IH | apply perm_swap].
Qed.

Lemma sorted_perm l : Permutation (sorted l) l.
Proof.
  induction l as [|x l IH]; simpl; [constructor|].
  eapply Permutation_trans; [apply insert_sorted_perm | now apply perm_skip].
Qed.

Lemma only_for_each_in {A} (Q : A -> Finding -> Prop) (l : list A) (body : A -> M unit) :
  (forall x, In x l -> appends_only (Q x) (body x)) ->
  appends_only (fun f => exists x, In x l /\ Q x f) (for_each l body).
Proof.
  induction l as [|x l IH]; intros H; simpl.
  - apply only_ret.
  - apply only_bind.
    + apply only_weaken with (P := Q x); [|apply H; now left].
      intros f Hf. exists x. split; [now left | exact Hf].
    + intros _. apply only_weaken with (P := fun f => exists y, In y l /\ Q y f).
      * intros f [y [Hy Hf]]. exists y. split; [now right | exact Hf].
      * apply IH. intros y Hy. apply H. now right.
Qed.

(** X5. Whatever its input, and also when it raises, the manifest
    schema rule and the component rule only append HIGH and MEDIUM
    findings, the version rule CRITICAL and HIGH ones, the description rule
    MEDIUM ones, the symmetry rule HIGH ones, the completeness rule HIGH,
    MEDIUM and LOW ones.  So the description rule never turns a run that
    would pass into one that fails. *)
Theorem rule_severities (E : Env) :
  (forall d, appends_only (severity_among ["HIGH"; "MEDIUM"])
                          (check_plugin_json_schema E d)) /\
  (forall d, appends_only (severity_among ["HIGH"; "MEDIUM"])
                          (check_marketplace_components E d)) /\
  (forall d cache, appends_only (severity_among ["CRITICAL"; "HIGH"])
                                (check_version_consistency E d cache)) /\
  appends_only (severity_among ["MEDIUM"]) (check_description_consistency E) /\
  appends_only (severity_among ["HIGH"]) (check_emporium_vs_site E) /\
  appends_only (severity_among ["HIGH"; "MEDIUM"; "LOW"])
               (check_site_meta_completeness E) /\
  (forall fs, existsb is_blocking (fst (check_description_consistency E fs))
              = existsb is_blocking fs).
Proof.
  assert (W : forall sevs d f, unit_finding sevs d f -> severity_among sevs f)
    by (intros sevs d f [H _]; exact H).
  split; [intros d; eapply only_weaken; [apply W | apply schema_rule_appends]|].
  split; [intros d; eapply only_weaken; [apply W | apply components_rule_appends]|].
  split; [intros d c; eapply only_weaken; [apply W | apply version_rule_appends]|].
  split; [apply description_rule_appends|].
  split; [apply symmetry_rule_appends|].
  split; [apply completeness_rule_appends|].
  intros fs. destruct (description_rule_appends E fs) as [new [-> Hnew]].
  rewrite existsb_app.
  replace (existsb is_blocking new) with false; [apply orb_false_r|].
  symmetry. induction Hnew as [|f new Hf _ IH]; [reflexivity|].
  simpl. rewrite IH, orb_false_r.
  unfold severity_among in Hf. simpl in Hf. destruct Hf as [Hf|[]].
  unfold is_blocking. now rewrite <- Hf.
Qed.

Lemma per_plugin_attribution (E : Env) (PLUGIN_DIRS : list Path) :
  appends_only (fun f => exists d, In d PLUGIN_DIRS /\ plugin f = JStr (PurePath.name d))
               (per_plugin_checks E PLUGIN_DIRS).
Proof.
  unfold per_plugin_checks. apply only_bind; [apply only_lift|]. intros cache.
  apply only_weaken with
    (P := fun f => exists d, In d (sorted PLUGIN_DIRS)
                             /\ plugin f = JStr (PurePath.name d)).
  { intros f [d [Hd Hf]]. exists d. split; [|exact Hf].
    eapply Permutation_in; [apply sorted_perm | exact Hd]. }
  apply only_for_each_in with (Q := fun d f => plugin f = JStr (PurePath.name d)).
  intros d _.
  assert (W : forall sevs f, unit_finding sevs d f -> plugin f = JStr (PurePath.name d))
    by (intros sevs f [_ H]; exact H).
  apply only_bind; [eapply only_weaken; [apply W | apply schema_rule_appends]|].
  intros _.
  apply only_bind; [eapply only_weaken; [apply W | apply components_rule_appends]|].
  intros _. eapply only_weaken; [apply W | apply version_rule_appends].
Qed.

(** X6. Every finding that a per-plugin rule appends for a directory,
    and so every finding of the per-plugin pass, has the name of that
    directory as its subject. *)
Theorem per_plugin_findings_attributed (E : Env) (PLUGIN_DIRS : list Path) :
  appends_only (fun f => exists d, In d PLUGIN_DIRS /\ plugin f = JStr (PurePath.name d))
               (per_plugin_checks E PLUGIN_DIRS) /\
  (forall d, appends_only (fun f => plugin f = JStr (PurePath.name d))
                          (check_plugin_json_schema E d)) /\
  (forall d, appends_only (fun f => plugin f = JStr (PurePath.name d))
                          (check_marketplace_components E d)) /\
  (forall d cache, appends_only (fun f => plugin f = JStr (PurePath.name d))
                                (check_version_consistency E d cache)).
Proof.
  assert (W : forall sevs d f, unit_finding sevs d f -> plugin f = JStr (PurePath.name d))
    by (intros sevs d f [_ H]; exact H).
  split; [apply per_plugin_attribution|].
  split; [intros d; eapply only_weaken; [apply W | apply schema_rule_appends]|].
  split; [intros d; eapply only_weaken; [apply W | apply components_rule_appends]|].
  intros d c; eapply only_weaken; [apply W | apply version_rule_appends].
Qed.



(** ** The report *)

Lemma printed_group sev fs : printed (group_lines sev fs) = fs.
Proof.
  unfold group_lines, printed. destruct fs as [|f fs]; [reflexivity|].
  cbn [flat_map app]. generalize (f :: fs). intros l.
  induction l as [|x l IH]; [reflexivity|]. simpl. now rewrite IH.
Qed.

Lemma printed_app a b : printed (a ++ b) = printed a ++ printed b.
Proof. unfold printed. apply flat_map_app. Qed.

Lemma severity_groups_perm fs :
  Forall known_severity fs ->
  Permutation (filter (has_severity "CRITICAL") fs ++ filter (has_severity "HIGH") fs
               ++ filter (has_severity "MEDIUM") fs ++ filter (has_severity "LOW") fs) fs.
Proof.
  induction 1 as [|f fs Hf _ IH]; [constructor|].
  unfold known_severity, severities in Hf. simpl in Hf. cbn [filter].
  destruct Hf as [Hs|[Hs|[Hs|[Hs|[]]]]];
    match type of Hs with
    | ?lit = _ =>
        assert (Hf : forall s, has_severity s f = String.eqb lit s)
          by (intros s; unfold has_severity; now rewrite <- Hs)
    end;
    rewrite !Hf; cbv [String.eqb Ascii.eqb Bool.eqb].
  - simpl. now apply perm_skip.
  - apply Permutation_sym, Permutation_cons_app, Permutation_sym. exact IH.
  - apply Permutation_sym.
    rewrite app_assoc. apply Permutation_cons_app. rewrite <- app_assoc.
    apply Permutation_sym. exact IH.
  - apply Permutation_sym.
    rewrite !app_assoc. apply Permutation_cons_app. rewrite <- !app_assoc.
    apply Permutation_sym. exact IH.
Qed.

Lemma print_groups_lines c h m l :
  print_groups severities (buckets c h m l)
  = Ok (group_lines "CRITICAL" c ++ group_lines "HIGH" h
        ++ group_lines "MEDIUM" m ++ group_lines "LOW" l).
Proof.
  unfold severities, buckets, group_lines. cbn.
  destruct c, h, m, l; cbn; rewrite ?app_nil_r, <- ?app_assoc; reflexivity.
Qed.

Lemma report_human fs :
  Forall known_severity fs -> fs <> [] ->
  report false fs = Ok (human_report fs, if existsb is_blocking fs then 1%Z else 0%Z).
Proof.
  intros Hk Hne. unfold report. destruct fs as [|f fs]; [contradiction|].
  change [("CRITICAL", []); ("HIGH", []); ("MEDIUM", []); ("LOW", [])]
    with (buckets [] [] [] []).
  rewrite (group_by_severity_buckets Hk). cbn [rbind app].
  rewrite print_groups_lines. cbn [rbind]. unfold human_report.
  cbn [bucket buckets Py.dict_lookup String.eqb Ascii.eqb Bool.eqb rbind].
  rewrite <- !app_assoc. reflexivity.
Qed.

Lemma main_of_checks E jm dirs findings :
  run_checks E dirs [] = (findings, Ok tt) ->
  Forall known_severity findings /\ main E jm dirs = report jm findings.
Proof.
  intros H. unfold main. rewrite H. split; [|reflexivity].
  destruct (known_run_checks E dirs []) as [new [Hnew Hk]].
  rewrite H in Hnew. simpl in Hnew. now subst.
Qed.

(** X4. In human-readable mode a run without findings prints the one
    confirmation line and returns 0; a run with findings prints the blocks
    CRITICAL, HIGH, MEDIUM, LOW, each with its count and its findings in the
    order they were found, then the summary: every finding is printed
    exactly once. *)
Theorem human_report_prints_every_finding (E : Env) (PLUGIN_DIRS : list Path)
    (findings : list Finding) :
  run_checks E PLUGIN_DIRS [] = (findings, Ok tt) ->
  (findings = [] -> main E false PLUGIN_DIRS = Ok ([PrintAllPassed], 0%Z)) /\
  (findings <> [] ->
   exists status,
     main E false PLUGIN_DIRS = Ok (human_report findings, status) /\
     printed (human_report findings)
     = filter (has_severity "CRITICAL") findings ++ filter (has_severity "HIGH") findings
       ++ filter (has_severity "MEDIUM") findings ++ filter (has_severity "LOW") findings /\
     Permutation (printed (human_report findings)) findings).
Proof.
  intros H. destruct (main_of_checks E false PLUGIN_DIRS H) as [Hk Hm].
  rewrite Hm. split; [now intros ->|].
  intros Hne. eexists. split; [now apply report_human|].
  assert (Hp : printed (human_report findings)
               = filter (has_severity "CRITICAL") findings
                 ++ filter (has_severity "HIGH") findings
                 ++ filter (has_severity "MEDIUM") findings
                 ++ filter (has_severity "LOW") findings).
  { unfold human_report. rewrite !printed_app, !printed_group. simpl.
    now rewrite app_nil_r. }
  split; [exact Hp|]. rewrite Hp. now apply severity_groups_perm.
Qed.

Lemma to_dict_inj f g : to_dict f = to_dict g -> f = g.
Proof.
  destruct f, g. unfold to_dict. simpl. intros H. injection H as -> -> -> ->. reflexivity.
Qed.

(** X2. In machine-readable mode a run whose checks complete prints one
    array holding the record of each finding, in order; the record of a
    finding gives back each of its four fields, and two lists of findings
    with the same records are the same list. *)
Theorem json_report_is_lossless :
  (forall E PLUGIN_DIRS findings,
     run_checks E PLUGIN_DIRS [] = (findings, Ok tt) ->
     exists status,
       main E true PLUGIN_DIRS = Ok ([PrintJson (map to_dict findings)], status)) /\
  (forall fs gs, map to_dict fs = map to_dict gs -> fs = gs) /\
  (forall f,
     Py.getitem (to_dict f) (JStr "severity") = Ok (JStr (severity f)) /\
     Py.getitem (to_dict f) (JStr "plugin") = Ok (plugin f) /\
     Py.getitem (to_dict f) (JStr "message") = Ok (JStr (message f)) /\
     Py.getitem (to_dict f) (JStr "sources") = Ok (JObj (sources f))).
Proof.
  split; [|split].
  - intros E dirs findings H. destruct (main_of_checks E true dirs H) as [_ ->].
    eexists. reflexivity.
  - induction fs as [|f fs IH]; intros [|g gs] H; try discriminate; [reflexivity|].
    pose proof (f_equal (hd JNull) H) as Hf. pose proof (f_equal (@tl json) H) as Hr.
    cbn [map hd tl] in Hf, Hr. apply to_dict_inj in Hf.
    rewrite Hf. f_equal. now apply IH.
  - intros f. repeat split.
Qed.

(** ** The text form of a finding *)

Lemma string_app_assoc (a b c : string) : ((a ++ b) ++ c = a ++ (b ++ c))%string.
Proof. induction a as [|x a IH]; simpl; [reflexivity | now rewrite IH]. Qed.

Lemma prefix_app (a b : string) : String.prefix a (a ++ b) = true.
Proof.
  induction a as [|x a IH]; simpl; [now destruct b|].
  destruct (ascii_dec x x); [exact IH | contradiction].
Qed.

Lemma str_contains_prefix n h : String.prefix n h = true -> Py.str_contains n h = true.
Proof.
  intros H.
  assert (U : Py.str_contains n h
              = String.prefix n h
                || match h with
                   | EmptyString => false
                   | String _ more => Py.str_contains n more
                   end) by (destruct h; reflexivity).
  rewrite U, H. reflexivity.
Qed.

Lemma str_contains_app_l n a h :
  Py.str_contains n h = true -> Py.str_contains n (a ++ h) = true.
Proof.
  intros H. induction a as [|x a IH]; simpl; [exact H|].
  rewrite IH. apply orb_true_r.
Qed.

Lemma str_contains_mid n a b : Py.str_contains n (a ++ n ++ b) = true.
Proof. apply str_contains_app_l, str_contains_prefix, prefix_app. Qed.

Lemma concat_In sep x l :
  In x l -> exists a b, String.concat sep l = (a ++ x ++ b)%string.
Proof.
  induction l as [|y l IH]; [intros []|].
  intros [->|Hin].
  - destruct l as [|z l].
    + exists "", "". simpl. clear. induction x; simpl; congruence.
    + exists "", (sep ++ String.concat sep (z :: l))%string. reflexivity.
  - destruct (IH Hin) as [a [b Hc]]. destruct l as [|z l]; [destruct Hin|].
    exists (y ++ sep ++ a)%string, b.
    change (String.concat sep (y :: z :: l))
      with (y ++ sep ++ String.concat sep (z :: l))%string.
    rewrite Hc. now rewrite !string_app_assoc.
Qed.

Ltac string_normalize :=
  repeat (cbn [String.append]; rewrite ?string_app_assoc).

Lemma string_app_nil_r (a : string) : (a ++ "")%string = a.
Proof. induction a; simpl; congruence. Qed.

(** X1. The text form of a finding starts with the severity in brackets,
    the subject, a colon and the message; without evidence it is just
    that; with evidence it goes on with the pairs [key=value], in the
    order of the evidence, between parentheses, so that every pair can be
    read in it. *)
Theorem finding_text_form (float_repr : pyfloat -> string) (f : Finding) :
  let header := ("[" ++ severity f ++ "] " ++ py_str float_repr (plugin f) ++ ": "
                 ++ message f)%string in
  String.prefix header (__str__ float_repr f) = true /\
  (sources f = [] -> __str__ float_repr f = header) /\
  (forall k v, In (k, v) (sources f) ->
     Py.str_contains (k ++ "=" ++ py_str float_repr v) (__str__ float_repr f) = true) /\
  (sources f <> [] ->
   __str__ float_repr f
   = (header ++ " ("
      ++ String.concat ", "
           (map (fun kv => fst kv ++ "=" ++ py_str float_repr (snd kv)) (sources f))
      ++ ")")%string).
Proof.
  intros header.
  assert (Hs : __str__ float_repr f
               = (header
                  ++ match sources f with
                     | [] => ""
                     | _ =>
                         " (" ++ String.concat ", "
                                   (map (fun kv => fst kv ++ "="
                                                   ++ py_str float_repr (snd kv))
                                        (sources f))
                         ++ ")"
                     end)%string).
  { unfold __str__. subst header. string_normalize. reflexivity. }
  split; [rewrite Hs; apply prefix_app|].
  split; [intros He; rewrite Hs, He; apply string_app_nil_r|].
  split.
  - intros k v Hin. rewrite Hs.
    destruct (sources f) as [|kv0 rest] eqn:Es; [destruct Hin|].
    set (pairs := map (fun kv => (fst kv ++ "=" ++ py_str float_repr (snd kv))%string)
                      (kv0 :: rest)).
    assert (Hp : In (k ++ "=" ++ py_str float_repr v)%string pairs).
    { subst pairs. apply in_map_iff. exists (k, v). split; [reflexivity | exact Hin]. }
    destruct (concat_In ", " _ _ Hp) as [a [b Hc]]. rewrite Hc.
    match goal with
    | |- Py.str_contains ?n _ = true =>
        replace (header ++ " (" ++ (a ++ n ++ b) ++ ")")%string
          with ((header ++ " (" ++ a) ++ n ++ (b ++ ")"))%string
    end; [apply str_contains_mid|].
    string_normalize. reflexivity.
  - intros Hne. rewrite Hs. destruct (sources f); [contradiction | reflexivity].
Qed.

(** ** Sources of another type *)

Lemma for_each_required_outcome (body : string -> M unit) :
  (forall field fs, exists new,
      body field fs = (fs ++ new, Ok tt) \/ body field fs = (fs ++ new, Raise TypeError)) ->
  forall l fs, exists new,
      for_each l body fs = (fs ++ new, Ok tt)
      \/ for_each l body fs = (fs ++ new, Raise TypeError).
Proof.
  intros H. induction l as [|x l IH]; intros fs; simpl.
  - exists []. left. unfold ret. now rewrite app_nil_r.
  - unfold bind. destruct (H x fs) as [n1 [-> | ->]].
    + destruct (IH (fs ++ n1)) as [n2 [-> | ->]]; exists (n1 ++ n2);
        rewrite app_assoc; auto.
    + exists n1. now right.
Qed.

Lemma schema_rule_not_object E dir pj :
  get_plugin_json E dir = Ok pj -> not_an_object pj = true ->
  forall fs, exists new e,
    check_plugin_json_schema E dir fs = (fs ++ new, Raise e) /\
    (e = TypeError \/ e = AttributeError).
Proof.
  intros Hpj Hno fs. unfold check_plugin_json_schema.
  unfold bind at 1. unfold lift at 1. rewrite Hpj.
  assert (Hn : is_none pj = false) by (destruct pj; try reflexivity; discriminate).
  rewrite Hn. unfold bind at 1.
  match goal with
  | |- context [for_each required ?b] =>
      destruct (@for_each_required_outcome b) with (l := required) (fs := fs)
        as [new [Hf | Hf]]
  end.
  - intros field fs0. unfold bind, lift.
    destruct (Py.contains (JStr field) pj) as [[|]|e] eqn:Ec.
    + simpl. assert (Hg : Py.getitem pj (JStr field) = Raise TypeError).
      { destruct pj as [| | | | s | l | d]; try discriminate; reflexivity. }
      rewrite Hg. exists []. right. now rewrite app_nil_r.
    + simpl. eexists. left. reflexivity.
    + assert (e = TypeError).
      { destruct pj; simpl in Ec; try congruence; discriminate. }
      subst e. exists []. right. now rewrite app_nil_r.
  - rewrite Hf. unfold bind at 1. unfold lift at 1.
    assert (Hg : Py.get pj "version" JNull = Raise AttributeError)
      by (destruct pj; try reflexivity; discriminate).
    rewrite Hg. exists new, AttributeError. auto.
  - rewrite Hf. exists new, TypeError. auto.
Qed.

(** X7. A canonical manifest that parses to something else than an
    object or [null] makes the manifest schema rule raise a [TypeError] or
    an [AttributeError], after the findings it may have appended, and the
    version rule raise an [AttributeError] at once; a component-declaration
    manifest of that kind makes the component rule raise an
    [AttributeError] at once. *)
Theorem non_object_sources_raise (E : Env) (dir : Path) :
  (forall pj, get_plugin_json E dir = Ok pj -> not_an_object pj = true ->
     (forall fs, exists new e,
        check_plugin_json_schema E dir fs = (fs ++ new, Raise e) /\
        (e = TypeError \/ e = AttributeError)) /\
     (forall cache, raises (check_version_consistency E dir cache) [] AttributeError)) /\
  (forall mkt, get_marketplace_json E dir = Ok mkt -> not_an_object mkt = true ->
     raises (check_marketplace_components E dir) [] AttributeError).
Proof.
  split.
  - intros pj Hpj Hno.
    split; [apply schema_rule_not_object with (pj := pj); assumption|].
    intros cache. unfold check_version_consistency.
    apply raises_lift_bind with (a := pj); [exact Hpj|].
    destruct pj; try discriminate; cbn [is_none];
      apply raises_lift_raise; reflexivity.
  - intros mkt Hm Hno. unfold check_marketplace_components.
    apply raises_lift_bind with (a := mkt); [exact Hm|].
    destruct mkt; try discriminate; cbn [is_none];
      apply raises_lift_raise; reflexivity.
Qed.

(** ** The preloaded site index *)

Lemma bind_ext_l {A B} (m m' : M A) (k : A -> M B) :
  (forall fs, m fs = m' fs) -> forall fs, bind m k fs = bind m' k fs.
Proof. intros H fs. unfold bind. now rewrite H. Qed.

Lemma for_each_ext {A} (l : list A) (body body' : A -> M unit) :
  (forall x fs, body x fs = body' x fs) ->
  forall fs, for_each l body fs = for_each l body' fs.
Proof.
  intros H. induction l as [|x l IH]; intros fs; [reflexivity|].
  simpl. unfold bind. rewrite H. destruct (body' x fs) as [fs' [[]|e]]; [apply IH | reflexivity].
Qed.

Lemma version_rule_cache E cache :
  load_json E (SITE_META E) = Ok cache ->
  forall dir fs, check_version_consistency E dir cache fs
                 = check_version_consistency E dir JNull fs.
Proof.
  intros Hl dir. unfold check_version_consistency.
  apply bind_ext. intros pj fs1. destruct (is_none pj); [reflexivity|].
  revert fs1. apply bind_ext. intros cv fs2.
  destruct (negb (Py.is_str cv) || negb (Py.truthy cv)); [reflexivity|].
  revert fs2. apply bind_ext. intros cl fs3.
  revert fs3. apply bind_ext. intros _ fs4.
  revert fs4. apply bind_ext_l. intros fs5.
  cbn [is_none negb]. rewrite Hl. destruct cache; reflexivity.
Qed.

(** X13. When the site index loads, handing it preloaded to the
    version rule changes nothing: the rule does what it does when it loads
    the index itself, and so does the whole per-plugin pass. *)
Theorem preloaded_index_is_transparent (E : Env) (cache : json) :
  load_json E (SITE_META E) = Ok cache ->
  (forall dir fs, check_version_consistency E dir cache fs
                  = check_version_consistency E dir JNull fs) /\
  (forall PLUGIN_DIRS fs,
     per_plugin_checks E PLUGIN_DIRS fs
     = for_each (sorted PLUGIN_DIRS)
         (fun plugin_dir =>
            bind (check_plugin_json_schema E plugin_dir) (fun _ =>
            bind (check_marketplace_components E plugin_dir) (fun _ =>
            check_version_consistency E plugin_dir JNull))) fs).
Proof.
  intros Hl. split; [now apply version_rule_cache|].
  intros dirs fs. unfold per_plugin_checks. unfold bind at 1. unfold lift. rewrite Hl.
  apply for_each_ext. intros d fs1.
  revert fs1. apply bind_ext. intros _ fs2.
  revert fs2. apply bind_ext. intros _ fs3. now apply version_rule_cache.
Qed.

(** ** The description rule *)

Lemma vdict_set_text k v d :
  vdict_set (JStr k) (JStr v) (as_values d) = as_values (Py.dict_set k v d).
Proof.
  induction d as [|[k' v'] d IH]; [reflexivity|]. simpl.
  rewrite (String.eqb_sym k k'). destruct (String.eqb k' k); simpl; [reflexivity|].
  now rewrite IH.
Qed.

Lemma vdict_lookup_text n d :
  vdict_lookup (JStr n) (as_values d) = option_map JStr (Py.dict_lookup n d).
Proof.
  induction d as [|[k' v'] d IH]; [reflexivity|]. simpl.
  rewrite (String.eqb_sym n k'). destruct (String.eqb k' n); [reflexivity | exact IH].
Qed.

Lemma collect_descs_text entries : forall acc,
  forallb (fun entry => is_some (text_entry entry)) entries = true ->
  collect_descs entries (as_values acc)
  = Ok (as_values
          (fold_left (fun acc nd => Py.dict_set (fst nd) (snd nd) acc)
             (flat_map (fun entry => match text_entry entry with
                                     | Some nd => [nd] | None => [] end) entries)
             acc)).
Proof.
  induction entries as [|e entries IH]; intros acc Hs; [reflexivity|].
  simpl in Hs. apply andb_true_iff in Hs as [He Hs].
  cbn [collect_descs flat_map]. unfold text_entry in *.
  destruct e as [| | | | | |d]; try discriminate. cbn [Py.getitem].
  destruct (Py.dict_lookup "name" d) as [[| | | |n| |]|]; try discriminate.
  destruct (Py.dict_lookup "description" d) as [[| | | |t| |]|]; try discriminate.
  cbn [rbind]. unfold vdict_setitem. cbn [Py.hashable rbind].
  rewrite vdict_set_text. cbn [app fold_left fst snd]. now apply IH.
Qed.

Lemma descs_shaped_entries listing :
  descs_shaped listing = true ->
  Py.truthy listing = true /\
  Py.get listing "plugins" (JArr []) = Ok (JArr (listing_entries listing)) /\
  forallb (fun entry => is_some (text_entry entry)) (listing_entries listing) = true.
Proof.
  unfold descs_shaped. intros H. apply andb_true_iff in H as [Ht H].
  split; [exact Ht|]. destruct listing as [| | | | | |d]; try discriminate.
  unfold listing_entries. cbn [Py.get].
  destruct (Py.dict_lookup "plugins" d) as [[| | | | |entries|]|]; try discriminate;
    now split.
Qed.

Lemma description_rule_text E site emporium :
  load_json E (SITE_MARKETPLACE E) = Ok site ->
  load_json E (EMPORIUM_MARKETPLACE E) = Ok emporium ->
  descs_shaped site = true -> descs_shaped emporium = true ->
  emits (check_description_consistency E)
        (description_findings (listing_descs site) (listing_descs emporium)) tt.
Proof.
  intros Hs He Hss Hse.
  destruct (descs_shaped_entries _ Hss) as [Hts [Hgs Hfs]].
  destruct (descs_shaped_entries _ Hse) as [Hte [Hge Hfe]].
  unfold check_description_consistency.
  apply emits_lift_bind with (a := site); [exact Hs|].
  apply emits_lift_bind with (a := emporium); [exact He|].
  rewrite Hts, Hte. cbn [negb orb].
  apply emits_lift_bind with (a := JArr (listing_entries site)); [exact Hgs|].
  apply emits_lift_bind with (a := listing_entries site); [reflexivity|].
  apply emits_lift_bind with (a := as_values (listing_descs site));
    [exact (collect_descs_text _ [] Hfs)|].
  apply emits_lift_bind with (a := JArr (listing_entries emporium)); [exact Hge|].
  apply emits_lift_bind with (a := listing_entries emporium); [reflexivity|].
  apply emits_lift_bind with (a := as_values (listing_descs emporium));
    [exact (collect_descs_text _ [] Hfe)|].
  unfold description_findings.
  replace (map fst (as_values (listing_descs site)))
    with (map JStr (map fst (listing_descs site)))
    by (unfold as_values; rewrite !map_map; reflexivity).
  apply emits_for_each_map. intros n Hn.
  unfold vdict_getitem. rewrite !vdict_lookup_text.
  destruct (Py.dict_lookup n (listing_descs emporium)) as [e|]; cbn [option_map is_some];
    [|destruct (Py.dict_lookup n (listing_descs site)); apply emits_ret].
  destruct (Py.dict_lookup n (listing_descs site)) as [s|] eqn:Els; cbn [option_map].
  2:{ exfalso. apply in_map_iff in Hn as [[n' s'] [Hn' Hin]]. simpl in Hn'. subst n'.
      clear -Hin Els. induction (listing_descs site) as [|[k v] d IH]; [destruct Hin|].
      simpl in Els. destruct (String.eqb_spec n k); [discriminate|].
      destruct Hin as [H|H]; [injection H as -> _; contradiction | auto]. }
  apply emits_lift_bind with (a := JStr s); [reflexivity|].
  apply emits_lift_bind with (a := JStr e); [reflexivity|].
  cbn [Py.eqb]. destruct (String.eqb s e); cbn [negb when]; [apply emits_ret|].
  apply emits_lift_bind with (a := JStr s); [reflexivity|].
  apply emits_lift_bind with (a := JStr (description_preview s)); [reflexivity|].
  apply emits_lift_bind with (a := JStr e); [reflexivity|].
  apply emits_lift_bind with (a := JStr (description_preview e)); [reflexivity|].
  apply emits_append.
Qed.

Lemma dict_lookup_set {V} n k (v : V) d :
  Py.dict_lookup n (Py.dict_set k v d)
  = if String.eqb n k then Some v else Py.dict_lookup n d.
Proof.
  induction d as [|[k' v'] d IH]; simpl.
  - reflexivity.
  - destruct (String.eqb_spec k k') as [<-|Hkk]; simpl.
    + destruct (String.eqb n k); reflexivity.
    + rewrite IH. destruct (String.eqb_spec n k') as [->|]; [|reflexivity].
      destruct (String.eqb_spec k' k); [congruence | reflexivity].
Qed.

Lemma dict_lookup_app {V} n (a b : list (string * V)) :
  Py.dict_lookup n (a ++ b)
  = match Py.dict_lookup n a with Some v => Some v | None => Py.dict_lookup n b end.
Proof.
  induction a as [|[k v] a IH]; simpl; [reflexivity|].
  destruct (String.eqb n k); [reflexivity | exact IH].
Qed.

(** A name listed several times has the description of its last entry. *)
Lemma fold_dict_set_lookup n (l : list (string * string)) : forall acc,
  Py.dict_lookup n (fold_left (fun acc nd => Py.dict_set (fst nd) (snd nd) acc) l acc)
  = match Py.dict_lookup n (rev l) with
    | Some v => Some v
    | None => Py.dict_lookup n acc
    end.
Proof.
  induction l as [|[k v] l IH]; intros acc; [reflexivity|].
  cbn [fold_left rev fst snd]. rewrite IH, dict_lookup_app, dict_lookup_set.
  destruct (Py.dict_lookup n (rev l)); [reflexivity|]. simpl.
  destruct (String.eqb n k); reflexivity.
Qed.

Lemma dict_set_keys {V} k (v : V) d :
  map fst (Py.dict_set k v d)
  = if existsb (String.eqb k) (map fst d) then map fst d else map fst d ++ [k].
Proof.
  induction d as [|[k' v'] d IH]; simpl; [reflexivity|].
  destruct (String.eqb k k'); simpl; [reflexivity|].
  rewrite IH. now destruct (existsb (String.eqb k) (map fst d)).
Qed.

Lemma fold_dict_set_NoDup (l : list (string * string)) : forall acc,
  NoDup (map fst acc) ->
  NoDup (map fst (fold_left (fun acc nd => Py.dict_set (fst nd) (snd nd) acc) l acc)).
Proof.
  induction l as [|[k v] l IH]; intros acc Hacc; [exact Hacc|].
  cbn [fold_left fst snd]. apply IH. rewrite dict_set_keys.
  destruct (existsb (String.eqb k) (map fst acc)) eqn:Ee; [exact Hacc|].
  apply NoDup_app; [exact Hacc | repeat constructor; intros [] |].
  intros x Hx [<-|[]]. apply existsb_eqb_In in Hx. congruence.
Qed.

Lemma string_length_app (a b : string) :
  String.length (a ++ b) = String.length a + String.length b.
Proof. induction a as [|c a IH]; simpl; [reflexivity | now rewrite IH]. Qed.

Lemma substring_0_length n : forall s, String.length (String.substring 0 n s) <= n.
Proof.
  induction n as [|n IH]; intros [|c s]; simpl; try lia.
  specialize (IH s). lia.
Qed.

Lemma substring_0_all n : forall s, String.length s <= n -> String.substring 0 n s = s.
Proof.
  induction n as [|n IH]; intros [|c s] H; simpl in *; try reflexivity; try lia.
  rewrite IH by lia. reflexivity.
Qed.

(** X8. On two usable listings whose entries have a text name and a
    text description, the description rule appends, for each name of the
    site in order, one MEDIUM finding when the emporium has the name under
    another description, with both descriptions cut to 80 characters and
    followed by an ellipsis.  A name listed again keeps its place and takes
    the description of its last entry; a preview is at most 83 characters
    long, and a short description gets the ellipsis too. *)
Theorem description_rule_on_text (E : Env) (site emporium : json) :
  load_json E (SITE_MARKETPLACE E) = Ok site ->
  load_json E (EMPORIUM_MARKETPLACE E) = Ok emporium ->
  descs_shaped site = true -> descs_shaped emporium = true ->
  emits (check_description_consistency E)
        (description_findings (listing_descs site) (listing_descs emporium)) tt /\
  NoDup (map fst (listing_descs site)) /\
  (forall listing name,
     Py.dict_lookup name (listing_descs listing)
     = Py.dict_lookup name (rev (text_entries listing))) /\
  (forall t, String.length (description_preview t) <= 83 /\
             (String.length t <= 80 -> description_preview t = (t ++ "...")%string)).
Proof.
  intros Hs He Hss Hse. split; [now apply description_rule_text|].
  split; [apply fold_dict_set_NoDup; constructor|]. split.
  - intros listing name. unfold listing_descs. rewrite fold_dict_set_lookup.
    now destruct (Py.dict_lookup name (rev (text_entries listing))).
  - intros t. unfold description_preview. split.
    + rewrite string_length_app. pose proof (substring_0_length 80 t). simpl. lia.
    + intros H. now rewrite substring_0_all.
Qed.

(** ** Descriptions that are not text *)

Lemma vdict_set_named k v d :
  vdict_set (JStr k) v (named_values d) = named_values (Py.dict_set k v d).
Proof.
  induction d as [|[k' v'] d IH]; [reflexivity|]. simpl.
  rewrite (String.eqb_sym k k'). destruct (String.eqb k' k); simpl; [reflexivity|].
  now rewrite IH.
Qed.

Lemma vdict_lookup_named n d :
  vdict_lookup (JStr n) (named_values d) = Py.dict_lookup n d.
Proof.
  induction d as [|[k' v'] d IH]; [reflexivity|]. simpl.
  rewrite (String.eqb_sym n k'). destruct (String.eqb k' n); [reflexivity | exact IH].
Qed.

Lemma collect_descs_complete entries : forall acc,
  forallb (fun entry => is_some (entry_pair entry)) entries = true ->
  collect_descs entries (named_values acc)
  = Ok (named_values
          (fold_left (fun acc nd => Py.dict_set (fst nd) (snd nd) acc)
             (flat_map (fun entry => match entry_pair entry with
                                     | Some nd => [nd] | None => [] end) entries)
             acc)).
Proof.
  induction entries as [|e entries IH]; intros acc Hs; [reflexivity|].
  simpl in Hs. apply andb_true_iff in Hs as [He Hs].
  cbn [collect_descs flat_map]. unfold entry_pair in *.
  destruct e as [| | | | | |d]; try discriminate. cbn [Py.getitem].
  destruct (Py.dict_lookup "name" d) as [[| | | |n| |]|];
    try discriminate; try (destruct (Py.dict_lookup "description" d); discriminate).
  destruct (Py.dict_lookup "description" d) as [t|]; try discriminate.
  cbn [rbind]. unfold vdict_setitem. cbn [Py.hashable rbind].
  rewrite vdict_set_named. cbn [app fold_left fst snd]. now apply IH.
Qed.

Lemma collect_descs_from_empty entries :
  forallb (fun entry => is_some (entry_pair entry)) entries = true ->
  collect_descs entries []
  = Ok (named_values
          (fold_left (fun acc nd => Py.dict_set (fst nd) (snd nd) acc)
             (flat_map (fun entry => match entry_pair entry with
                                     | Some nd => [nd] | None => [] end) entries)
             [])).
Proof. exact (collect_descs_complete entries []). Qed.

Lemma complete_listing_entries listing :
  complete_listing listing = true ->
  Py.truthy listing = true /\
  Py.get listing "plugins" (JArr []) = Ok (JArr (listing_entries listing)) /\
  forallb (fun entry => is_some (entry_pair entry)) (listing_entries listing) = true.
Proof.
  unfold complete_listing. intros H. apply andb_true_iff in H as [Ht H].
  split; [exact Ht|]. destruct listing as [| | | | | |d]; try discriminate.
  unfold listing_entries. cbn [Py.get].
  destruct (Py.dict_lookup "plugins" d) as [[| | | | |entries|]|]; try discriminate;
    now split.
Qed.

Lemma for_each_outcome {A} (body : A -> M unit) (l : list A) :
  (forall x fs, In x l -> exists new,
      body x fs = (fs ++ new, Ok tt) \/ body x fs = (fs ++ new, Raise TypeError)) ->
  forall fs, exists new,
      for_each l body fs = (fs ++ new, Ok tt)
      \/ for_each l body fs = (fs ++ new, Raise TypeError).
Proof.
  induction l as [|x l IH]; intros H fs; simpl.
  - exists []. left. unfold ret. now rewrite app_nil_r.
  - unfold bind. destruct (H x fs (or_introl eq_refl)) as [n1 [-> | ->]].
    + destruct (IH (fun y fs0 Hy => H y fs0 (or_intror Hy)) (fs ++ n1))
        as [n2 [-> | ->]]; exists (n1 ++ n2); rewrite app_assoc; auto.
    + exists n1. now right.
Qed.

Lemma for_each_must_raise {A} (body : A -> M unit) (l : list A) (bad : A) :
  (forall x fs, In x l -> exists new,
      body x fs = (fs ++ new, Ok tt) \/ body x fs = (fs ++ new, Raise TypeError)) ->
  In bad l -> (forall fs, body bad fs = (fs, Raise TypeError)) ->
  forall fs, exists new, for_each l body fs = (fs ++ new, Raise TypeError).
Proof.
  induction l as [|x l IH]; intros H Hin Hbad fs; [destruct Hin|].
  simpl. unfold bind. destruct (H x fs (or_introl eq_refl)) as [n1 [Hx | Hx]].
  - destruct Hin as [->|Hin].
    + rewrite Hbad in Hx. discriminate.
    + rewrite Hx.
      destruct (IH (fun y fs0 Hy => H y fs0 (or_intror Hy)) Hin Hbad (fs ++ n1))
        as [n2 ->].
      exists (n1 ++ n2). now rewrite app_assoc.
  - rewrite Hx. exists n1. reflexivity.
Qed.

Lemma description_body_outcome site emp n fs :
  In n (map fst site) ->
  exists new,
    description_body (named_values site) (named_values emp) (JStr n) fs
    = (fs ++ new, Ok tt)
    \/ description_body (named_values site) (named_values emp) (JStr n) fs
       = (fs ++ new, Raise TypeError).
Proof.
  intros Hin. unfold description_body, vdict_getitem. rewrite !vdict_lookup_named.
  destruct (Py.dict_lookup n emp) as [e|]; cbn [is_some];
    [|exists []; left; unfold ret; now rewrite app_nil_r].
  destruct (Py.dict_lookup n site) as [s|] eqn:Els.
  2:{ exfalso. apply in_map_iff in Hin as [[n' s'] [Hn' Hin]]. simpl in Hn'. subst n'.
      clear -Hin Els. induction site as [|[k v] d IH]; [destruct Hin|].
      simpl in Els. destruct (String.eqb_spec n k); [discriminate|].
      destruct Hin as [H|H]; [injection H as -> _; contradiction | auto]. }
  unfold bind, lift. destruct (Py.eqb s e); cbn [negb when].
  - exists []. left. unfold ret. now rewrite app_nil_r.
  - destruct s; cbn [Py.preview];
      try (exists []; right; now rewrite app_nil_r).
    destruct e; cbn [Py.preview];
      try (exists []; right; now rewrite app_nil_r).
    eexists. left. reflexivity.
Qed.

Lemma description_body_raises site emp n s e fs :
  Py.dict_lookup n site = Some s -> Py.dict_lookup n emp = Some e ->
  Py.eqb s e = false -> Py.is_str s && Py.is_str e = false ->
  description_body (named_values site) (named_values emp) (JStr n) fs
  = (fs, Raise TypeError).
Proof.
  intros Hs He Hne Hty. unfold description_body, vdict_getitem.
  rewrite !vdict_lookup_named, Hs, He. cbn [is_some]. unfold bind, lift.
  rewrite Hne. cbn [negb when].
  destruct s; cbn [Py.preview]; try reflexivity.
  destruct e; cbn [Py.preview]; try reflexivity. discriminate.
Qed.

Lemma description_body_equal site emp n fs :
  (forall s e, Py.dict_lookup n site = Some s -> Py.dict_lookup n emp = Some e ->
               Py.eqb s e = true) ->
  In n (map fst site) ->
  description_body (named_values site) (named_values emp) (JStr n) fs = (fs ++ [], Ok tt).
Proof.
  intros Heq Hin. rewrite app_nil_r. unfold description_body, vdict_getitem.
  rewrite !vdict_lookup_named.
  destruct (Py.dict_lookup n emp) as [e|]; cbn [is_some]; [|reflexivity].
  destruct (Py.dict_lookup n site) as [s|] eqn:Els.
  2:{ exfalso. apply in_map_iff in Hin as [[n' s'] [Hn' Hin]]. simpl in Hn'. subst n'.
      clear -Hin Els. induction site as [|[k v] d IH]; [destruct Hin|].
      simpl in Els. destruct (String.eqb_spec n k); [discriminate|].
      destruct Hin as [H|H]; [injection H as -> _; contradiction | auto]. }
  unfold bind, lift. now rewrite (Heq s e eq_refl eq_refl).
Qed.

Lemma dict_lookup_key {V} n (d : list (string * V)) v :
  Py.dict_lookup n d = Some v -> In n (map fst d).
Proof.
  induction d as [|[k w] d IH]; simpl; [discriminate|].
  destruct (String.eqb_spec n k) as [->|]; [now left | right; auto].
Qed.

(** X9. On two usable listings whose entries have a text name and a
    description of any type: when the descriptions of every common name
    are equal, the description rule appends nothing and returns; when some
    common name has two different descriptions one of which is not text,
    the rule raises a [TypeError].  The second part is for listings none
    of whose descriptions is an object: what slicing an object raises
    depends on the version of the interpreter. *)
Theorem description_rule_type_error (E : Env) (site emporium : json) :
  load_json E (SITE_MARKETPLACE E) = Ok site ->
  load_json E (EMPORIUM_MARKETPLACE E) = Ok emporium ->
  complete_listing site = true -> complete_listing emporium = true ->
  ((forall n s e,
      Py.dict_lookup n (listing_values site) = Some s ->
      Py.dict_lookup n (listing_values emporium) = Some e -> Py.eqb s e = true) ->
   emits (check_description_consistency E) [] tt) /\
  (forall n s e,
     no_objects (listing_values site) = true ->
     no_objects (listing_values emporium) = true ->
     Py.dict_lookup n (listing_values site) = Some s ->
     Py.dict_lookup n (listing_values emporium) = Some e ->
     Py.eqb s e = false -> Py.is_str s && Py.is_str e = false ->
     forall fs, exists new,
       check_description_consistency E fs = (fs ++ new, Raise TypeError)).
Proof.
  intros Hs He Hss Hse.
  destruct (complete_listing_entries _ Hss) as [Hts [Hgs Hfs]].
  destruct (complete_listing_entries _ Hse) as [Hte [Hge Hfe]].
  assert (Hfold : forall fs,
    check_description_consistency E fs
    = for_each (map JStr (map fst (listing_values site)))
        (description_body (named_values (listing_values site))
                          (named_values (listing_values emporium))) fs).
  { intros fs. unfold check_description_consistency, bind, lift.
    rewrite Hs, He, Hts, Hte. cbn [negb orb]. rewrite Hgs. cbn [Py.iter].
    rewrite (collect_descs_from_empty _ Hfs). rewrite Hge. cbn [Py.iter].
    rewrite (collect_descs_from_empty _ Hfe).
    fold (listing_values site). fold (listing_values emporium).
    replace (map fst (named_values (listing_values site)))
      with (map JStr (map fst (listing_values site)))
      by (unfold named_values; rewrite !map_map; reflexivity).
    reflexivity. }
  split.
  - intros Heq fs. rewrite Hfold.
    assert (G : emits (for_each (map JStr (map fst (listing_values site)))
                         (description_body (named_values (listing_values site))
                                           (named_values (listing_values emporium))))
                      (flat_map (fun _ : string => []) (map fst (listing_values site))) tt).
    { apply emits_for_each_map. intros n Hn fs0.
      apply description_body_equal; [intros s e; apply Heq | exact Hn]. }
    rewrite G.
    replace (flat_map (fun _ : string => @nil Finding) (map fst (listing_values site)))
      with (@nil Finding); [reflexivity|].
    clear. generalize (map fst (listing_values site)). intros l.
    induction l as [|x l IH]; [reflexivity | exact IH].
  - intros n s e _ _ Hls Hle Hne Hty fs. rewrite Hfold.
    apply for_each_must_raise with (bad := JStr n).
    + intros x fs0 Hx. apply in_map_iff in Hx as [n' [<- Hn']].
      now apply description_body_outcome.
    + apply in_map. eapply dict_lookup_key. eassumption.
    + intros fs0. eapply description_body_raises; eassumption.
Qed.

(** ** Changelog headings *)

Lemma firstn_exact {A} (u v : list A) : firstn (List.length u) (u ++ v) = u.
Proof. induction u as [|x u IH]; simpl; [reflexivity | now rewrite IH]. Qed.

(** What a group remembers is what its pattern consumed. *)
Lemma group_capture n r st st' :
  In st' (run (Group n r) st) ->
  exists used, rest st = used ++ rest st' /\ pos st' = pos st + List.length used /\
               matches r (pos st) used (rest st') /\
               group n st' = Some (string_of_list_ascii used).
Proof.
  rewrite run_Group. intros H. apply in_map_iff in H as [mid [<- H]].
  apply run_sound in H as [used [Hr [Hp Hm]]]. exists used.
  simpl. repeat split; try assumption.
  unfold group. simpl. rewrite Nat.eqb_refl. simpl.
  rewrite Hr, Hp. replace (pos st + List.length used - pos st) with (List.length used) by lia.
  now rewrite firstn_exact.
Qed.

Lemma plus_digit_matches p u after :
  matches (Plus Digit) p u after <-> digit_run u = true.
Proof.
  unfold Plus. cbn [matches]. split.
  - intros [u1 [u2 [-> [[c [-> Hc]] Hs]]]]. apply star_digit_iff in Hs.
    unfold all_digits in Hs. simpl. now rewrite Hc, Hs.
  - destruct u as [|c u]; [discriminate|]. simpl. intros H.
    apply andb_true_iff in H as [Hc Hu].
    exists [c], u. split; [reflexivity|]. split; [eauto|]. now apply star_digit_iff.
Qed.

Lemma version_body_matches p g after :
  matches version_body p g after <->
  exists a b c, digit_run a = true /\ digit_run b = true /\ digit_run c = true /\
                g = a ++ "."%char :: b ++ "."%char :: c.
Proof.
  unfold version_body. split.
  - intros [a [r1 [-> [Ha H]]]]. apply plus_digit_matches in Ha.
    destruct H as [d1 [r2 [-> [Hd1 H]]]]. simpl in Hd1. subst d1.
    destruct H as [b [r3 [-> [Hb H]]]]. apply plus_digit_matches in Hb.
    destruct H as [d2 [c [-> [Hd2 Hc]]]]. simpl in Hd2. subst d2.
    apply plus_digit_matches in Hc. exists a, b, c. auto.
  - intros [a [b [c [Ha [Hb [Hc ->]]]]]].
    exists a, ("."%char :: b ++ "."%char :: c). split; [reflexivity|].
    split; [now apply plus_digit_matches|].
    exists ["."%char], (b ++ "."%char :: c). split; [reflexivity|].
    split; [reflexivity|].
    exists b, ("."%char :: c). split; [reflexivity|].
    split; [now apply plus_digit_matches|].
    exists ["."%char], c. split; [reflexivity|]. split; [reflexivity|].
    now apply plus_digit_matches.
Qed.

Lemma star_space_iff p u after :
  star_of (matches Space) p u after <-> forallb is_space u = true.
Proof.
  split.
  - induction 1 as [|p0 u1 u2 after0 _ [c [-> Hc]] _ IH]; [reflexivity|].
    simpl. now rewrite Hc, IH.
  - revert p. induction u as [|c u IH]; intros p H; [constructor|].
    simpl in H. apply andb_true_iff in H as [Hc Hu].
    change (c :: u) with ([c] ++ u). apply star_round.
    + discriminate.
    + simpl. eauto.
    + now apply IH.
Qed.

Lemma CHANGELOG_VERSION_RE_shape :
  CHANGELOG_VERSION_RE
  = Seq (Chr "#") (Seq (Chr "#") (Seq (Star Space) (Seq (Chr "[")
      (Seq (Group 1 version_body) (Chr "]"))))).
Proof. reflexivity. Qed.

(** Every way the heading pattern matches: two hashes, blanks, a bracket,
    the dotted triple that group 1 remembers, a bracket. *)
Lemma changelog_match_inv st0 st :
  In st (run CHANGELOG_VERSION_RE st0) ->
  exists ws g,
    rest st0 = "#"%char :: "#"%char :: ws ++ "["%char :: g ++ "]"%char :: rest st /\
    forallb is_space ws = true /\
    (exists a b c, digit_run a = true /\ digit_run b = true /\ digit_run c = true /\
                   g = a ++ "."%char :: b ++ "."%char :: c) /\
    group 1 st = Some (string_of_list_ascii g).
Proof.
  rewrite CHANGELOG_VERSION_RE_shape. intros H.
  rewrite run_Seq in H. apply in_flat_map in H as [s1 [H1 H]].
  rewrite run_Seq in H. apply in_flat_map in H as [s2 [H2 H]].
  rewrite run_Seq in H. apply in_flat_map in H as [s3 [H3 H]].
  rewrite run_Seq in H. apply in_flat_map in H as [s4 [H4 H]].
  rewrite run_Seq in H. apply in_flat_map in H as [s5 [H5 H6]].
  rewrite run_Chr in H1, H2, H4, H6.
  apply step_inv in H1 as [c1 [R1 [E1 _]]]. apply Ascii.eqb_eq in E1. subst c1.
  apply step_inv in H2 as [c2 [R2 [E2 _]]]. apply Ascii.eqb_eq in E2. subst c2.
  apply run_sound in H3 as [ws [R3 [_ M3]]]. cbn [matches] in M3.
  apply star_space_iff in M3.
  apply step_inv in H4 as [c4 [R4 [E4 _]]]. apply Ascii.eqb_eq in E4. subst c4.
  apply group_capture in H5 as [g [R5 [_ [M5 G5]]]].
  apply version_body_matches in M5.
  apply step_inv in H6 as [c6 [R6 [E6 [_ C6]]]]. apply Ascii.eqb_eq in E6. subst c6.
  exists ws, g. split; [now rewrite R1, R2, R3, R4, R5, R6|].
  split; [exact M3|]. split; [exact M5|].
  unfold group in *. now rewrite C6.
Qed.

Lemma digit_run_string a b c :
  digit_run a = true -> digit_run b = true -> digit_run c = true ->
  dotted_triple (string_of_list_ascii (a ++ "."%char :: b ++ "."%char :: c)).
Proof.
  intros Ha Hb Hc.
  exists (string_of_list_ascii a), (string_of_list_ascii b), (string_of_list_ascii c).
  rewrite !list_ascii_of_string_of_list_ascii. repeat split; try assumption.
  rewrite string_of_list_ascii_app. simpl. now rewrite string_of_list_ascii_app.
Qed.

(** X10. Without a changelog the extracted version is [None]; a
    changelog that cannot be read makes the extraction raise; and a version
    that is extracted is always made of three non-empty runs of digits
    separated by dots (leading zeros allowed). *)
Theorem changelog_version_is_dotted_triple (E : Env) (plugin_dir : Path) :
  (fs_exists E (changelog_path plugin_dir) = false ->
   get_changelog_version E plugin_dir = Ok None) /\
  (forall e, fs_exists E (changelog_path plugin_dir) = true ->
     fs_read_text E (changelog_path plugin_dir) = Raise e ->
     get_changelog_version E plugin_dir = Raise e) /\
  (forall v, get_changelog_version E plugin_dir = Ok (Some v) -> dotted_triple v).
Proof.
  unfold get_changelog_version, changelog_path. split; [now intros ->|]. split.
  - intros e -> Hr. now rewrite Hr.
  - intros v. destruct (negb (fs_exists E _)); [discriminate|].
    destruct (fs_read_text E _) as [text|e]; [|discriminate]. simpl.
    unfold search. destruct (search_from _ _ _) as [m|] eqn:Es; [|discriminate].
    intros H. injection H as H.
    apply search_from_in in Es as [p' [s' Hin]].
    apply changelog_match_inv in Hin as [ws [g [_ [_ [[a [b [c [Ha [Hb [Hc ->]]]]]] Hg]]]]].
    rewrite Hg in H. injection H as <-. now apply digit_run_string.
Qed.

(** A match of the heading pattern starts at two hashes that blanks and
    a bracket follow. *)
Lemma run_changelog_start p s :
  run CHANGELOG_VERSION_RE (start p s) <> [] ->
  exists ws more, s = "#"%char :: "#"%char :: ws ++ "["%char :: more /\
                  forallb is_space ws = true.
Proof.
  intros H. destruct (run CHANGELOG_VERSION_RE (start p s)) as [|m l] eqn:Er;
    [contradiction|].
  assert (Hin : In m (run CHANGELOG_VERSION_RE (start p s))) by (rewrite Er; now left).
  apply changelog_match_inv in Hin as [ws [g [Hr [Hws _]]]].
  exists ws, (g ++ "]"%char :: rest m). split; [exact Hr | exact Hws].
Qed.

Lemma no_double_hash_tail c pre : no_double_hash (c :: pre) = true -> no_double_hash pre = true.
Proof.
  destruct pre as [|d pre]; [reflexivity|]. cbn [no_double_hash].
  intros H. now apply andb_true_iff in H as [_ H].
Qed.

(** The search walks over a text without two adjacent hashes, up to the
    end of the text or to two hashes. *)
Lemma search_skips pre : forall p s,
  no_double_hash pre = true ->
  s = [] \/ (exists t, s = "#"%char :: "#"%char :: t) ->
  search_from CHANGELOG_VERSION_RE p (pre ++ s)
  = search_from CHANGELOG_VERSION_RE (p + List.length pre) s.
Proof.
  induction pre as [|c pre IH]; intros p s Hl Hs.
  - simpl. now rewrite Nat.add_0_r.
  - cbn [app search_from].
    destruct (run CHANGELOG_VERSION_RE (start p (c :: pre ++ s))) as [|m l] eqn:Er.
    + rewrite (IH (S p) s (no_double_hash_tail _ _ Hl) Hs). simpl. f_equal. lia.
    + exfalso.
      destruct (@run_changelog_start p (c :: pre ++ s)) as [ws [more [Heq Hws]]];
        [now rewrite Er|].
      injection Heq as -> Heq.
      destruct pre as [|d pre].
      * simpl in Heq. destruct Hs as [->|[t ->]]; [discriminate|].
        injection Heq as Heq. destruct ws as [|w ws]; [discriminate|].
        injection Heq as <- _. discriminate.
      * simpl in Heq. injection Heq as -> _. discriminate.
Qed.

Lemma search_none_plain text :
  no_double_hash text = true -> search_from CHANGELOG_VERSION_RE 0 text = None.
Proof.
  intros H. rewrite <- (app_nil_r text). rewrite search_skips by auto.
  reflexivity.
Qed.

Lemma split_at_first {A} (P : A -> bool) l1 : forall l2 x1 x2 r1 r2,
  forallb P l1 = true -> forallb P l2 = true -> P x1 = false -> P x2 = false ->
  l1 ++ x1 :: r1 = l2 ++ x2 :: r2 -> l1 = l2 /\ r1 = r2.
Proof.
  induction l1 as [|a l1 IH]; intros [|b l2] x1 x2 r1 r2 H1 H2 Hx1 Hx2 He; simpl in *.
  - injection He as _ ->. now split.
  - injection He as -> _. apply andb_true_iff in H2 as [H2 _]. congruence.
  - injection He as -> _. apply andb_true_iff in H1 as [H1 _]. congruence.
  - injection He as -> He. apply andb_true_iff in H1 as [_ H1].
    apply andb_true_iff in H2 as [_ H2].
    destruct (IH l2 x1 x2 r1 r2 H1 H2 Hx1 Hx2 He) as [-> ->]. now split.
Qed.

Lemma digit_run_chars a : digit_run a = true -> forallb version_char a = true.
Proof.
  destruct a as [|c a]; [discriminate|]. unfold digit_run. intros H.
  rewrite forallb_forall in *. intros x Hx. unfold version_char. now rewrite (H x Hx).
Qed.

Lemma triple_chars a b c :
  digit_run a = true -> digit_run b = true -> digit_run c = true ->
  forallb version_char (a ++ "."%char :: b ++ "."%char :: c) = true.
Proof.
  intros Ha Hb Hc. rewrite forallb_app. simpl. rewrite forallb_app. simpl.
  now rewrite (digit_run_chars _ Ha), (digit_run_chars _ Hb), (digit_run_chars _ Hc).
Qed.

(** At a heading, the search stops and group 1 is the version of the
    heading, whatever follows. *)
Lemma search_at_heading p ws a b c after :
  forallb is_space ws = true ->
  digit_run a = true -> digit_run b = true -> digit_run c = true ->
  exists m,
    search_from CHANGELOG_VERSION_RE p
      ("#"%char :: "#"%char :: ws ++ "["%char
       :: (a ++ "."%char :: b ++ "."%char :: c) ++ "]"%char :: after) = Some m /\
    group 1 m = Some (string_of_list_ascii (a ++ "."%char :: b ++ "."%char :: c)).
Proof.
  intros Hws Ha Hb Hc.
  set (g := a ++ "."%char :: b ++ "."%char :: c).
  set (text := "#"%char :: "#"%char :: ws ++ "["%char :: g ++ "]"%char :: after).
  assert (Hm : matches CHANGELOG_VERSION_RE p
                 ("#"%char :: "#"%char :: ws ++ "["%char :: g ++ ["]"%char]) after).
  { rewrite CHANGELOG_VERSION_RE_shape.
    exists ["#"%char], ("#"%char :: ws ++ "["%char :: g ++ ["]"%char]).
    split; [reflexivity|]. split; [reflexivity|].
    exists ["#"%char], (ws ++ "["%char :: g ++ ["]"%char]).
    split; [reflexivity|]. split; [reflexivity|].
    exists ws, ("["%char :: g ++ ["]"%char]). split; [reflexivity|].
    split; [cbn [matches]; now apply star_space_iff|].
    exists ["["%char], (g ++ ["]"%char]). split; [reflexivity|]. split; [reflexivity|].
    exists g, ["]"%char]. split; [reflexivity|].
    split; [|reflexivity]. cbn [matches]. apply version_body_matches.
    exists a, b, c. auto. }
  assert (Hr : rest (start p text)
               = ("#"%char :: "#"%char :: ws ++ "["%char :: g ++ ["]"%char]) ++ after).
  { subst text. simpl. rewrite <- !app_assoc. simpl. rewrite <- !app_assoc. reflexivity. }
  destruct (run_complete CHANGELOG_VERSION_RE (start p text) _ _ Hr Hm) as [st [Hin _]].
  destruct (run CHANGELOG_VERSION_RE (start p text)) as [|m l] eqn:Er; [destruct Hin|].
  exists m. split.
  - subst text. cbn [search_from]. fold g.
    change ("#"%char :: "#"%char :: ws ++ "["%char :: g ++ "]"%char :: after)
      with ("#"%char :: "#"%char :: ws ++ "["%char :: g ++ "]"%char :: after) in Er.
    now rewrite Er.
  - assert (Hm' : In m (run CHANGELOG_VERSION_RE (start p text)))
      by (rewrite Er; now left).
    apply changelog_match_inv in Hm' as [ws' [g' [Hr' [Hws' [[a' [b' [c' [Ha' [Hb' [Hc' Hg']]]]]] Hgrp]]]]].
    subst text. simpl in Hr'. injection Hr' as Hr'.
    destruct (split_at_first is_space ws ws' "["%char "["%char _ _ Hws Hws'
                eq_refl eq_refl Hr') as [_ Hr''].
    assert (Hg1 : forallb version_char g = true) by (now apply triple_chars).
    assert (Hg2 : forallb version_char g' = true)
      by (subst g'; now apply triple_chars).
    destruct (split_at_first version_char g g' "]"%char "]"%char _ _ Hg1 Hg2
                eq_refl eq_refl Hr'') as [Hgg _].
    now rewrite Hgrp, <- Hgg.
Qed.

(** X11. A changelog in which no two hashes are adjacent gives [None].
    A changelog whose first two adjacent hashes open a heading (blanks,
    then a dotted triple between brackets) gives that triple, whatever
    comes after the heading. *)
Theorem changelog_first_heading_wins (E : Env) (plugin_dir : Path) (text : string) :
  fs_exists E (changelog_path plugin_dir) = true ->
  fs_read_text E (changelog_path plugin_dir) = Ok text ->
  (no_double_hash (list_ascii_of_string text) = true ->
   get_changelog_version E plugin_dir = Ok None) /\
  (forall pre ws a b c after : string,
     text = (pre ++ "##" ++ ws ++ "[" ++ (a ++ "." ++ b ++ "." ++ c) ++ "]" ++ after)%string ->
     no_double_hash (list_ascii_of_string pre) = true ->
     forallb is_space (list_ascii_of_string ws) = true ->
     digit_run (list_ascii_of_string a) = true ->
     digit_run (list_ascii_of_string b) = true ->
     digit_run (list_ascii_of_string c) = true ->
     get_changelog_version E plugin_dir = Ok (Some (a ++ "." ++ b ++ "." ++ c)%string)).
Proof.
  intros Hex Hread. unfold get_changelog_version. fold (changelog_path plugin_dir).
  rewrite Hex, Hread. cbn [negb rbind]. unfold search. split.
  - intros Hl. now rewrite search_none_plain.
  - intros pre ws a b c after -> Hpre Hws Ha Hb Hc.
    assert (Hchars :
      list_ascii_of_string
        (pre ++ "##" ++ ws ++ "[" ++ (a ++ "." ++ b ++ "." ++ c) ++ "]" ++ after)%string
      = list_ascii_of_string pre
        ++ "#"%char :: "#"%char :: list_ascii_of_string ws ++ "["%char
           :: (list_ascii_of_string a ++ "."%char :: list_ascii_of_string b
               ++ "."%char :: list_ascii_of_string c)
           ++ "]"%char :: list_ascii_of_string after).
    { repeat (rewrite list_ascii_of_string_app; cbn [list_ascii_of_string app]).
      reflexivity. }
    rewrite Hchars. rewrite search_skips by (eauto).
    destruct (search_at_heading (0 + List.length (list_ascii_of_string pre))
                (list_ascii_of_string ws) (list_ascii_of_string a)
                (list_ascii_of_string b) (list_ascii_of_string c)
                (list_ascii_of_string after) Hws Ha Hb Hc) as [m [-> Hg]].
    rewrite Hg. f_equal. f_equal.
    rewrite string_of_list_ascii_app. cbn [string_of_list_ascii].
    rewrite string_of_list_ascii_app. cbn [string_of_list_ascii].
    now rewrite !string_of_list_ascii_of_string.
Qed.

(** ** The order of the directories *)

Lemma compare_refl (s : string) : String.compare s s = Eq.
Proof. now apply OrderedTypeEx.String_as_OT.cmp_eq. Qed.

Lemma compare_lt_trans a b c :
  String.compare a b = Lt -> String.compare b c = Lt -> String.compare a c = Lt.
Proof.
  intros H1 H2. apply OrderedTypeEx.String_as_OT.cmp_lt in H1, H2. apply OrderedTypeEx.String_as_OT.cmp_lt.
  eapply OrderedTypeEx.String_as_OT.lt_trans; eassumption.
Qed.

Lemma strings_ltb_irrefl l : PurePath.strings_ltb l l = false.
Proof.
  induction l as [|x l IH]; [reflexivity|]. simpl. now rewrite compare_refl.
Qed.

Lemma strings_ltb_trans a : forall b c,
  PurePath.strings_ltb a b = true -> PurePath.strings_ltb b c = true ->
  PurePath.strings_ltb a c = true.
Proof.
  induction a as [|x a IH]; intros [|y b] [|z c] H1 H2; simpl in *;
    try discriminate; try reflexivity.
  destruct (String.compare x y) eqn:Exy; try discriminate;
    destruct (String.compare y z) eqn:Eyz; try discriminate.
  - apply String.compare_eq_iff in Exy, Eyz. subst. rewrite compare_refl. eauto.
  - apply String.compare_eq_iff in Exy. subst. now rewrite Eyz.
  - apply String.compare_eq_iff in Eyz. subst. now rewrite Exy.
  - now rewrite (compare_lt_trans _ _ _ Exy Eyz).
Qed.

Lemma strings_ltb_total a : forall b,
  PurePath.strings_ltb a b = false -> PurePath.strings_ltb b a = false -> a = b.
Proof.
  induction a as [|x a IH]; intros [|y b] H1 H2; simpl in *;
    try discriminate; try reflexivity.
  rewrite (String.compare_antisym y x) in H2.
  destruct (String.compare x y) eqn:Exy; simpl in H2; try discriminate.
  apply String.compare_eq_iff in Exy. subst. f_equal. now apply IH.
Qed.

Lemma ltb_irrefl p : PurePath.ltb p p = false.
Proof. apply strings_ltb_irrefl. Qed.

Lemma ltb_trans p q r :
  PurePath.ltb p q = true -> PurePath.ltb q r = true -> PurePath.ltb p r = true.
Proof. apply strings_ltb_trans. Qed.

Lemma ltb_total p q : PurePath.ltb p q = false -> PurePath.ltb q p = false -> p = q.
Proof.
  unfold PurePath.ltb. intros H1 H2.
  pose proof (strings_ltb_total _ _ H1 H2) as H. destruct p, q. simpl in H.
  now injection H as -> ->.
Qed.

Lemma ltb_asym p q : PurePath.ltb p q = true -> PurePath.ltb q p = false.
Proof.
  intros H. destruct (PurePath.ltb q p) eqn:E; [|reflexivity].
  pose proof (ltb_trans _ _ _ H E) as C. now rewrite ltb_irrefl in C.
Qed.

Lemma not_after_trans x y z : not_after x y -> not_after y z -> not_after x z.
Proof.
  unfold not_after. intros Hxy Hyz.
  destruct (PurePath.ltb z x) eqn:Ezx; [|reflexivity].
  destruct (PurePath.ltb x y) eqn:Exy.
  - pose proof (ltb_trans _ _ _ Ezx Exy). congruence.
  - pose proof (ltb_total _ _ Exy Hxy). subst. congruence.
Qed.

Lemma insert_sorted_In x y l : In y (insert_sorted x l) -> y = x \/ In y l.
Proof.
  intros H. apply (Permutation_in _ (insert_sorted_perm x l)) in H.
  destruct H as [<-|H]; auto.
Qed.

Lemma insert_sorted_keeps x l :
  StronglySorted not_after l -> StronglySorted not_after (insert_sorted x l).
Proof.
  induction 1 as [|y l Hs IH Hy]; simpl.
  - repeat constructor.
  - destruct (PurePath.ltb y x) eqn:Eyx.
    + constructor; [exact IH|]. apply Forall_forall. intros z Hz.
      apply insert_sorted_In in Hz as [->|Hz].
      * unfold not_after. now apply ltb_asym.
      * rewrite Forall_forall in Hy. now apply Hy.
    + constructor; [now constructor|]. constructor; [exact Eyx|].
      eapply Forall_impl; [|exact Hy]. intros z Hz.
      apply not_after_trans with (y := y); assumption.
Qed.

Lemma sorted_is_sorted l : StronglySorted not_after (sorted l).
Proof.
  induction l as [|x l IH]; simpl; [constructor | now apply insert_sorted_keeps].
Qed.

Lemma sorted_lists_unique l : forall l',
  StronglySorted not_after l -> StronglySorted not_after l' -> Permutation l l' -> l = l'.
Proof.
  induction l as [|a l IH]; intros [|b l'] Hl Hl' Hp.
  - reflexivity.
  - apply Permutation_nil in Hp. discriminate.
  - apply Permutation_sym, Permutation_nil in Hp. discriminate.
  - inversion Hl as [|? ? Hs Ha]; subst. inversion Hl' as [|? ? Hs' Hb]; subst.
    assert (a = b).
    { assert (Hab : not_after a b).
      { assert (Hin : In b (a :: l))
          by (eapply Permutation_in; [apply Permutation_sym; exact Hp | now left]).
        destruct Hin as [->|Hin]; [apply ltb_irrefl|].
        rewrite Forall_forall in Ha. now apply Ha. }
      assert (Hba : not_after b a).
      { assert (Hin : In a (b :: l')) by (eapply Permutation_in; [exact Hp | now left]).
        destruct Hin as [->|Hin]; [apply ltb_irrefl|].
        rewrite Forall_forall in Hb. now apply Hb. }
      unfold not_after in *. now apply ltb_total. }
    subst b. f_equal. apply IH; try assumption.
    now apply Permutation_cons_inv with (a := a).
Qed.

Lemma sorted_of_permutation l l' : Permutation l l' -> sorted l = sorted l'.
Proof.
  intros Hp. apply sorted_lists_unique; try apply sorted_is_sorted.
  eapply Permutation_trans; [apply sorted_perm|].
  eapply Permutation_trans; [exact Hp | apply Permutation_sym, sorted_perm].
Qed.

(** X14. The stable sort of [main] gives the same list for every
    ordering of the same directories; so a run does not depend on the order
    of [PLUGIN_DIRS], nor the script on the order in which the root lists
    its children. *)
Theorem report_ignores_discovery_order (E : Env) :
  (forall l l', Permutation l l' -> sorted l = sorted l') /\
  (forall json_mode dirs dirs',
     Permutation dirs dirs' -> main E json_mode dirs = main E json_mode dirs') /\
  (forall json_mode iterdir iterdir' children children',
     iterdir (FABRICA_ROOT E) = Ok children ->
     iterdir' (FABRICA_ROOT E) = Ok children' ->
     Permutation children children' ->
     script E iterdir json_mode = script E iterdir' json_mode).
Proof.
  assert (Hmain : forall json_mode dirs dirs',
            Permutation dirs dirs' -> main E json_mode dirs = main E json_mode dirs').
  { intros jm dirs dirs' Hp. unfold main, run_checks, per_plugin_checks.
    now rewrite (sorted_of_permutation Hp). }
  split; [exact sorted_of_permutation|]. split; [exact Hmain|].
  intros jm it it' ch ch' Hi Hi' Hp. unfold script, _discover_plugins.
  destruct (negb (fs_exists E (FABRICA_ROOT E))); [reflexivity|].
  rewrite Hi, Hi'. cbn [rbind]. apply Hmain. now apply Permutation_filter_compat.
Qed.

(** ** Runs on the small file system *)

Lemma finding_text_form_witness :
  __str__ Example.plain_floats Example.sample_finding
  = "[CRITICAL] herald: Version mismatch (a=1, b=2)"
  /\ Py.str_contains "a=1" (__str__ Example.plain_floats Example.sample_finding) = true
  /\ __str__ Example.plain_floats (no_manifest "bare")
     = "[MEDIUM] bare: No plugin.json or marketplace.json found".
Proof.
  destruct (finding_text_form Example.plain_floats Example.sample_finding)
    as [_ [_ [Hpair Hfull]]].
  destruct (finding_text_form Example.plain_floats (no_manifest "bare")) as [_ [Hnone _]].
  split; [exact (Hfull ltac:(discriminate))|].
  split; [exact (Hpair "a" (JStr "1") (or_introl eq_refl)) | exact (Hnone eq_refl)].
Defined.

Lemma json_report_is_lossless_witness :
  exists status,
    main (Example.env_of Example.market_disk) true []
    = Ok ([PrintJson (map to_dict [missing_from_site "x"; missing_from_emporium "y";
                                   no_tags "shared"; missing_meta "y"])], status).
Proof.
  exact (proj1 json_report_is_lossless (Example.env_of Example.market_disk) []
               [missing_from_site "x"; missing_from_emporium "y";
                no_tags "shared"; missing_meta "y"] eq_refl).
Defined.

Lemma human_report_prints_every_finding_witness :
  main (Example.env_of Example.no_disk) false [] = Ok ([PrintAllPassed], 0%Z) /\
  exists status,
    main (Example.env_of Example.market_disk) false []
    = Ok ([PrintBanner "HIGH" 3; PrintFinding (missing_from_site "x");
           PrintFinding (missing_from_emporium "y"); PrintFinding (missing_meta "y");
           PrintBanner "LOW" 1; PrintFinding (no_tags "shared");
           PrintSummary 4 0 3 0 1], status).
Proof.
  split.
  - exact (proj1 (human_report_prints_every_finding
                    (Example.env_of Example.no_disk) [] (findings := []) eq_refl) eq_refl).
  - destruct (proj2 (human_report_prints_every_finding
                       (Example.env_of Example.market_disk) []
                       (findings := [missing_from_site "x"; missing_from_emporium "y";
                                     no_tags "shared"; missing_meta "y"]) eq_refl)
                    ltac:(discriminate)) as [status [Hm _]].
    exists status. exact Hm.
Defined.

Lemma non_object_sources_raise_witness :
  check_plugin_json_schema (Example.env_of Example.array_disk) Example.sigil []
  = ([], Raise TypeError) /\
  check_version_consistency (Example.env_of Example.array_disk) Example.sigil JNull []
  = ([], Raise AttributeError) /\
  check_marketplace_components (Example.env_of Example.array_disk) Example.sigil []
  = ([], Raise AttributeError).
Proof.
  destruct (non_object_sources_raise (Example.env_of Example.array_disk) Example.sigil)
    as [Hpj Hm].
  destruct (Hpj (JArr [JStr "name"]) eq_refl eq_refl) as [_ Hv].
  split; [reflexivity|].
  split; [exact (Hv JNull []) | exact (Hm (JStr "plugins") eq_refl eq_refl [])].
Defined.

Lemma description_rule_on_text_witness :
  check_description_consistency (Example.env_of Example.described_disk) []
  = ([description_mismatch "shared" "A new text" "The text"], Ok tt).
Proof.
  exact (proj1 (description_rule_on_text (Example.env_of Example.described_disk)
                  (site := Example.site_described) (emporium := Example.emporium_described)
                  eq_refl eq_refl eq_refl eq_refl) []).
Defined.

Lemma changelog_version_is_dotted_triple_witness :
  get_changelog_version (Example.env_of Example.no_disk) Example.herald = Ok None /\
  dotted_triple "1.9.0".
Proof.
  split.
  - exact (proj1 (changelog_version_is_dotted_triple (Example.env_of Example.no_disk)
                                                     Example.herald) eq_refl).
  - exact (proj2 (proj2 (changelog_version_is_dotted_triple
                           (Example.env_of Example.herald_disk) Example.herald))
                 "1.9.0" eq_refl).
Defined.

Lemma changelog_first_heading_wins_witness :
  get_changelog_version (Example.env_of Example.herald_disk) Example.herald
  = Ok (Some "1.9.0") /\
  get_changelog_version (Example.env_of Example.plain_changelog_disk) Example.herald
  = Ok None.
Proof.
  split.
  - exact (proj2 (changelog_first_heading_wins
                    (Example.env_of Example.herald_disk) Example.herald
                    (text := Example.herald_changelog) eq_refl eq_refl)
                 ("# Changelog" ++ String "010" "")%string " " "1" "9" "0"
                 (" - 2026-02-25" ++ String "010" "- stuff")%string
                 eq_refl eq_refl eq_refl eq_refl eq_refl eq_refl).
  - exact (proj1 (changelog_first_heading_wins
                    (Example.env_of Example.plain_changelog_disk) Example.herald
                    (text := "Changelog #") eq_refl eq_refl) eq_refl).
Defined.


Lemma preloaded_index_is_transparent_witness :
  check_version_consistency (Example.env_of Example.herald_disk) Example.herald
    Example.herald_site_index []
  = check_version_consistency (Example.env_of Example.herald_disk) Example.herald JNull [].
Proof.
  exact (proj1 (preloaded_index_is_transparent (Example.env_of Example.herald_disk)
                  (cache := Example.herald_site_index) eq_refl) Example.herald []).
Defined.

Lemma description_rule_type_error_witness :
  check_description_consistency (Example.env_of Example.both_null_disk) [] = ([], Ok tt) /\
  exists new,
    check_description_consistency (Example.env_of Example.untyped_disk) []
    = ([] ++ new, Raise TypeError).
Proof.
  split.
  - refine (proj1 (description_rule_type_error (Example.env_of Example.both_null_disk)
                     (site := Example.null_described) (emporium := Example.null_described)
                     eq_refl eq_refl eq_refl eq_refl) _ []).
    intros n s e Hs He.
    change (listing_values Example.null_described) with [("shared", JNull)] in Hs, He.
    cbn [Py.dict_lookup] in Hs, He.
    destruct (String.eqb n "shared"); [|discriminate].
    injection Hs as <-. injection He as <-. reflexivity.
  - exact (proj2 (description_rule_type_error (Example.env_of Example.untyped_disk)
                    (site := Example.null_described)
                    (emporium := Example.emporium_described)
                    eq_refl eq_refl eq_refl eq_refl)
                 "shared" JNull (JStr "The text")
                 eq_refl eq_refl eq_refl eq_refl eq_refl eq_refl []).
Defined.

Lemma report_ignores_discovery_order_witness :
  main (Example.env_of Example.schema_disk) false [Example.sigil; Example.bare]
  = main (Example.env_of Example.schema_disk) false [Example.bare; Example.sigil] /\
  script (Example.env_of Example.workspace_disk) Example.workspace_iterdir true
  = script (Example.env_of Example.workspace_disk)
      (fun _ => Ok (rev Example.workspace_children)) true.
Proof.
  destruct (report_ignores_discovery_order (Example.env_of Example.schema_disk))
    as [_ [Hmain _]].
  destruct (report_ignores_discovery_order (Example.env_of Example.workspace_disk))
    as [_ [_ Hscript]].
  split.
  - apply Hmain. apply perm_swap.
  - apply (Hscript true Example.workspace_iterdir
             (fun _ => Ok (rev Example.workspace_children))
             Example.workspace_children (rev Example.workspace_children)
             eq_refl eq_refl).
    apply Permutation_rev.
Defined.
